(** * SmartThings TV client

    A shallow embedding of
    [custom_components/samsungtv_smart/api/smartthings.py]: the class
    [SmartThingsTV], which polls the SmartThings cloud for the status of a
    television, caches what it reads and sends commands to it.

    Python values that come out of JSON documents are kept dynamically typed
    ([json]), so that the truthiness tests and the attribute errors of the
    source are visible.  Strings are sequences of characters with code points
    below 256: ASCII and, above it, Latin-1.  The
    coroutines of the class are computations in a small monad [M] that threads
    the client object and the list of HTTP requests issued so far, reads the
    peer's answers, the clock and the library parsers from an environment, and
    can raise a Python exception. *)

From Stdlib Require Import ZArith QArith List String Ascii Bool Lia.
Import ListNotations.
Set Warnings "-register-all".
Local Open Scope Z_scope.
Local Open Scope string_scope.

(** ** Python values and exceptions *)

Inductive json : Type :=
| JNull
| JBool (b : bool)
| JInt (n : Z)
| JStr (s : string)
| JArr (items : list json)
| JObj (fields : list (string * json)).

Inductive exn : Type :=
| AsyncTimeoutError
| ClientConnectionError
| ClientResponseError
| AttributeError
| TypeError
| KeyError
| ValueError
| OverflowError
| InvalidSmartThingsSoundMode
| InvalidSmartThingsPictureMode.

Definition result (A : Type) : Type := (exn + A)%type.

Definition and_then {A B : Type} (r : result A) (k : A -> result B) : result B :=
  match r with
  | inl x => inl x
  | inr a => k a
  end.

(** [bool(v)] *)
Definition truthy (v : json) : bool :=
  match v with
  | JNull => false
  | JBool b => b
  | JInt n => negb (n =? 0)%Z
  | JStr s => negb (s =? "")
  | JArr items => match items with [] => false | _ :: _ => true end
  | JObj fields => match fields with [] => false | _ :: _ => true end
  end.

(** [v == s] for a string [s] *)
Definition eq_str (v : json) (s : string) : bool :=
  match v with
  | JStr t => t =? s
  | _ => false
  end.

Fixpoint lookup (k : string) (fields : list (string * json)) : option json :=
  match fields with
  | [] => None
  | (k', v) :: rest => if k' =? k then Some v else lookup k rest
  end.

(** [d.get(k, default)]; only a dict has the method. *)
Definition dict_get (d : json) (k : string) (default : json) : result json :=
  match d with
  | JObj fields =>
      inr (match lookup k fields with Some v => v | None => default end)
  | _ => inl AttributeError
  end.

(** [d[k]] *)
Definition subscript (d : json) (k : string) : result json :=
  match d with
  | JObj fields =>
      match lookup k fields with Some v => inr v | None => inl KeyError end
  | _ => inl TypeError
  end.

(** The items a [for] loop over [v] visits. *)
Definition py_iter (v : json) : result (list json) :=
  match v with
  | JArr items => inr items
  | JObj fields => inr (map (fun kv => JStr (fst kv)) fields)
  | JStr s => inr (map (fun a => JStr (String a "")) (list_ascii_of_string s))
  | _ => inl TypeError
  end.

(** ** String methods *)

Definition upper_ascii (a : ascii) : ascii :=
  let n := nat_of_ascii a in
  if ((97 <=? n) && (n <=? 122))%nat then ascii_of_nat (n - 32) else a.

(** [s.upper()].  Above ASCII [str.upper] changes letters too, none of them
    into an ASCII letter other than S; the source compares upper-cased text
    with "DTV" and "DIGITALTV" only, which this cannot affect. *)
Fixpoint upper (s : string) : string :=
  match s with
  | EmptyString => EmptyString
  | String a rest => String (upper_ascii a) (upper rest)
  end.

(** One of the ten decimal digits. *)
Definition is_decimal (a : ascii) : bool :=
  let n := nat_of_ascii a in ((48 <=? n) && (n <=? 57))%nat.

(** A character that [str.isdigit] accepts: a decimal digit or one of the
    superscript digits, which below 256 are the code points 178, 179 and
    185. *)
Definition is_digit (a : ascii) : bool :=
  let n := nat_of_ascii a in
  (is_decimal a || (n =? 178) || (n =? 179) || (n =? 185))%nat.

Fixpoint all_digits (s : string) : bool :=
  match s with
  | EmptyString => true
  | String a rest => is_digit a && all_digits rest
  end.

(** [s.isdigit()] *)
Definition isdigit (s : string) : bool :=
  match s with
  | EmptyString => false
  | String _ _ => all_digits s
  end.

Fixpoint all_decimal (s : string) : bool :=
  match s with
  | EmptyString => true
  | String a rest => is_decimal a && all_decimal rest
  end.

(** [s.isdecimal()]: a non-empty string of decimal digits. *)
Definition isdecimal (s : string) : bool :=
  match s with
  | EmptyString => false
  | String _ _ => all_decimal s
  end.

Fixpoint int_acc (acc : Z) (s : string) : Z :=
  match s with
  | EmptyString => acc
  | String a rest => int_acc (10 * acc + (Z.of_nat (nat_of_ascii a) - 48))%Z rest
  end.

(** [int(s)] for a string of decimal digits *)
Definition int_of_digits (s : string) : Z := int_acc 0 s.

(** ** Constants *)

Definition API_BASEURL : string := "https://api.smartthings.com/v1".
Definition API_DEVICES : string := API_BASEURL ++ "/devices".

Record vendor_command : Type :=
  { capability : string; command : string }.

Definition COMMAND_POWER_OFF := {| capability := "switch"; command := "off" |}.
Definition COMMAND_POWER_ON := {| capability := "switch"; command := "on" |}.
Definition COMMAND_REFRESH := {| capability := "refresh"; command := "refresh" |}.
Definition COMMAND_SET_SOURCE :=
  {| capability := "mediaInputSource"; command := "setInputSource" |}.
Definition COMMAND_SET_VD_SOURCE :=
  {| capability := "samsungvd.mediaInputSource"; command := "setInputSource" |}.
Definition COMMAND_MUTE := {| capability := "audioMute"; command := "mute" |}.
Definition COMMAND_UNMUTE := {| capability := "audioMute"; command := "unmute" |}.
Definition COMMAND_VOLUME_UP :=
  {| capability := "audioVolume"; command := "volumeUp" |}.
Definition COMMAND_VOLUME_DOWN :=
  {| capability := "audioVolume"; command := "volumeDown" |}.
Definition COMMAND_SET_VOLUME :=
  {| capability := "audioVolume"; command := "setVolume" |}.
Definition COMMAND_CHANNEL_UP :=
  {| capability := "tvChannel"; command := "channelUp" |}.
Definition COMMAND_CHANNEL_DOWN :=
  {| capability := "tvChannel"; command := "channelDown" |}.
Definition COMMAND_SET_CHANNEL :=
  {| capability := "tvChannel"; command := "setTvChannel" |}.
Definition COMMAND_SOUND_MODE :=
  {| capability := "samsungvd.soundMode"; command := "setSoundMode" |}.
Definition COMMAND_PICTURE_MODE :=
  {| capability := "samsungvd.pictureMode"; command := "setPictureMode" |}.

Definition DIGITAL_TV : string := "digitalTv".

(** [timedelta(seconds=10)], in microseconds, the resolution of [datetime]. *)
Definition MIN_TIME_BETWEEN_UPDATES : Z := (10 * 1000000)%Z.

(** The dict [{"commands": [cmd]}] that [_command] builds.  The source returns
    its [str()], a string that is never empty; the model keeps the structure. *)
Record command_body : Type :=
  { component : string; base : vendor_command; arguments : option (list json) }.

Definition _command (command : vendor_command) (arguments : option (list json))
  : command_body :=
  {| component := "main";
     base := command;
     arguments := match arguments with
                  | Some ((_ :: _) as args) => Some args
                  | _ => None
                  end |}.

Inductive STStatus : Type := STATE_OFF | STATE_ON | STATE_UNKNOWN.

Definition STStatus_eqb (a b : STStatus) : bool :=
  match a, b with
  | STATE_OFF, STATE_OFF | STATE_ON, STATE_ON | STATE_UNKNOWN, STATE_UNKNOWN => true
  | _, _ => false
  end.

(** ** The client object

    The attributes of [SmartThingsTV], without the HTTP session.  [_throttle] is
    the attribute in which the [Throttle] decorator keeps, on the instance, the
    time at which [_device_refresh] last ran. *)

Record client : Type :=
  { _api_key : string;
    _device_id : string;
    _use_channel_info : bool;
    _device_name : json;
    _state : STStatus;
    _prev_state : STStatus;
    _muted : bool;
    _volume : Q;
    _source_list : option (list string);
    _source_list_map : json;
    _source : json;
    _channel : json;
    _channel_name : json;
    _sound_mode : json;
    _sound_mode_list : json;
    _sound_mode_list_map : json;
    _picture_mode : json;
    _picture_mode_list : json;
    _picture_mode_list_map : json;
    _is_forced_val : bool;
    _forced_count : Z;
    _throttle : option Z }.

(** [SmartThingsTV.__init__] *)
Definition __init__ (api_key device_id : string) (use_channel_info : bool)
  : client :=
  {| _api_key := api_key;
     _device_id := device_id;
     _use_channel_info := use_channel_info;
     _device_name := JNull;
     _state := STATE_UNKNOWN;
     _prev_state := STATE_UNKNOWN;
     _muted := false;
     _volume := 10%Q;
     _source_list := None;
     _source_list_map := JNull;
     _source := JStr "";
     _channel := JStr "";
     _channel_name := JStr "";
     _sound_mode := JNull;
     _sound_mode_list := JNull;
     _sound_mode_list_map := JNull;
     _picture_mode := JNull;
     _picture_mode_list := JNull;
     _picture_mode_list_map := JNull;
     _is_forced_val := false;
     _forced_count := 0%Z;
     _throttle := None |}.

(** Attribute assignment, one function per attribute the methods assign. *)

Definition upd_use_channel_info (v : bool) (c : client) : client :=
  {| _api_key := _api_key c; _device_id := _device_id c;
     _use_channel_info := v; _device_name := _device_name c;
     _state := _state c; _prev_state := _prev_state c; _muted := _muted c;
     _volume := _volume c; _source_list := _source_list c;
     _source_list_map := _source_list_map c; _source := _source c;
     _channel := _channel c; _channel_name := _channel_name c;
     _sound_mode := _sound_mode c; _sound_mode_list := _sound_mode_list c;
     _sound_mode_list_map := _sound_mode_list_map c;
     _picture_mode := _picture_mode c;
     _picture_mode_list := _picture_mode_list c;
     _picture_mode_list_map := _picture_mode_list_map c;
     _is_forced_val := _is_forced_val c; _forced_count := _forced_count c;
     _throttle := _throttle c |}.

Definition upd_state (v : STStatus) (c : client) : client :=
  {| _api_key := _api_key c; _device_id := _device_id c;
     _use_channel_info := _use_channel_info c;
     _device_name := _device_name c; _state := v;
     _prev_state := _prev_state c; _muted := _muted c; _volume := _volume c;
     _source_list := _source_list c; _source_list_map := _source_list_map c;
     _source := _source c; _channel := _channel c;
     _channel_name := _channel_name c; _sound_mode := _sound_mode c;
     _sound_mode_list := _sound_mode_list c;
     _sound_mode_list_map := _sound_mode_list_map c;
     _picture_mode := _picture_mode c;
     _picture_mode_list := _picture_mode_list c;
     _picture_mode_list_map := _picture_mode_list_map c;
     _is_forced_val := _is_forced_val c; _forced_count := _forced_count c;
     _throttle := _throttle c |}.

Definition upd_prev_state (v : STStatus) (c : client) : client :=
  {| _api_key := _api_key c; _device_id := _device_id c;
     _use_channel_info := _use_channel_info c;
     _device_name := _device_name c; _state := _state c; _prev_state := v;
     _muted := _muted c; _volume := _volume c;
     _source_list := _source_list c; _source_list_map := _source_list_map c;
     _source := _source c; _channel := _channel c;
     _channel_name := _channel_name c; _sound_mode := _sound_mode c;
     _sound_mode_list := _sound_mode_list c;
     _sound_mode_list_map := _sound_mode_list_map c;
     _picture_mode := _picture_mode c;
     _picture_mode_list := _picture_mode_list c;
     _picture_mode_list_map := _picture_mode_list_map c;
     _is_forced_val := _is_forced_val c; _forced_count := _forced_count c;
     _throttle := _throttle c |}.

Definition upd_muted (v : bool) (c : client) : client :=
  {| _api_key := _api_key c; _device_id := _device_id c;
     _use_channel_info := _use_channel_info c;
     _device_name := _device_name c; _state := _state c;
     _prev_state := _prev_state c; _muted := v; _volume := _volume c;
     _source_list := _source_list c; _source_list_map := _source_list_map c;
     _source := _source c; _channel := _channel c;
     _channel_name := _channel_name c; _sound_mode := _sound_mode c;
     _sound_mode_list := _sound_mode_list c;
     _sound_mode_list_map := _sound_mode_list_map c;
     _picture_mode := _picture_mode c;
     _picture_mode_list := _picture_mode_list c;
     _picture_mode_list_map := _picture_mode_list_map c;
     _is_forced_val := _is_forced_val c; _forced_count := _forced_count c;
     _throttle := _throttle c |}.

Definition upd_volume (v : Q) (c : client) : client :=
  {| _api_key := _api_key c; _device_id := _device_id c;
     _use_channel_info := _use_channel_info c;
     _device_name := _device_name c; _state := _state c;
     _prev_state := _prev_state c; _muted := _muted c; _volume := v;
     _source_list := _source_list c; _source_list_map := _source_list_map c;
     _source := _source c; _channel := _channel c;
     _channel_name := _channel_name c; _sound_mode := _sound_mode c;
     _sound_mode_list := _sound_mode_list c;
     _sound_mode_list_map := _sound_mode_list_map c;
     _picture_mode := _picture_mode c;
     _picture_mode_list := _picture_mode_list c;
     _picture_mode_list_map := _picture_mode_list_map c;
     _is_forced_val := _is_forced_val c; _forced_count := _forced_count c;
     _throttle := _throttle c |}.

Definition upd_source_list (v : option (list string)) (c : client) : client :=
  {| _api_key := _api_key c; _device_id := _device_id c;
     _use_channel_info := _use_channel_info c;
     _device_name := _device_name c; _state := _state c;
     _prev_state := _prev_state c; _muted := _muted c; _volume := _volume c;
     _source_list := v; _source_list_map := _source_list_map c;
     _source := _source c; _channel := _channel c;
     _channel_name := _channel_name c; _sound_mode := _sound_mode c;
     _sound_mode_list := _sound_mode_list c;
     _sound_mode_list_map := _sound_mode_list_map c;
     _picture_mode := _picture_mode c;
     _picture_mode_list := _picture_mode_list c;
     _picture_mode_list_map := _picture_mode_list_map c;
     _is_forced_val := _is_forced_val c; _forced_count := _forced_count c;
     _throttle := _throttle c |}.

Definition upd_source_list_map (v : json) (c : client) : client :=
  {| _api_key := _api_key c; _device_id := _device_id c;
     _use_channel_info := _use_channel_info c;
     _device_name := _device_name c; _state := _state c;
     _prev_state := _prev_state c; _muted := _muted c; _volume := _volume c;
     _source_list := _source_list c; _source_list_map := v;
     _source := _source c; _channel := _channel c;
     _channel_name := _channel_name c; _sound_mode := _sound_mode c;
     _sound_mode_list := _sound_mode_list c;
     _sound_mode_list_map := _sound_mode_list_map c;
     _picture_mode := _picture_mode c;
     _picture_mode_list := _picture_mode_list c;
     _picture_mode_list_map := _picture_mode_list_map c;
     _is_forced_val := _is_forced_val c; _forced_count := _forced_count c;
     _throttle := _throttle c |}.

Definition upd_source (v : json) (c : client) : client :=
  {| _api_key := _api_key c; _device_id := _device_id c;
     _use_channel_info := _use_channel_info c;
     _device_name := _device_name c; _state := _state c;
     _prev_state := _prev_state c; _muted := _muted c; _volume := _volume c;
     _source_list := _source_list c; _source_list_map := _source_list_map c;
     _source := v; _channel := _channel c; _channel_name := _channel_name c;
     _sound_mode := _sound_mode c; _sound_mode_list := _sound_mode_list c;
     _sound_mode_list_map := _sound_mode_list_map c;
     _picture_mode := _picture_mode c;
     _picture_mode_list := _picture_mode_list c;
     _picture_mode_list_map := _picture_mode_list_map c;
     _is_forced_val := _is_forced_val c; _forced_count := _forced_count c;
     _throttle := _throttle c |}.

Definition upd_channel (v : json) (c : client) : client :=
  {| _api_key := _api_key c; _device_id := _device_id c;
     _use_channel_info := _use_channel_info c;
     _device_name := _device_name c; _state := _state c;
     _prev_state := _prev_state c; _muted := _muted c; _volume := _volume c;
     _source_list := _source_list c; _source_list_map := _source_list_map c;
     _source := _source c; _channel := v; _channel_name := _channel_name c;
     _sound_mode := _sound_mode c; _sound_mode_list := _sound_mode_list c;
     _sound_mode_list_map := _sound_mode_list_map c;
     _picture_mode := _picture_mode c;
     _picture_mode_list := _picture_mode_list c;
     _picture_mode_list_map := _picture_mode_list_map c;
     _is_forced_val := _is_forced_val c; _forced_count := _forced_count c;
     _throttle := _throttle c |}.

Definition upd_channel_name (v : json) (c : client) : client :=
  {| _api_key := _api_key c; _device_id := _device_id c;
     _use_channel_info := _use_channel_info c;
     _device_name := _device_name c; _state := _state c;
     _prev_state := _prev_state c; _muted := _muted c; _volume := _volume c;
     _source_list := _source_list c; _source_list_map := _source_list_map c;
     _source := _source c; _channel := _channel c; _channel_name := v;
     _sound_mode := _sound_mode c; _sound_mode_list := _sound_mode_list c;
     _sound_mode_list_map := _sound_mode_list_map c;
     _picture_mode := _picture_mode c;
     _picture_mode_list := _picture_mode_list c;
     _picture_mode_list_map := _picture_mode_list_map c;
     _is_forced_val := _is_forced_val c; _forced_count := _forced_count c;
     _throttle := _throttle c |}.

Definition upd_sound_mode (v : json) (c : client) : client :=
  {| _api_key := _api_key c; _device_id := _device_id c;
     _use_channel_info := _use_channel_info c;
     _device_name := _device_name c; _state := _state c;
     _prev_state := _prev_state c; _muted := _muted c; _volume := _volume c;
     _source_list := _source_list c; _source_list_map := _source_list_map c;
     _source := _source c; _channel := _channel c;
     _channel_name := _channel_name c; _sound_mode := v;
     _sound_mode_list := _sound_mode_list c;
     _sound_mode_list_map := _sound_mode_list_map c;
     _picture_mode := _picture_mode c;
     _picture_mode_list := _picture_mode_list c;
     _picture_mode_list_map := _picture_mode_list_map c;
     _is_forced_val := _is_forced_val c; _forced_count := _forced_count c;
     _throttle := _throttle c |}.

Definition upd_sound_mode_list (v : json) (c : client) : client :=
  {| _api_key := _api_key c; _device_id := _device_id c;
     _use_channel_info := _use_channel_info c;
     _device_name := _device_name c; _state := _state c;
     _prev_state := _prev_state c; _muted := _muted c; _volume := _volume c;
     _source_list := _source_list c; _source_list_map := _source_list_map c;
     _source := _source c; _channel := _channel c;
     _channel_name := _channel_name c; _sound_mode := _sound_mode c;
     _sound_mode_list := v; _sound_mode_list_map := _sound_mode_list_map c;
     _picture_mode := _picture_mode c;
     _picture_mode_list := _picture_mode_list c;
     _picture_mode_list_map := _picture_mode_list_map c;
     _is_forced_val := _is_forced_val c; _forced_count := _forced_count c;
     _throttle := _throttle c |}.

Definition upd_sound_mode_list_map (v : json) (c : client) : client :=
  {| _api_key := _api_key c; _device_id := _device_id c;
     _use_channel_info := _use_channel_info c;
     _device_name := _device_name c; _state := _state c;
     _prev_state := _prev_state c; _muted := _muted c; _volume := _volume c;
     _source_list := _source_list c; _source_list_map := _source_list_map c;
     _source := _source c; _channel := _channel c;
     _channel_name := _channel_name c; _sound_mode := _sound_mode c;
     _sound_mode_list := _sound_mode_list c; _sound_mode_list_map := v;
     _picture_mode := _picture_mode c;
     _picture_mode_list := _picture_mode_list c;
     _picture_mode_list_map := _picture_mode_list_map c;
     _is_forced_val := _is_forced_val c; _forced_count := _forced_count c;
     _throttle := _throttle c |}.

Definition upd_picture_mode (v : json) (c : client) : client :=
  {| _api_key := _api_key c; _device_id := _device_id c;
     _use_channel_info := _use_channel_info c;
     _device_name := _device_name c; _state := _state c;
     _prev_state := _prev_state c; _muted := _muted c; _volume := _volume c;
     _source_list := _source_list c; _source_list_map := _source_list_map c;
     _source := _source c; _channel := _channel c;
     _channel_name := _channel_name c; _sound_mode := _sound_mode c;
     _sound_mode_list := _sound_mode_list c;
     _sound_mode_list_map := _sound_mode_list_map c; _picture_mode := v;
     _picture_mode_list := _picture_mode_list c;
     _picture_mode_list_map := _picture_mode_list_map c;
     _is_forced_val := _is_forced_val c; _forced_count := _forced_count c;
     _throttle := _throttle c |}.

Definition upd_picture_mode_list (v : json) (c : client) : client :=
  {| _api_key := _api_key c; _device_id := _device_id c;
     _use_channel_info := _use_channel_info c;
     _device_name := _device_name c; _state := _state c;
     _prev_state := _prev_state c; _muted := _muted c; _volume := _volume c;
     _source_list := _source_list c; _source_list_map := _source_list_map c;
     _source := _source c; _channel := _channel c;
     _channel_name := _channel_name c; _sound_mode := _sound_mode c;
     _sound_mode_list := _sound_mode_list c;
     _sound_mode_list_map := _sound_mode_list_map c;
     _picture_mode := _picture_mode c; _picture_mode_list := v;
     _picture_mode_list_map := _picture_mode_list_map c;
     _is_forced_val := _is_forced_val c; _forced_count := _forced_count c;
     _throttle := _throttle c |}.

Definition upd_picture_mode_list_map (v : json) (c : client) : client :=
  {| _api_key := _api_key c; _device_id := _device_id c;
     _use_channel_info := _use_channel_info c;
     _device_name := _device_name c; _state := _state c;
     _prev_state := _prev_state c; _muted := _muted c; _volume := _volume c;
     _source_list := _source_list c; _source_list_map := _source_list_map c;
     _source := _source c; _channel := _channel c;
     _channel_name := _channel_name c; _sound_mode := _sound_mode c;
     _sound_mode_list := _sound_mode_list c;
     _sound_mode_list_map := _sound_mode_list_map c;
     _picture_mode := _picture_mode c;
     _picture_mode_list := _picture_mode_list c; _picture_mode_list_map := v;
     _is_forced_val := _is_forced_val c; _forced_count := _forced_count c;
     _throttle := _throttle c |}.

Definition upd_is_forced_val (v : bool) (c : client) : client :=
  {| _api_key := _api_key c; _device_id := _device_id c;
     _use_channel_info := _use_channel_info c;
     _device_name := _device_name c; _state := _state c;
     _prev_state := _prev_state c; _muted := _muted c; _volume := _volume c;
     _source_list := _source_list c; _source_list_map := _source_list_map c;
     _source := _source c; _channel := _channel c;
     _channel_name := _channel_name c; _sound_mode := _sound_mode c;
     _sound_mode_list := _sound_mode_list c;
     _sound_mode_list_map := _sound_mode_list_map c;
     _picture_mode := _picture_mode c;
     _picture_mode_list := _picture_mode_list c;
     _picture_mode_list_map := _picture_mode_list_map c; _is_forced_val := v;
     _forced_count := _forced_count c; _throttle := _throttle c |}.

Definition upd_forced_count (v : Z) (c : client) : client :=
  {| _api_key := _api_key c; _device_id := _device_id c;
     _use_channel_info := _use_channel_info c;
     _device_name := _device_name c; _state := _state c;
     _prev_state := _prev_state c; _muted := _muted c; _volume := _volume c;
     _source_list := _source_list c; _source_list_map := _source_list_map c;
     _source := _source c; _channel := _channel c;
     _channel_name := _channel_name c; _sound_mode := _sound_mode c;
     _sound_mode_list := _sound_mode_list c;
     _sound_mode_list_map := _sound_mode_list_map c;
     _picture_mode := _picture_mode c;
     _picture_mode_list := _picture_mode_list c;
     _picture_mode_list_map := _picture_mode_list_map c;
     _is_forced_val := _is_forced_val c; _forced_count := v;
     _throttle := _throttle c |}.

Definition upd_throttle (v : option Z) (c : client) : client :=
  {| _api_key := _api_key c; _device_id := _device_id c;
     _use_channel_info := _use_channel_info c;
     _device_name := _device_name c; _state := _state c;
     _prev_state := _prev_state c; _muted := _muted c; _volume := _volume c;
     _source_list := _source_list c; _source_list_map := _source_list_map c;
     _source := _source c; _channel := _channel c;
     _channel_name := _channel_name c; _sound_mode := _sound_mode c;
     _sound_mode_list := _sound_mode_list c;
     _sound_mode_list_map := _sound_mode_list_map c;
     _picture_mode := _picture_mode c;
     _picture_mode_list := _picture_mode_list c;
     _picture_mode_list_map := _picture_mode_list_map c;
     _is_forced_val := _is_forced_val c; _forced_count := _forced_count c;
     _throttle := v |}.

(** ** The world the coroutines run in *)

Inductive request : Type :=
| Get (url : string)
| Post (url : string) (data : command_body).

(** What the session gives back: the call raises, or there is a response with
    a status and the outcome of [await resp.json()]. *)
Inductive response : Type :=
| Failed (x : exn)
| Reply (status : Z) (body : result json).

(** The peer answers the [n]-th request of the log; [utcnow] is the time of the
    call; [json_loads] ([None]: [ValueError]) and [py_int] stand for the
    library parsers [json.loads] and [int] on strings. *)
Record env : Type :=
  { server : nat -> request -> response;
    utcnow : Z;
    json_loads : string -> option json;
    py_int : string -> result Z }.

Record world : Type :=
  { self : client;
    sent : list request }.

Definition M (A : Type) : Type := env -> world -> result A * world.

Definition ret {A : Type} (a : A) : M A := fun _ w => (inr a, w).

Definition raise {A : Type} (x : exn) : M A := fun _ w => (inl x, w).

Definition bind {A B : Type} (m : M A) (k : A -> M B) : M B :=
  fun e w =>
    match m e w with
    | (inl x, w') => (inl x, w')
    | (inr a, w') => k a e w'
    end.

Declare Scope py_scope.
Delimit Scope py_scope with py.
Notation "x <- m ;; k" := (bind m (fun x => k))
  (at level 61, m at next level, right associativity) : py_scope.
Notation "m ;; k" := (bind m (fun _ => k))
  (at level 61, right associativity) : py_scope.
Local Open Scope py_scope.

Definition lift {A : Type} (r : result A) : M A :=
  match r with
  | inl x => raise x
  | inr a => ret a
  end.

Definition ask : M env := fun e w => (inr e, w).

Definition get_self : M client := fun _ w => (inr (self w), w).

Definition assign (f : client -> client) : M unit :=
  fun _ w => (inr tt, {| self := f (self w); sent := sent w |}).

(** [try: m] with the outcome handed to the [except] clauses *)
Definition try {A : Type} (m : M A) : M (result A) :=
  fun e w => let (r, w') := m e w in (inr r, w').

Definition send (r : request) : M response :=
  fun e w =>
    (inr (server e (List.length (sent w)) r),
     {| self := self w; sent := (sent w ++ [r])%list |}).

(** A request made with [raise_for_status=True], followed by
    [await resp.json()]. *)
Definition request_json (r : request) : M json :=
  resp <- send r ;;
  match resp with
  | Failed x => raise x
  | Reply status body =>
      if (400 <=? status)%Z then raise ClientResponseError else lift body
  end.

(** Modelled from the spec: the decorator [Throttle] comes from
    [homeassistant.util] and is not in the repository.  The spec describes a
    timestamp-guarded gate owned by the client instance: the method runs at
    most once per interval, and a call inside the interval is suppressed
    entirely and makes no network call.  The gate lets a call through when the
    method never ran or more than [min_time] has passed since it last did, and
    records the time of the call. *)
Definition Throttle (min_time : Z) (method : M unit) : M unit :=
  fun e w =>
    let due :=
      match _throttle (self w) with
      | None => true
      | Some last => (utcnow e - last >? min_time)%Z
      end in
    if due
    then method e {| self := upd_throttle (Some (utcnow e)) (self w);
                     sent := sent w |}
    else (inr tt, w).

(** ** Methods that only read or write the object *)

Fixpoint find_source_name (items : list json) (source_id : string)
  : result json :=
  match items with
  | [] => inr (JStr "")
  | map_value :: rest =>
      and_then (dict_get map_value "id" JNull) (fun map_id =>
        if truthy map_id && eq_str map_id source_id
        then dict_get map_value "name" (JStr "")
        else find_source_name rest source_id)
  end.

Definition get_source_name (c : client) (source_id : string) : result json :=
  if negb (truthy (_source_list_map c)) then inr (JStr "") else
  let source_id :=
    if upper source_id =? upper DIGITAL_TV then "dtv" else source_id in
  and_then (py_iter (_source_list_map c)) (fun items =>
    find_source_name items source_id).

(** The loop of [_get_source_list_from_map]; [source_list] is the list built
    so far. *)
Fixpoint collect_sources (items : list json) (source_list : list string)
  : result (list string) :=
  match items with
  | [] => inr source_list
  | map_value :: rest =>
      and_then (dict_get map_value "id" JNull) (fun source_id =>
        if truthy source_id then
          match source_id with
          | JStr s =>
              if upper s =? "DTV"
              then collect_sources rest (source_list ++ [DIGITAL_TV])%list
              else collect_sources rest (source_list ++ [s])%list
          | _ => inl AttributeError
          end
        else collect_sources rest source_list)
  end.

Definition _get_source_list_from_map (c : client) : result (list string) :=
  if negb (truthy (_source_list_map c)) then inr [] else
  and_then (py_iter (_source_list_map c)) (fun items =>
    collect_sources items []).

Definition set_application (app_id : json) (c : client) : client :=
  if _use_channel_info c then
    upd_forced_count 0%Z
      (upd_is_forced_val true
         (upd_channel_name app_id (upd_channel (JStr "") c)))
  else c.

Definition _set_source (source : string) (c : client) : client :=
  if negb (eq_str (_source c) source) then
    upd_forced_count 0%Z
      (upd_is_forced_val true
         (upd_channel_name (JStr "")
            (upd_channel (JStr "") (upd_source (JStr source) c))))
  else c.

(** [dev_data.get(name, {}).get("value", default)] *)
Definition field_value (dev_data : json) (name : string) (default : json)
  : result json :=
  and_then (dict_get dev_data name (JObj [])) (fun field =>
    dict_get field "value" default).

Definition _load_json_list (loads : string -> option json)
  (dev_data : json) (list_name : string) : result json :=
  and_then (field_value dev_data list_name JNull) (fun json_list =>
    if truthy json_list then
      match json_list with
      | JStr s =>
          match loads s with
          | Some load_list => inr load_list
          | None => inr (JArr [])
          end
      | _ => inr (JArr [])
      end
    else inr (JArr [])).

(** ** Coroutines *)

Definition _device_refresh_body : M unit :=
  c <- get_self ;;
  let device_id := _device_id c in
  if device_id =? "" then ret tt else
  let api_device := API_DEVICES ++ "/" ++ device_id in
  let api_command := api_device ++ "/commands" in
  if _use_channel_info c then
    resp <- send (Post api_command (_command COMMAND_REFRESH None)) ;;
    match resp with
    | Failed x => raise x
    | Reply status body =>
        if (status =? 409)%Z then assign (upd_state STATE_OFF)
        else if (400 <=? status)%Z then raise ClientResponseError
        else _ <- lift body ;; ret tt
    end
  else ret tt.

Definition _device_refresh : M unit :=
  Throttle MIN_TIME_BETWEEN_UPDATES _device_refresh_body.

Definition _async_send_command (data_cmd : option command_body) : M unit :=
  c <- get_self ;;
  let device_id := _device_id c in
  if device_id =? "" then ret tt else
  match data_cmd with
  | None => ret tt
  | Some data =>
      let api_device := API_DEVICES ++ "/" ++ device_id in
      let api_command := api_device ++ "/commands" in
      _ <- request_json (Post api_command data) ;;
      _device_refresh
  end.

Definition async_device_health : M bool :=
  c <- get_self ;;
  let device_id := _device_id c in
  if device_id =? "" then ret false else
  let api_device := API_DEVICES ++ "/" ++ device_id in
  let api_device_health := api_device ++ "/health" in
  health <- request_json (Get api_device_health) ;;
  state <- lift (subscript health "state") ;;
  ret (eq_str state "ONLINE").

Definition is_transport_failure (x : exn) : bool :=
  match x with
  | AsyncTimeoutError | ClientConnectionError | ClientResponseError => true
  | _ => false
  end.

(** [async_device_update], lines 429-468: everything up to and including the
    GET of the state document.  [None] is one of the early [return]s. *)
Definition fetch_states (use_channel_info : option bool) : M (option json) :=
  c <- get_self ;;
  let device_id := _device_id c in
  if device_id =? "" then ret None else
  _ <- match use_channel_info with
       | Some flag => assign (upd_use_channel_info flag)
       | None => ret tt
       end ;;
  let api_device := API_DEVICES ++ "/" ++ device_id in
  let api_device_status := api_device ++ "/states" in
  assign (fun c => upd_prev_state (_state c) c) ;;
  is_online <- try async_device_health ;;
  match is_online with
  | inl x =>
      if is_transport_failure x
      then assign (upd_state STATE_UNKNOWN) ;; ret None
      else raise x
  | inr true =>
      assign (upd_state STATE_ON) ;;
      _device_refresh ;;
      c <- get_self ;;
      if STStatus_eqb (_state c) STATE_OFF then ret None else
      data <- request_json (Get api_device_status) ;;
      ret (Some data)
  | inr false => assign (upd_state STATE_OFF) ;; ret None
  end.

(** Half a unit in the last place beyond the largest float: a real number
    rounds to a float when its magnitude is below this. *)
Definition FLOAT_LIMIT : Z := 2 ^ 1024 - 2 ^ 970.

(** [level / 100] on an int: the true division of Python gives the float
    nearest to this rational, and raises [OverflowError] when the quotient
    is beyond the floats. *)
Definition volume_fraction (level : Z) : result Q :=
  if (100 * FLOAT_LIMIT <=? Z.abs level)%Z then inl OverflowError
  else inr (level # 100)%Q.

(** [async_device_update], lines 475-480: the volume.  What [int] makes of the
    digits is [py_int]: it raises [ValueError] on a superscript digit and on
    more digits than the interpreter is set to convert. *)
Definition store_volume (dev_data : json) : M unit :=
  device_volume <- lift (field_value dev_data "volume" (JInt 0)) ;;
  if truthy device_volume then
    match device_volume with
    | JStr s =>
        if isdigit s then
          e <- ask ;;
          level <- lift (py_int e s) ;;
          volume <- lift (volume_fraction level) ;;
          assign (upd_volume volume)
        else assign (upd_volume 0%Q)
    | _ => raise AttributeError
    end
  else assign (upd_volume 0%Q).

(** [async_device_update], lines 482-494: mute, sound mode and picture
    mode. *)
Definition store_modes (dev_data : json) : M unit :=
  e <- ask ;;
  device_muted <- lift (field_value dev_data "mute" (JStr "")) ;;
  assign (upd_muted (eq_str device_muted "mute")) ;;
  sound_mode <- lift (field_value dev_data "soundMode" JNull) ;;
  assign (upd_sound_mode sound_mode) ;;
  sound_mode_list <-
    lift (_load_json_list (json_loads e) dev_data "supportedSoundModes") ;;
  assign (upd_sound_mode_list sound_mode_list) ;;
  sound_mode_list_map <-
    lift (_load_json_list (json_loads e) dev_data "supportedSoundModesMap") ;;
  assign (upd_sound_mode_list_map sound_mode_list_map) ;;
  picture_mode <- lift (field_value dev_data "pictureMode" JNull) ;;
  assign (upd_picture_mode picture_mode) ;;
  picture_mode_list <-
    lift (_load_json_list (json_loads e) dev_data "supportedPictureModes") ;;
  assign (upd_picture_mode_list picture_mode_list) ;;
  picture_mode_list_map <-
    lift (_load_json_list (json_loads e) dev_data "supportedPictureModesMap") ;;
  assign (upd_picture_mode_list_map picture_mode_list_map).

(** [async_device_update], lines 496-501: the source map and the source list
    computed from it. *)
Definition store_sources (dev_data : json) : M unit :=
  e <- ask ;;
  source_list_map <-
    lift (_load_json_list (json_loads e) dev_data "supportedInputSourcesMap") ;;
  assign (upd_source_list_map source_list_map) ;;
  c <- get_self ;;
  source_list <- lift (_get_source_list_from_map c) ;;
  assign (upd_source_list (Some source_list)).

(** [async_device_update], lines 472-501: what the document reports is stored.
    Returns [dev_data]. *)
Definition store_status (data : json) : M json :=
  dev_data <- lift (dict_get data "main" (JObj [])) ;;
  store_volume dev_data ;;
  store_modes dev_data ;;
  store_sources dev_data ;;
  ret dev_data.

(** The source as it is stored: a report that reads "digitalTv" in any
    capitalization becomes the constant. *)
Definition normalize_source (device_source : json) : result json :=
  if truthy device_source then
    match device_source with
    | JStr s =>
        if upper s =? upper DIGITAL_TV then inr (JStr DIGITAL_TV)
        else inr device_source
    | _ => inl AttributeError
    end
  else inr device_source.

(** [async_device_update], lines 503-523: the hold after a local change, then
    source and channel as reported. *)
Definition adopt_reported (dev_data : json) : M unit :=
  c <- get_self ;;
  if _is_forced_val c && (_forced_count c <=? 0)%Z then
    assign (fun c => upd_forced_count (_forced_count c + 1)%Z c)
  else
    assign (upd_is_forced_val false) ;;
    assign (upd_forced_count 0%Z) ;;
    device_source <- lift (field_value dev_data "inputSource" (JStr "")) ;;
    device_tv_chan <- lift (field_value dev_data "tvChannel" (JStr "")) ;;
    device_tv_chan_name <-
      lift (field_value dev_data "tvChannelName" (JStr "")) ;;
    device_source <- lift (normalize_source device_source) ;;
    assign (upd_source device_source) ;;
    c <- get_self ;;
    if _use_channel_info c then
      assign (upd_channel device_tv_chan) ;;
      assign (upd_channel_name device_tv_chan_name)
    else
      assign (upd_channel (JStr "")) ;;
      assign (upd_channel_name (JStr "")).

Definition async_device_update (use_channel_info : option bool) : M unit :=
  fetched <- fetch_states use_channel_info ;;
  match fetched with
  | None => ret tt
  | Some data =>
      dev_data <- store_status data ;;
      adopt_reported dev_data
  end.

Definition async_turn_off : M unit :=
  _async_send_command (Some (_command COMMAND_POWER_OFF None)).

Definition async_turn_on : M unit :=
  _async_send_command (Some (_command COMMAND_POWER_ON None)).

Definition async_send_command (cmd_type command : string) : M unit :=
  if cmd_type =? "setvolume" then
    e <- ask ;;
    level <- lift (py_int e command) ;;
    _async_send_command (Some (_command COMMAND_SET_VOLUME (Some [JInt level])))
  else if cmd_type =? "stepvolume" then
    _async_send_command
      (if command =? "up" then Some (_command COMMAND_VOLUME_UP None)
       else if command =? "down" then Some (_command COMMAND_VOLUME_DOWN None)
       else None)
  else if cmd_type =? "audiomute" then
    _async_send_command
      (if command =? "on" then Some (_command COMMAND_MUTE None)
       else if command =? "off" then Some (_command COMMAND_UNMUTE None)
       else None)
  else if cmd_type =? "selectchannel" then
    _async_send_command
      (Some (_command COMMAND_SET_CHANNEL (Some [JStr command])))
  else if cmd_type =? "stepchannel" then
    _async_send_command
      (if command =? "up" then Some (_command COMMAND_CHANNEL_UP None)
       else if command =? "down" then Some (_command COMMAND_CHANNEL_DOWN None)
       else None)
  else ret tt.

Definition async_select_source (source : string) : M unit :=
  let data_cmd := _command COMMAND_SET_SOURCE (Some [JStr source]) in
  assign (_set_source source) ;;
  _async_send_command (Some data_cmd).

Definition async_select_vd_source (source : string) : M unit :=
  _async_send_command
    (Some (_command COMMAND_SET_VD_SOURCE (Some [JStr source]))).

(** The loop that looks a mode name up in a list-map; [JNull] is the [None]
    that [mode_id] starts with. *)
Fixpoint find_mode_id (items : list json) (mode : string) : result json :=
  match items with
  | [] => inr JNull
  | item :: rest =>
      and_then (dict_get item "name" JNull) (fun name =>
        if eq_str name mode then dict_get item "id" JNull
        else find_mode_id rest mode)
  end.

Definition async_set_sound_mode (mode : string) : M unit :=
  c <- get_self ;;
  if negb (STStatus_eqb (_state c) STATE_ON) then ret tt else
  items <- lift (py_iter (_sound_mode_list_map c)) ;;
  mode_id <- lift (find_mode_id items mode) ;;
  match mode_id with
  | JNull => raise InvalidSmartThingsSoundMode
  | _ =>
      _async_send_command (Some (_command COMMAND_SOUND_MODE (Some [mode_id]))) ;;
      assign (upd_sound_mode (JStr mode))
  end.

Definition async_set_picture_mode (mode : string) : M unit :=
  c <- get_self ;;
  if negb (STStatus_eqb (_state c) STATE_ON) then ret tt else
  items <- lift (py_iter (_picture_mode_list_map c)) ;;
  mode_id <- lift (find_mode_id items mode) ;;
  match mode_id with
  | JNull => raise InvalidSmartThingsPictureMode
  | _ =>
      _async_send_command
        (Some (_command COMMAND_PICTURE_MODE (Some [mode_id]))) ;;
      assign (upd_picture_mode (JStr mode))
  end.

(** ** Calls on a client *)

(** The command methods. *)
Inductive command_call : Type :=
| TurnOff
| TurnOn
| SendCommand (cmd_type command : string)
| SelectSource (source : string)
| SelectVdSource (source : string)
| SetSoundMode (mode : string)
| SetPictureMode (mode : string).

Definition run_command (k : command_call) : M unit :=
  match k with
  | TurnOff => async_turn_off
  | TurnOn => async_turn_on
  | SendCommand cmd_type command => async_send_command cmd_type command
  | SelectSource source => async_select_source source
  | SelectVdSource source => async_select_vd_source source
  | SetSoundMode mode => async_set_sound_mode mode
  | SetPictureMode mode => async_set_picture_mode mode
  end.

(** Everything a caller can do with a client once it is built. *)
Inductive call : Type :=
| Update (use_channel_info : option bool)
| Health
| SetApplication (app_id : json)
| Command (k : command_call).

Definition run (k : call) : M unit :=
  match k with
  | Update use_channel_info => async_device_update use_channel_info
  | Health => _ <- async_device_health ;; ret tt
  | SetApplication app_id => assign (set_application app_id)
  | Command k => run_command k
  end.

(** ** A television to run the model on *)

Definition online : json := JObj [("state", JStr "ONLINE")].

Definition hdmi_sources : json :=
  JArr [JObj [("id", JStr "dtv"); ("name", JStr "TV")];
        JObj [("id", JStr "HDMI1"); ("name", JStr "PlayStation")]].

Definition sound_modes : json :=
  JArr [JObj [("id", JStr "1"); ("name", JStr "Standard")];
        JObj [("id", JStr "2"); ("name", JStr "Amplify")]].

(** A decoder for the encoded lists of the sample documents; every other text
    fails to decode. *)
Definition sample_loads (s : string) : option json :=
  if s =? "sources" then Some hdmi_sources
  else if s =? "sound modes" then Some sound_modes
  else None.

(** [int] on the texts of the samples: it reads a string of decimal digits,
    up to the 4300 digits that the interpreter converts by default, and refuses
    every other text. *)
Definition sample_int (s : string) : result Z :=
  if isdecimal s && (String.length s <=? 4300)%nat
  then inr (int_of_digits s)
  else inl ValueError.

Definition valued (v : json) : json := JObj [("value", v)].

(** A state document. *)
Definition report (volume source channel channel_name : string) : json :=
  JObj [("main",
         JObj [("volume", valued (JStr volume));
               ("mute", valued (JStr "unmuted"));
               ("supportedSoundModesMap", valued (JStr "sound modes"));
               ("supportedInputSourcesMap", valued (JStr "sources"));
               ("inputSource", valued (JStr source));
               ("tvChannel", valued (JStr channel));
               ("tvChannelName", valued (JStr channel_name))])].

(** A peer on which the device is online, every command is accepted and the
    state document is [doc]. *)
Definition peer (device_id : string) (doc : json) : nat -> request -> response :=
  fun _ r =>
    match r with
    | Get url =>
        if url =? API_DEVICES ++ "/" ++ device_id ++ "/health"
        then Reply 200 (inr online)
        else if url =? API_DEVICES ++ "/" ++ device_id ++ "/states"
        then Reply 200 (inr doc)
        else Reply 404 (inr JNull)
    | Post _ _ => Reply 200 (inr (JObj []))
    end.

Definition sample_env (doc : json) (now : Z) : env :=
  {| server := peer "tv1" doc;
     utcnow := now;
     json_loads := sample_loads;
     py_int := sample_int |}.

Definition fresh (c : client) : world := {| self := c; sent := [] |}.

Definition tv : client := __init__ "key" "tv1" true.

(** ** Vocabulary of the statements *)

(** Whatever the outcome of [m], the world it leaves is related by [R] to the
    world it started in. *)
Definition keeps (R : env -> world -> world -> Prop) {A : Type} (m : M A)
  : Prop :=
  forall e w, R e w (snd (m e w)).

(** Relations that compose along the steps of a computation. *)
Class Stepwise (R : env -> world -> world -> Prop) : Prop :=
  { stay : forall e w, R e w w;
    chain : forall e w1 w2 w3, R e w1 w2 -> R e w2 w3 -> R e w1 w3 }.

(** What [f] reads from the client has not changed. *)
Definition same {T : Type} (f : client -> T) : env -> world -> world -> Prop :=
  fun _ w w' => f (self w') = f (self w).

(** The log has only grown, and by requests that satisfy [p]. *)
Definition sends_only (p : request -> bool) : env -> world -> world -> Prop :=
  fun _ w w' => exists l, sent w' = (sent w ++ l)%list /\ forallb p l = true.

Definition is_post (r : request) : bool :=
  match r with
  | Post _ _ => true
  | Get _ => false
  end.

(** The lookup of [get_source_name] goes past [item] when it searches for
    [source_id]: the entry is a dict whose id is empty or another string. *)
Definition passes_over (source_id : string) (item : json) : bool :=
  match dict_get item "id" JNull with
  | inr map_id => negb (truthy map_id && eq_str map_id source_id)
  | inl _ => false
  end.

(** The name under which an id of the source map is listed. *)
Definition listed_as (source_id : string) : string :=
  if upper source_id =? "DTV" then DIGITAL_TV else source_id.

(** An entry of a list-map as the service documents it: a dict whose id, when
    it has one, is a string. *)
Definition entry_ok (item : json) : bool :=
  match dict_get item "id" JNull with
  | inr (JStr _) | inr JNull => true
  | _ => false
  end.

Definition uppercase_sources : json :=
  JArr [JObj [("id", JStr "DTV"); ("name", JStr "TV")];
        JObj [("id", JStr "HDMI1"); ("name", JStr "PlayStation")]].

(** [Q] holds of the outcome of [m] and of the world it leaves. *)
Definition post {A : Type} (m : M A) (e : env) (w : world)
  (Q : result A -> world -> Prop) : Prop :=
  Q (fst (m e w)) (snd (m e w)).

(** The document has no volume to report: the field, or its value, is
    missing. *)
Definition volume_absent (dev_data : json) : bool :=
  match dev_data with
  | JObj fields =>
      match lookup "volume" fields with
      | None => true
      | Some (JObj field) =>
          match lookup "value" field with None => true | Some _ => false end
      | Some _ => false
      end
  | _ => false
  end.

Definition living_room : json := report "25" "HDMI2" "5" "BBC".

(** The [main] component of [living_room]. *)
Definition living_room_main : json :=
  match living_room with
  | JObj [(_, dev_data)] => dev_data
  | _ => JNull
  end.

(** A device that reports more than a percentage. *)
Definition loud_room : json := report "150" "HDMI2" "5" "BBC".

(** A string of [n] nines. *)
Fixpoint nines (n : nat) : string :=
  match n with
  | O => EmptyString
  | S n' => String "9" (nines n')
  end.

(** The superscript two. *)
Definition superscript_two : string := String (ascii_of_nat 178) EmptyString.

(** [int(v) / 100]: what the volume step computes from a string of digits. *)
Definition fraction_of (e : env) (v : string) : result Q :=
  and_then (py_int e v) volume_fraction.

(** The cached volume is the 10 the constructor stores, or a fraction. *)
Definition volume_in_range (c : client) : Prop :=
  _volume c = 10%Q \/ (0 <= _volume c <= 1)%Q.

(** Every state document the peer serves reports, when it reports a string of
    digits for the volume, a percentage: what [int] reads in it lies between 0
    and 100. *)
Definition reports_percentages (e : env) : Prop :=
  forall n url status data dev_data v level,
    server e n (Get url) = Reply status (inr data) ->
    dict_get data "main" (JObj []) = inr dev_data ->
    field_value dev_data "volume" (JInt 0) = inr (JStr v) ->
    isdigit v = true ->
    py_int e v = inr level ->
    (0 <= level <= 100)%Z.

(** The worlds a client can be in: it is built, then called any number of
    times, each call in an environment that satisfies [ok]. *)
Inductive reachable (ok : env -> Prop) : world -> Prop :=
| reach_init (api_key device_id : string) (use_channel_info : bool) :
    reachable ok (fresh (__init__ api_key device_id use_channel_info))
| reach_call (w : world) (k : call) (e : env) :
    reachable ok w -> ok e -> reachable ok (snd (run k e w)).

(** What the client caches about the device, the two states apart. *)
Definition telemetry (c : client) :=
  (_volume c, _muted c, _source c, _channel c, _channel_name c,
   (_source_list c, _source_list_map c),
   (_sound_mode c, _sound_mode_list c, _sound_mode_list_map c),
   (_picture_mode c, _picture_mode_list c, _picture_mode_list_map c)).

(** The latch that holds a local change of source for one poll. *)
Definition hold (c : client) := (_is_forced_val c, _forced_count c).

(** A peer that cannot be reached. *)
Definition unreachable : nat -> request -> response :=
  fun _ _ => Failed ClientConnectionError.

(** [item] is an entry of a list-map whose name is not [mode]. *)
Definition name_differs (mode : string) (item : json) : bool :=
  match dict_get item "name" JNull with
  | inr name => negb (eq_str name mode)
  | inl _ => false
  end.

(** The sample television after a first update: it is on. *)
Definition tv_on : world :=
  snd (async_device_update None (sample_env living_room 0) (fresh tv)).

(** The cached source list is the one computed from the cached source map. *)
Definition derived_from_map (c : client) : Prop :=
  exists source_list,
    _source_list c = Some source_list
    /\ _get_source_list_from_map c = inr source_list.

Definition any_request (r : request) : bool := true.

(** The endpoint the commands of a device are posted to. *)
Definition api_command (device_id : string) : string :=
  (API_DEVICES ++ "/" ++ device_id) ++ "/commands".

(** What an update does not touch before it looks at the hold latch. *)
Definition local_choice (c : client) :=
  (_source c, _channel c, _channel_name c, hold c).


(** The client holds the source, the channel and the channel name that the
    state document [data] reports: the source with "digitalTv" in its
    constant spelling; channel and channel name as reported when the client
    uses channel information, empty otherwise. *)
Definition adopted (data : json) (c : client) : Prop :=
  exists dev_data device_source device_tv_chan device_tv_chan_name,
    dict_get data "main" (JObj []) = inr dev_data
    /\ field_value dev_data "inputSource" (JStr "") = inr device_source
    /\ field_value dev_data "tvChannel" (JStr "") = inr device_tv_chan
    /\ field_value dev_data "tvChannelName" (JStr "") = inr device_tv_chan_name
    /\ normalize_source device_source = inr (_source c)
    /\ _channel c = (if _use_channel_info c then device_tv_chan else JStr "")
    /\ _channel_name c
       = (if _use_channel_info c then device_tv_chan_name else JStr "").

(** A client that does not use channel information. *)
Definition tv_without_channels : client := __init__ "key" "tv1" false.

(** A request that triggers a refresh on the service. *)
Definition is_refresh_trigger (r : request) : bool :=
  match r with
  | Post _ data => capability (base data) =? "refresh"
  | Get _ => false
  end.

Definition refresh_triggers (l : list request) : nat :=
  List.length (filter is_refresh_trigger l).

(** The gate of [_device_refresh] would let a call through now. *)
Definition due (e : env) (c : client) : bool :=
  match _throttle c with
  | None => true
  | Some last => (utcnow e - last >? MIN_TIME_BETWEEN_UPDATES)%Z
  end.

(** What a computation may do about refresh triggers: send none and leave the
    gate as it is, or, if the gate was open, send at most one and leave the
    gate closed at the time of the call. *)
Definition throttled : env -> world -> world -> Prop :=
  fun e w w' =>
    exists l,
      sent w' = (sent w ++ l)%list
      /\ ((refresh_triggers l = 0%nat
           /\ _throttle (self w') = _throttle (self w))
          \/ ((refresh_triggers l <= 1)%nat
              /\ due e (self w) = true
              /\ _throttle (self w') = Some (utcnow e))).

(** What only a poll of the device stores. *)
Definition polled (c : client) :=
  (_volume c, _muted c, _prev_state c,
   (_source_list c, _source_list_map c),
   (_sound_mode_list c, _sound_mode_list_map c),
   (_picture_mode_list c, _picture_mode_list_map c)).

(** What the device reports some time after the first update. *)
Definition living_room_later : json := report "40" "HDMI3" "7" "CNN".

(** ** The properties that depend on the state *)

Definition sound_mode (c : client) : json :=
  if negb (STStatus_eqb (_state c) STATE_ON) then JNull else _sound_mode c.

Definition sound_mode_list (c : client) : json :=
  if negb (STStatus_eqb (_state c) STATE_ON) then JNull
  else _sound_mode_list c.

Definition picture_mode (c : client) : json :=
  if negb (STStatus_eqb (_state c) STATE_ON) then JNull else _picture_mode c.

Definition picture_mode_list (c : client) : json :=
  if negb (STStatus_eqb (_state c) STATE_ON) then JNull
  else _picture_mode_list c.

(** ** Discovery *)

From Stdlib Require DecimalString.

Definition DEVICE_TYPE_OCF : string := "OCF".
Definition DEVICE_TYPE_NAME_TV : string := "Samsung OCF TV".

(** The values of a JSON document that can be keys of a dict. *)
Inductive dict_key : Type :=
| KStr (s : string)
| KInt (n : Z)
| KBool (b : bool).

(** [None]: the value is [None], or it is a list or a dict, which cannot be
    hashed. *)
Definition key_of (v : json) : option dict_key :=
  match v with
  | JStr s => Some (KStr s)
  | JInt n => Some (KInt n)
  | JBool b => Some (KBool b)
  | _ => None
  end.

(** What decides whether two keys are the same key: the string, or the number
    ([True] is 1 and [False] is 0). *)
Definition key_class (k : dict_key) : string + Z :=
  match k with
  | KStr s => inl s
  | KInt n => inr n
  | KBool b => inr (if b then 1 else 0)%Z
  end.

Definition key_eqb (k1 k2 : dict_key) : bool :=
  match key_class k1, key_class k2 with
  | inl s1, inl s2 => s1 =? s2
  | inr n1, inr n2 => (n1 =? n2)%Z
  | _, _ => false
  end.

(** [str(k)] *)
Definition key_str (k : dict_key) : string :=
  match k with
  | KStr s => s
  | KInt n => DecimalString.NilZero.string_of_int (Z.to_int n)
  | KBool b => if b then "True" else "False"
  end.

(** The dict [{"name": ..., "label": ...}] kept for a device. *)
Record device_info : Type :=
  { info_name : json; info_label : json }.

(** [d[k] = v]: the value of an equal key is replaced where it is, a new key
    goes to the end. *)
Fixpoint dict_set (k : dict_key) (v : device_info)
  (d : list (dict_key * device_info)) : list (dict_key * device_info) :=
  match d with
  | [] => [(k, v)]
  | (k', v') :: rest =>
      if key_eqb k' k then (k', v) :: rest else (k', v') :: dict_set k v rest
  end.

(** The loop of [get_devices_list] over the items of the listing; [found] is
    the dict built so far. *)
Fixpoint collect_devices (device_label : string) (listing : list json)
  (found : list (dict_key * device_info))
  : result (list (dict_key * device_info)) :=
  match listing with
  | [] => inr found
  | dev :: rest =>
      and_then (dict_get dev "deviceId" JNull) (fun device_id =>
        match device_id with
        | JNull => collect_devices device_label rest found
        | _ =>
            and_then (dict_get dev "type" (JStr "")) (fun type =>
              if negb (eq_str type DEVICE_TYPE_OCF)
              then collect_devices device_label rest found
              else
                and_then (dict_get dev "label" (JStr "")) (fun label =>
                  and_then
                    (if negb (device_label =? "")
                     then inr (negb (eq_str label device_label))
                     else
                       and_then (dict_get dev "deviceTypeName" (JStr ""))
                         (fun type_name =>
                            inr (negb (eq_str type_name DEVICE_TYPE_NAME_TV))))
                    (fun skip : bool =>
                       if skip then collect_devices device_label rest found
                       else
                         match key_of device_id with
                         | None => inl TypeError
                         | Some k =>
                             and_then
                               (dict_get dev "name"
                                  (JStr ("TV ID " ++ key_str k)))
                               (fun name =>
                                  collect_devices device_label rest
                                    (dict_set k
                                       {| info_name := name;
                                          info_label := label |}
                                       found))
                         end)))
        end)
  end.

Definition get_devices_list (api_key device_label : string)
  : M (list (dict_key * device_info)) :=
  device_list <- request_json (Get API_DEVICES) ;;
  if truthy device_list then
    listing <- lift (dict_get device_list "items" (JArr [])) ;;
    devices <- lift (py_iter listing) ;;
    lift (collect_devices device_label devices [])
  else ret [].

(** The [deviceId] of an item of the listing. *)
Definition device_id_of (dev : json) : json :=
  match dict_get dev "deviceId" JNull with
  | inr device_id => device_id
  | inl _ => JNull
  end.

Definition field_or (dev : json) (k : string) (default : json) : json :=
  match dict_get dev k default with
  | inr v => v
  | inl _ => default
  end.

(** The devices the discovery is after: they have a device id, their type is
    OCF and, when a label is asked for, this is their label; when none is,
    their device type name is that of a Samsung television. *)
Definition accepts (device_label : string) (dev : json) : bool :=
  match device_id_of dev with JNull => false | _ => true end
  && eq_str (field_or dev "type" (JStr "")) "OCF"
  && (if device_label =? ""
      then eq_str (field_or dev "deviceTypeName" (JStr "")) "Samsung OCF TV"
      else eq_str (field_or dev "label" (JStr "")) device_label).

(** What is kept of an accepted device whose id is the key [k]. *)
Definition info_of (dev : json) (k : dict_key) : device_info :=
  {| info_name := field_or dev "name" (JStr ("TV ID " ++ key_str k));
     info_label := field_or dev "label" (JStr "") |}.

Definition is_dict (v : json) : bool :=
  match v with
  | JObj _ => true
  | _ => false
  end.

(** No two entries of the dict have the same key. *)
Fixpoint distinct_keys (d : list (dict_key * device_info)) : bool :=
  match d with
  | [] => true
  | (k, _) :: rest =>
      negb (existsb (fun entry => key_eqb (fst entry) k) rest)
      && distinct_keys rest
  end.

(** A listing of three devices: a television, a fridge, and the television
    again under another label. *)
Definition home_listing : json :=
  JObj [("items",
         JArr [JObj [("deviceId", JStr "tv1"); ("type", JStr "OCF");
                     ("deviceTypeName", JStr "Samsung OCF TV");
                     ("label", JStr "Living room")];
               JObj [("deviceId", JStr "fridge"); ("type", JStr "OCF");
                     ("deviceTypeName", JStr "Samsung OCF Fridge");
                     ("name", JStr "Fridge"); ("label", JStr "Kitchen")];
               JObj [("deviceId", JStr "tv1"); ("type", JStr "OCF");
                     ("deviceTypeName", JStr "Samsung OCF TV");
                     ("name", JStr "The Frame"); ("label", JStr "Den")]])].

(** The items of [home_listing]. *)
Definition home_devices : list json :=
  match home_listing with
  | JObj [(_, JArr devices)] => devices
  | _ => []
  end.

(** A peer that answers the listing of the devices with [listing]. *)
Definition hub (listing : json) : nat -> request -> response :=
  fun _ r =>
    match r with
    | Get url =>
        if url =? API_DEVICES then Reply 200 (inr listing)
        else Reply 404 (inr JNull)
    | Post _ _ => Reply 405 (inr JNull)
    end.

Definition hub_env (listing : json) : env :=
  {| server := hub listing;
     utcnow := 0;
     json_loads := sample_loads;
     py_int := sample_int |}.

(** The listing request of a discovery started in [w] is answered with a
    document whose items are [devices]. *)
Definition lists_devices (e : env) (w : world) (devices : list json) : Prop :=
  exists status device_list listing,
    server e (List.length (sent w)) (Get API_DEVICES)
    = Reply status (inr device_list)
    /\ (status < 400)%Z
    /\ truthy device_list = true
    /\ dict_get device_list "items" (JArr []) = inr listing
    /\ py_iter listing = inr devices.

(** An item the discovery can handle: a dict whose id, if any, can be a key. *)
Definition device_ok (dev : json) : bool :=
  is_dict dev
  && match device_id_of dev with
     | JArr _ | JObj _ => false
     | _ => true
     end.

(** What the discovery finds in [home_listing] when no label is asked for. *)
Definition home_televisions : list (dict_key * device_info) :=
  [(KStr "tv1", {| info_name := JStr "The Frame"; info_label := JStr "Den" |})].

(** The endpoints of a device. *)
Definition api_device_health (device_id : string) : string :=
  (API_DEVICES ++ "/" ++ device_id) ++ "/health".

Definition api_device_status (device_id : string) : string :=
  (API_DEVICES ++ "/" ++ device_id) ++ "/states".

(** The flag an update works with: its argument when it has one. *)
Definition channel_info_for (use_channel_info : option bool) (c : client)
  : bool :=
  match use_channel_info with
  | Some flag => flag
  | None => _use_channel_info c
  end.

(** A peer on which the device is registered but not online. *)
Definition asleep : nat -> request -> response :=
  fun _ r =>
    match r with
    | Get _ => Reply 200 (inr (JObj [("state", JStr "OFFLINE")]))
    | Post _ _ => Reply 200 (inr (JObj []))
    end.

(** A peer on which the device is online but answers the refresh trigger
    with 409. *)
Definition standby : nat -> request -> response :=
  fun _ r =>
    match r with
    | Get _ => Reply 200 (inr online)
    | Post _ _ => Reply 409 (inr (JObj []))
    end.

Definition env_of (peer : nat -> request -> response) (now : Z) : env :=
  {| server := peer;
     utcnow := now;
     json_loads := sample_loads;
     py_int := sample_int |}.

Definition is_get (r : request) : bool :=
  match r with
  | Get _ => true
  | Post _ _ => false
  end.

(** On a client without device id nothing is sent. *)
Definition silent : env -> world -> world -> Prop :=
  fun _ w w' =>
    _device_id (self w) = "" ->
    sent w' = sent w /\ _device_id (self w') = "".

(** On a client that does not use channel information only GET requests are
    sent. *)
Definition polls_only : env -> world -> world -> Prop :=
  fun _ w w' =>
    _use_channel_info (self w) = false ->
    (exists l, sent w' = (sent w ++ l)%list /\ forallb is_get l = true)
    /\ _use_channel_info (self w') = false.

(** A client that was given no device id. *)
Definition unconfigured : client := __init__ "key" "" true.

(** The three positions of the hold latch: idle, armed, one poll counted. *)
Definition latch_ok (c : client) : Prop :=
  hold c = (false, 0%Z) \/ hold c = (true, 0%Z) \/ hold c = (true, 1%Z).

Definition latched : env -> world -> world -> Prop :=
  fun _ w w' => latch_ok (self w) -> latch_ok (self w').

Definition anything (e : env) : Prop := True.

(** The non-empty string ids of the entries of a source map, in order. *)
Definition entry_ids (entries : list json) : list string :=
  flat_map
    (fun item =>
       match dict_get item "id" JNull with
       | inr (JStr s) => if s =? "" then [] else [s]
       | _ => []
       end)
    entries.

(** The television with a sound mode selected. *)
Definition amplified : world :=
  snd (async_set_sound_mode "Amplify" (sample_env living_room 1000) tv_on).

(** A television whose picture modes are known. *)
Definition tv_with_pictures : world :=
  {| self := upd_picture_mode_list_map
               (JArr [JObj [("id", JStr "p1"); ("name", JStr "Movie")]])
               (self tv_on);
     sent := sent tv_on |}.

(** The client holds what [dev_data] reports about mute and modes, the encoded
    lists decoded with [loads]. *)
Definition modes_stored (loads : string -> option json) (dev_data : json)
  (c : client) : Prop :=
  (exists device_muted,
      field_value dev_data "mute" (JStr "") = inr device_muted
      /\ _muted c = eq_str device_muted "mute")
  /\ field_value dev_data "soundMode" JNull = inr (_sound_mode c)
  /\ _load_json_list loads dev_data "supportedSoundModes"
     = inr (_sound_mode_list c)
  /\ _load_json_list loads dev_data "supportedSoundModesMap"
     = inr (_sound_mode_list_map c)
  /\ field_value dev_data "pictureMode" JNull = inr (_picture_mode c)
  /\ _load_json_list loads dev_data "supportedPictureModes"
     = inr (_picture_mode_list c)
  /\ _load_json_list loads dev_data "supportedPictureModesMap"
     = inr (_picture_mode_list_map c)
  /\ _load_json_list loads dev_data "supportedInputSourcesMap"
     = inr (_source_list_map c).

(** A peer on which the device is online but the refresh trigger is refused
    with status 500. *)
Definition broken : nat -> request -> response :=
  fun _ r =>
    match r with
    | Get _ => Reply 200 (inr online)
    | Post _ _ => Reply 500 (inr (JObj []))
    end.

(** The exception a request made with [raise_for_status=True] and read with
    [resp.json()] ends in, if any. *)
Definition refused (answer : response) : option exn :=
  match answer with
  | Failed x => Some x
  | Reply status body =>
      if (400 <=? status)%Z then Some ClientResponseError
      else match body with
           | inl x => Some x
           | inr _ => None
           end
  end.

(** The same for the refresh trigger, which is sent with
    [raise_for_status=False] and treats status 409 apart. *)
Definition trigger_refused (answer : response) : option exn :=
  if match answer with
     | Reply status _ => (status =? 409)%Z
     | Failed _ => false
     end
  then None
  else refused answer.

(** A peer that answers the health check only. *)
Definition deaf : nat -> request -> response :=
  fun _ r =>
    match r with
    | Get url =>
        if url =? api_device_health "tv1" then Reply 200 (inr online)
        else Failed AsyncTimeoutError
    | Post _ _ => Failed AsyncTimeoutError
    end.

(** The television with a picture mode selected. *)
Definition cinema : world :=
  snd (async_set_picture_mode "Movie" (sample_env living_room 1000)
         tv_with_pictures).

(** The refresh trigger was answered with status 409. *)
Definition is_conflict (answer : response) : bool :=
  match answer with
  | Reply status _ => (status =? 409)%Z
  | Failed _ => false
  end.

(** The payload of the command methods that post whatever the client holds. *)
Definition plain_payload (k : command_call) : option command_body :=
  match k with
  | TurnOff => Some (_command COMMAND_POWER_OFF None)
  | TurnOn => Some (_command COMMAND_POWER_ON None)
  | SelectSource source =>
      Some (_command COMMAND_SET_SOURCE (Some [JStr source]))
  | SelectVdSource source =>
      Some (_command COMMAND_SET_VD_SOURCE (Some [JStr source]))
  | _ => None
  end.

(** The run [r] of a command method from [w] has posted the command [data]
    and gone on as [_device_refresh] does.  A command that fails is raised
    and nothing follows it.  After a command that succeeds the refresh
    trigger is posted exactly when the gate is open and the client uses
    channel information: a failure of the trigger is raised, an answer 409
    sets the state to OFF, and nothing but the trigger is sent. *)
Definition followed_by_refresh (e : env) (w : world) (data : command_body)
  (r : result unit * world) : Prop :=
  let command := Post (api_command (_device_id (self w))) data in
  let trigger :=
    Post (api_command (_device_id (self w))) (_command COMMAND_REFRESH None) in
  match refused (server e (List.length (sent w)) command) with
  | Some x => fst r = inl x /\ sent (snd r) = (sent w ++ [command])%list
  | None =>
      if due e (self w) && _use_channel_info (self w)
      then
        let answer := server e (List.length (sent w) + 1) trigger in
        sent (snd r) = (sent w ++ [command; trigger])%list
        /\ fst r = match trigger_refused answer with
                   | Some x => inl x
                   | None => inr tt
                   end
        /\ _state (self (snd r))
           = if is_conflict answer then STATE_OFF else _state (self w)
      else
        sent (snd r) = (sent w ++ [command])%list
        /\ fst r = inr tt
        /\ _state (self (snd r)) = _state (self w)
  end.

(** A peer that serves a source map with the television input under the id
    "DTV". *)
Definition uppercase_env : env :=
  {| server := peer "tv1" living_room;
     utcnow := 0;
     json_loads := fun s => if s =? "sources" then Some uppercase_sources
                            else sample_loads s;
     py_int := sample_int |}.

(** The device is online and its state document cannot be had: what a first
    update leaves. *)
Definition half_polled : world :=
  snd (async_device_update (Some false) (env_of deaf 0) (fresh tv)).

Definition no_request (r : request) : bool := false.

(** The volume step of an update stores a volume for [device_volume]: the
    value is falsy, or a string that is not made of digits, or a string of
    digits in which [int] reads a level whose hundredth is a float. *)
Definition volume_goes_through (e : env) (device_volume : json) : Prop :=
  truthy device_volume = false
  \/ exists s,
       device_volume = JStr s
       /\ (isdigit s = true -> exists q, fraction_of e s = inr q).

(** * Properties *)

(** ** Running a computation *)

Lemma bind_inr {A B : Type} (m : M A) (k : A -> M B) e w a w1 :
  m e w = (inr a, w1) -> bind m k e w = k a e w1.
Proof. intros H. unfold bind. now rewrite H. Qed.

Section Keeps.
Context (R : env -> world -> world -> Prop) `{!Stepwise R}.

Lemma keeps_ret {A : Type} (a : A) : keeps R (ret a).
Proof. intros e w. apply stay. Qed.

Lemma keeps_raise {A : Type} (x : exn) : keeps R (@raise A x).
Proof. intros e w. apply stay. Qed.

Lemma keeps_lift {A : Type} (r : result A) : keeps R (lift r).
Proof. destruct r; [apply keeps_raise | apply keeps_ret]. Qed.

Lemma keeps_ask : keeps R ask.
Proof. intros e w. apply stay. Qed.

Lemma keeps_get_self : keeps R get_self.
Proof. intros e w. apply stay. Qed.

Lemma keeps_bind {A B : Type} (m : M A) (k : A -> M B) :
  keeps R m -> (forall a, keeps R (k a)) -> keeps R (bind m k).
Proof.
  intros Hm Hk e w. unfold bind.
  specialize (Hm e w). destruct (m e w) as [[x | a] w1]; simpl in *.
  - exact Hm.
  - eapply chain; [exact Hm | apply Hk].
Qed.

Lemma keeps_try {A : Type} (m : M A) : keeps R m -> keeps R (try m).
Proof.
  intros Hm e w. unfold try. specialize (Hm e w).
  destruct (m e w) as [r w1]. exact Hm.
Qed.

Lemma keeps_assign (f : client -> client) :
  (forall e w, R e w {| self := f (self w); sent := sent w |}) ->
  keeps R (assign f).
Proof. intros H e w. apply H. Qed.

Lemma keeps_send (r : request) :
  (forall e w, R e w {| self := self w; sent := (sent w ++ [r])%list |}) ->
  keeps R (send r).
Proof. intros H e w. apply H. Qed.

Lemma keeps_request_json (r : request) :
  keeps R (send r) -> keeps R (request_json r).
Proof.
  intros H. unfold request_json. apply keeps_bind; [exact H |].
  intros [x | status body].
  - apply keeps_raise.
  - destruct (400 <=? status)%Z; [apply keeps_raise | apply keeps_lift].
Qed.
End Keeps.

#[export] Instance same_stepwise {T : Type} (f : client -> T) : Stepwise (same f).
Proof.
  split; unfold same.
  - reflexivity.
  - intros e w1 w2 w3 H12 H23. now rewrite H23.
Qed.

#[export] Instance sends_only_stepwise (p : request -> bool)
  : Stepwise (sends_only p).
Proof.
  split; unfold sends_only.
  - intros e w. exists []. now rewrite app_nil_r.
  - intros e w1 w2 w3 [l1 [E1 P1]] [l2 [E2 P2]].
    exists (l1 ++ l2)%list. rewrite E2, E1, app_assoc. split; [reflexivity |].
    rewrite forallb_app, P1, P2. reflexivity.
Qed.

Lemma keeps_Throttle (R : env -> world -> world -> Prop) `{!Stepwise R}
  (min_time : Z) (method : M unit) :
  (forall e w,
      R e w {| self := upd_throttle (Some (utcnow e)) (self w);
               sent := sent w |}) ->
  keeps R method -> keeps R (Throttle min_time method).
Proof.
  intros Hgate Hm e w. unfold Throttle.
  destruct (match _throttle (self w) with
            | Some last => (utcnow e - last >? min_time)%Z
            | None => true
            end).
  - eapply chain; [apply Hgate | apply Hm].
  - apply stay.
Qed.

Create HintDb coroutines.
#[export] Hint Unfold
  _device_refresh _device_refresh_body _async_send_command async_device_health
  fetch_states store_volume store_modes store_sources store_status
  adopt_reported async_device_update
  async_turn_off async_turn_on async_send_command async_select_source
  async_select_vd_source async_set_sound_mode async_set_picture_mode
  run_command run : coroutines.

(** Walks through a computation, leaving to [side] the assignments and the
    requests. *)
Ltac keeps_rule side :=
  first
    [ apply keeps_ret; typeclasses eauto
    | apply keeps_raise; typeclasses eauto
    | apply keeps_lift; typeclasses eauto
    | apply keeps_ask; typeclasses eauto
    | apply keeps_get_self; typeclasses eauto
    | apply keeps_bind; [ typeclasses eauto | | intro ]
    | apply keeps_try
    | apply keeps_request_json; [ typeclasses eauto | ]
    | apply keeps_Throttle; [ typeclasses eauto | solve [side] | ]
    | apply keeps_assign; solve [side]
    | apply keeps_send; solve [side]
    | match goal with
      | |- keeps _ (if ?b then _ else _) => destruct b
      | |- keeps _ (match (if ?b then _ else _) with _ => _ end) => destruct b
      | |- keeps _ (match ?x with _ => _ end) => destruct x
      end
    | progress cbv zeta
    | progress autounfold with coroutines ].

Ltac keeps_walk side := repeat keeps_rule side.

Ltac same_side :=
  intros; unfold same, _set_source, set_application; simpl;
  repeat match goal with
         | |- context [if ?b then _ else _] => destruct b
         end;
  reflexivity.

Ltac sends_side :=
  intros; unfold sends_only; simpl;
  first [ eexists [_]; split; reflexivity
        | exists []; rewrite app_nil_r; split; reflexivity ].

Lemma commands_keep_volume (k : command_call) :
  keeps (same _volume) (run_command k).
Proof. keeps_walk same_side. Qed.

Lemma commands_only_post (k : command_call) :
  keeps (sends_only is_post) (run_command k).
Proof. keeps_walk sends_side. Qed.

(** ** Source names and the source list *)

Lemma find_source_name_first (source_id : string) (before after : list json)
  (entry : json) :
  source_id <> "" ->
  forallb (passes_over source_id) before = true ->
  dict_get entry "id" JNull = inr (JStr source_id) ->
  find_source_name (before ++ entry :: after) source_id
  = dict_get entry "name" (JStr "").
Proof.
  intros Hne Hbefore Hid. induction before as [| item before IH]; simpl.
  - rewrite Hid. simpl. rewrite String.eqb_refl.
    destruct source_id; [contradiction | reflexivity].
  - simpl in Hbefore. apply andb_true_iff in Hbefore as [Hitem Hrest].
    unfold passes_over in Hitem.
    destruct (dict_get item "id" JNull) as [x | map_id]; [discriminate |].
    simpl. apply negb_true_iff in Hitem. rewrite Hitem. now apply IH.
Qed.

(** C6, the failing input.  The device lists its television input under the
    id "DTV", which reads "dtv".  After an update the source list offers it as
    "digitalTv", because [_get_source_list_from_map] compares the ids through
    [upper]; [get_source_name("digitalTv")] searches for "dtv", compares the
    ids with [==], and returns the empty string, not the name "TV" of the
    entry.  The other name of the list is found. *)
Theorem get_source_name_misses_uppercase_id :
  let w := snd (async_device_update None uppercase_env (fresh tv)) in
  upper "DTV" = upper "dtv"
  /\ _source_list_map (self w) = uppercase_sources
  /\ _get_source_list_from_map (self w) = inr ["digitalTv"; "HDMI1"]
  /\ get_source_name (self w) "digitalTv" = inr (JStr "")
  /\ get_source_name (self w) "digitalTv" <> inr (JStr "TV")
  /\ get_source_name (self w) "HDMI1" = inr (JStr "PlayStation").
Proof.
  vm_compute. repeat split; try reflexivity. discriminate.
Qed.

(** What the lookup of C6 does find.  When the first entry of the source map
    whose id is exactly "dtv" is [entry], [get_source_name] returns the name
    of [entry] (the empty string if it has none) for every argument that reads
    "digitalTv" in any capitalization: the argument is compared
    case-insensitively, the ids of the map are compared exactly. *)
Theorem get_source_name_digital_tv (c : client) (source_id : string)
  (before after : list json) (entry : json) :
  upper source_id = upper DIGITAL_TV ->
  _source_list_map c = JArr (before ++ entry :: after) ->
  forallb (passes_over "dtv") before = true ->
  dict_get entry "id" JNull = inr (JStr "dtv") ->
  get_source_name c source_id = dict_get entry "name" (JStr "").
Proof.
  intros Hupper Hmap Hbefore Hid. unfold get_source_name.
  rewrite Hmap, Hupper, String.eqb_refl.
  replace (truthy (JArr (before ++ entry :: after))) with true
    by (destruct before; reflexivity).
  simpl. apply find_source_name_first; [discriminate | assumption | assumption].
Qed.

Lemma get_source_name_digital_tv_witness :
  get_source_name (upd_source_list_map hdmi_sources tv) "DigitalTV"
  = inr (JStr "TV").
Proof.
  apply (get_source_name_digital_tv (upd_source_list_map hdmi_sources tv)
           "DigitalTV" []
           [JObj [("id", JStr "HDMI1"); ("name", JStr "PlayStation")]]
           (JObj [("id", JStr "dtv"); ("name", JStr "TV")]));
    reflexivity.
Defined.

(** ** Following one run *)

Section Post.
Context {A : Type} (e : env) (w : world) (Q : result A -> world -> Prop).

Lemma post_ret (a : A) : Q (inr a) w -> post (ret a) e w Q.
Proof. exact (fun H => H). Qed.

Lemma post_raise (x : exn) : Q (inl x) w -> post (raise x) e w Q.
Proof. exact (fun H => H). Qed.

Lemma post_lift (r : result A) : Q r w -> post (lift r) e w Q.
Proof. destruct r; exact (fun H => H). Qed.

Lemma post_bind {B : Type} (m : M B) (k : B -> M A) :
  post m e w (fun r w' =>
                match r with
                | inl x => Q (inl x) w'
                | inr b => post (k b) e w' Q
                end) ->
  post (bind m k) e w Q.
Proof.
  unfold post, bind. destruct (m e w) as [[x | b] w']; exact (fun H => H).
Qed.

Lemma post_keeps (R : env -> world -> world -> Prop) (m : M A) :
  keeps R m -> (forall r w', R e w w' -> Q r w') -> post m e w Q.
Proof. intros Hm HQ. apply HQ, Hm. Qed.
End Post.

Lemma post_ask (e : env) (w : world) (Q : result env -> world -> Prop) :
  Q (inr e) w -> post ask e w Q.
Proof. exact (fun H => H). Qed.

Lemma post_get_self (e : env) (w : world) (Q : result client -> world -> Prop) :
  Q (inr (self w)) w -> post get_self e w Q.
Proof. exact (fun H => H). Qed.

Lemma post_assign (f : client -> client) (e : env) (w : world)
  (Q : result unit -> world -> Prop) :
  Q (inr tt) {| self := f (self w); sent := sent w |} -> post (assign f) e w Q.
Proof. exact (fun H => H). Qed.

Lemma post_try {A : Type} (m : M A) (e : env) (w : world)
  (Q : result (result A) -> world -> Prop) :
  post m e w (fun r w' => Q (inr r) w') -> post (try m) e w Q.
Proof. unfold post, try. destruct (m e w) as [r w']. exact (fun H => H). Qed.

(** A step whose effect on the world does not matter. *)
Lemma post_skip {A B : Type} (m : M B) (k : B -> M A) (e : env) (w : world)
  (Q : result A -> world -> Prop) :
  (forall x w', Q (inl x) w') ->
  (forall b w', post (k b) e w' Q) ->
  post (bind m k) e w Q.
Proof.
  intros Hx Hk. unfold post, bind. destruct (m e w) as [[x | b] w'].
  - apply Hx.
  - apply Hk.
Qed.

Lemma post_update (use_channel_info : option bool) (e : env) (w : world)
  (data : json) (Q : result unit -> world -> Prop) :
  fst (fetch_states use_channel_info e w) = inr (Some data) ->
  post (dev_data <- store_status data ;; adopt_reported dev_data) e
       (snd (fetch_states use_channel_info e w)) Q ->
  post (async_device_update use_channel_info) e w Q.
Proof.
  intros Hfetch H. unfold post, async_device_update, bind at 1 3.
  destruct (fetch_states use_channel_info e w) as [r w1]. simpl in Hfetch.
  subst r. exact H.
Qed.

(** One step of a run: a rule of [post], or a case analysis on what the next
    step depends on. *)
Ltac post_step :=
  first
    [ lazymatch goal with
      | |- post (bind _ _) _ _ _ => apply post_bind
      | |- post (ret _) _ _ _ => apply post_ret
      | |- post (raise _) _ _ _ => apply post_raise
      | |- post (lift _) _ _ _ => apply post_lift
      | |- post ask _ _ _ => apply post_ask
      | |- post get_self _ _ _ => apply post_get_self
      | |- post (assign _) _ _ _ => apply post_assign
      | |- post (try _) _ _ _ => apply post_try
      end
    | match goal with
      | H : ?r = _ |- context [match ?r with _ => _ end] => rewrite H
      | H : ?r = _ |- context [if ?r then _ else _] => rewrite H
      end
    | progress cbv beta iota zeta
    | progress cbn [self sent fst snd] ].

(** ** The volume *)

Lemma stored_keeps_volume (dev_data : json) :
  keeps (same _volume)
    (store_modes dev_data ;; store_sources dev_data ;; ret dev_data).
Proof. keeps_walk same_side. Qed.

Lemma adopt_keeps_volume (dev_data : json) :
  keeps (same _volume) (adopt_reported dev_data).
Proof. keeps_walk same_side. Qed.

(** Once the volume is stored, the rest of the update leaves it alone. *)
Lemma volume_settles (dev_data : json) (e : env) (w : world) (P : Q -> Prop) :
  P (_volume (self w)) ->
  post (store_modes dev_data ;; store_sources dev_data ;; ret dev_data) e w
    (fun r w1 =>
       match r with
       | inl _ => P (_volume (self w1))
       | inr dev =>
           post (adopt_reported dev) e w1 (fun _ w2 => P (_volume (self w2)))
       end).
Proof.
  intros HP. apply (post_keeps _ _ _ (same _volume));
    [apply stored_keeps_volume |].
  intros r w1 E1. unfold same in E1. destruct r as [x | dev].
  - now rewrite E1.
  - apply (post_keeps _ _ _ (same _volume)); [apply adopt_keeps_volume |].
    intros r w2 E2. unfold same in E2. now rewrite E2, E1.
Qed.

Lemma fetch_keeps_volume (use_channel_info : option bool) :
  keeps (same _volume) (fetch_states use_channel_info).
Proof. keeps_walk same_side. Qed.

(** The volume step on a string of digits. *)
Lemma store_volume_digits (dev_data : json) (e : env) (w : world) (s : string) :
  field_value dev_data "volume" (JInt 0) = inr (JStr s) ->
  isdigit s = true ->
  store_volume dev_data e w
  = match fraction_of e s with
    | inl x => (inl x, w)
    | inr q => (inr tt, {| self := upd_volume q (self w); sent := sent w |})
    end.
Proof.
  intros Hvolume Hdigit. unfold store_volume, bind at 1. rewrite Hvolume.
  cbn [lift ret]. destruct s as [| a s]; [discriminate |].
  cbn [truthy String.eqb negb]. rewrite Hdigit.
  unfold fraction_of, bind, ask, lift.
  destruct (py_int e (String a s)) as [x | level]; [reflexivity |].
  cbn [and_then]. unfold ret at 1. cbv beta iota.
  now destruct (volume_fraction level).
Qed.

(** The volume step on anything else that it accepts. *)
Lemma store_volume_zero (dev_data : json) (e : env) (w : world)
  (device_volume : json) :
  field_value dev_data "volume" (JInt 0) = inr device_volume ->
  truthy device_volume = false
  \/ (exists s, device_volume = JStr s /\ isdigit s = false) ->
  store_volume dev_data e w
  = (inr tt, {| self := upd_volume 0%Q (self w); sent := sent w |}).
Proof.
  intros Hvolume Hshape. unfold store_volume, bind at 1. rewrite Hvolume.
  cbn [lift ret]. destruct Hshape as [-> | [s [-> Hdigit]]]; [reflexivity |].
  rewrite Hdigit. now destruct (truthy (JStr s)).
Qed.

(** An update stops where its volume step raises, and keeps the volume that
    the step stores. *)
Lemma update_volume_step (use_channel_info : option bool) (e : env) (w : world)
  (data dev_data : json) :
  fst (fetch_states use_channel_info e w) = inr (Some data) ->
  dict_get data "main" (JObj []) = inr dev_data ->
  let step := store_volume dev_data e (snd (fetch_states use_channel_info e w)) in
  let r := async_device_update use_channel_info e w in
  match fst step with
  | inl x => fst r = inl x /\ snd r = snd step
  | inr _ => _volume (self (snd r)) = _volume (self (snd step))
  end.
Proof.
  intros Hfetch Hmain step r. subst step r.
  set (w0 := snd (fetch_states use_channel_info e w)).
  change (post (async_device_update use_channel_info) e w
            (fun r w' =>
               match fst (store_volume dev_data e w0) with
               | inl x => r = inl x /\ w' = snd (store_volume dev_data e w0)
               | inr _ =>
                   _volume (self w')
                   = _volume (self (snd (store_volume dev_data e w0)))
               end)).
  apply (post_update _ _ _ data); [exact Hfetch |]. fold w0.
  unfold store_status. do 2 apply post_bind. rewrite Hmain.
  apply post_lift. cbv beta iota. apply post_bind. unfold post at 1.
  destruct (store_volume dev_data e w0) as [[x | u] w1]; cbn [fst snd].
  - now split.
  - exact (volume_settles dev_data e w1 (fun q => q = _volume (self w1))
             eq_refl).
Qed.

Lemma volume_absent_default (dev_data : json) :
  volume_absent dev_data = true ->
  field_value dev_data "volume" (JInt 0) = inr (JInt 0).
Proof.
  unfold volume_absent, field_value, dict_get.
  destruct dev_data as [| b | n | s | items | fields]; try discriminate.
  simpl. destruct (lookup "volume" fields) as [field |]; [| reflexivity].
  destruct field as [| b | n | s | items | field]; try discriminate.
  simpl. now destruct (lookup "value" field).
Qed.

(** A percentage is far below the floats' limit. *)
Lemma percentage_divides (level : Z) :
  (0 <= level <= 100)%Z -> volume_fraction level = inr (level # 100)%Q.
Proof.
  intros Hlevel. unfold volume_fraction.
  assert (Hlimit : (100 < 100 * FLOAT_LIMIT)%Z) by reflexivity.
  destruct (100 * FLOAT_LIMIT <=? Z.abs level)%Z eqn:Hover; [| reflexivity].
  apply Z.leb_le in Hover. lia.
Qed.

Example int_of_digits_100 : int_of_digits "100" = 100%Z.
Proof. reflexivity. Qed.

Example int_of_digits_007 : int_of_digits "007" = 7%Z.
Proof. reflexivity. Qed.

(** The division goes through up to the largest int that rounds to a float,
    and raises from the next one on. *)
Example volume_fraction_limit :
  volume_fraction (100 * FLOAT_LIMIT - 1)
  = inr ((100 * FLOAT_LIMIT - 1) # 100)%Q
  /\ volume_fraction (100 * FLOAT_LIMIT) = inl OverflowError.
Proof. split; vm_compute; reflexivity. Qed.

(** C2.  An update that got the state document [data], with component
    [dev_data], leaves in the cached volume [int(v) / 100] when the reported
    volume value is a string [v] of digits in "0".."100", that is one in which
    [int] reads a level from 0 to 100; it leaves 0 when the value is a string
    that is not made of digits or when there is no volume in the document.
    For every other string of digits the update stores [int(v) / 100] when
    [int] reads the digits and the quotient is a float, and otherwise raises
    the error of [int] or of the division with the volume as it was. *)
Theorem update_normalizes_volume (use_channel_info : option bool) (e : env)
  (w : world) (data dev_data : json) :
  fst (fetch_states use_channel_info e w) = inr (Some data) ->
  dict_get data "main" (JObj []) = inr dev_data ->
  let r := async_device_update use_channel_info e w in
  let c' := self (snd r) in
  (forall v level,
      field_value dev_data "volume" (JInt 0) = inr (JStr v) ->
      isdigit v = true -> py_int e v = inr level -> (0 <= level <= 100)%Z ->
      _volume c' = (level # 100)%Q)
  /\ (forall v, field_value dev_data "volume" (JInt 0) = inr (JStr v) ->
                isdigit v = false ->
                _volume c' = 0%Q)
  /\ (volume_absent dev_data = true -> _volume c' = 0%Q)
  /\ (forall v, field_value dev_data "volume" (JInt 0) = inr (JStr v) ->
                isdigit v = true ->
                match fraction_of e v with
                | inr q => _volume c' = q
                | inl x => fst r = inl x /\ _volume c' = _volume (self w)
                end).
Proof.
  intros Hfetch Hmain r c'. subst c' r.
  pose proof (update_volume_step use_channel_info e w data dev_data
                Hfetch Hmain) as Hstep.
  cbv zeta in Hstep.
  pose proof (fetch_keeps_volume use_channel_info e w) as Hkept.
  unfold same in Hkept.
  assert (Hdigits :
            forall v, field_value dev_data "volume" (JInt 0) = inr (JStr v) ->
                      isdigit v = true ->
                      match fraction_of e v with
                      | inr q =>
                          _volume (self (snd (async_device_update
                                                use_channel_info e w))) = q
                      | inl x =>
                          fst (async_device_update use_channel_info e w) = inl x
                          /\ _volume (self (snd (async_device_update
                                                   use_channel_info e w)))
                             = _volume (self w)
                      end).
  { intros v Hv Hdigit.
    rewrite (store_volume_digits dev_data e _ v Hv Hdigit) in Hstep.
    destruct (fraction_of e v) as [x | q]; cbn [fst snd] in Hstep.
    - destruct Hstep as [Hraised ->]. split; [exact Hraised | exact Hkept].
    - exact Hstep. }
  assert (Hzero :
            forall device_volume,
              field_value dev_data "volume" (JInt 0) = inr device_volume ->
              truthy device_volume = false
              \/ (exists s, device_volume = JStr s /\ isdigit s = false) ->
              _volume (self (snd (async_device_update use_channel_info e w)))
              = 0%Q).
  { intros device_volume Hv Hshape.
    now rewrite (store_volume_zero dev_data e _ device_volume Hv Hshape)
      in Hstep. }
  split; [| split; [| split]].
  - intros v level Hv Hdigit Hint Hlevel.
    specialize (Hdigits v Hv Hdigit). unfold fraction_of in Hdigits.
    rewrite Hint in Hdigits. cbn [and_then] in Hdigits.
    now rewrite (percentage_divides level Hlevel) in Hdigits.
  - intros v Hv Hdigit. apply (Hzero (JStr v) Hv). right. now exists v.
  - intros Habsent. apply volume_absent_default in Habsent.
    apply (Hzero (JInt 0) Habsent). now left.
  - exact Hdigits.
Qed.

Lemma update_normalizes_volume_witness :
  _volume (self (snd (async_device_update None (sample_env living_room 0)
                        (fresh tv))))
  = (25 # 100)%Q.
Proof.
  apply (proj1 (update_normalizes_volume None (sample_env living_room 0)
                  (fresh tv) living_room living_room_main
                  eq_refl eq_refl)
           "25" 25%Z); [reflexivity | reflexivity | reflexivity | lia].
Defined.

(** A volume of 321 digits passes [int] and is beyond the floats: the update
    raises OverflowError and the volume stays the 10 of the constructor.  A
    superscript two passes [isdigit] and is refused by [int]: the update
    raises ValueError. *)
Example update_volume_errors :
  let huge := async_device_update None
                (sample_env (report (nines 321) "HDMI2" "5" "BBC") 0)
                (fresh tv) in
  let odd := async_device_update None
               (sample_env (report superscript_two "HDMI2" "5" "BBC") 0)
               (fresh tv) in
  (fst huge = inl OverflowError /\ _volume (self (snd huge)) = 10%Q)
  /\ (isdigit superscript_two = true
      /\ fst odd = inl ValueError /\ _volume (self (snd odd)) = 10%Q).
Proof. vm_compute. repeat split. Qed.

Lemma request_json_served (r : request) (e : env) (w : world) (data : json) :
  fst (request_json r e w) = inr data ->
  exists status, server e (List.length (sent w)) r = Reply status (inr data).
Proof.
  unfold request_json, bind, send. simpl.
  destruct (server e (List.length (sent w)) r) as [x | status body];
    [discriminate |].
  destruct (400 <=? status)%Z; [discriminate |].
  destruct body as [x | j]; [discriminate |].
  simpl. intros [= ->]. now exists status.
Qed.

(** The document an update works on is one the peer served. *)
Lemma fetch_states_served (use_channel_info : option bool) (e : env)
  (w : world) (data : json) :
  fst (fetch_states use_channel_info e w) = inr (Some data) ->
  exists n url status, server e n (Get url) = Reply status (inr data).
Proof.
  change (post (fetch_states use_channel_info) e w
            (fun r _ => r = inr (Some data) ->
                        exists n url status,
                          server e n (Get url) = Reply status (inr data))).
  unfold fetch_states.
  apply post_bind, post_get_self. cbv beta iota zeta.
  destruct (_device_id (self w) =? ""); [apply post_ret; discriminate |].
  apply post_skip; [discriminate | intros _ w1].
  apply post_skip; [discriminate | intros _ w2].
  apply post_skip; [discriminate | intros is_online w3].
  destruct is_online as [x | [|]].
  - destruct (is_transport_failure x).
    + apply post_skip; [discriminate | intros _ w4]. apply post_ret. discriminate.
    + apply post_raise. discriminate.
  - apply post_skip; [discriminate | intros _ w4].
    apply post_skip; [discriminate | intros _ w5].
    apply post_bind, post_get_self. cbv beta iota.
    destruct (STStatus_eqb (_state (self w5)) STATE_OFF);
      [apply post_ret; discriminate |].
    unfold post, bind.
    destruct (request_json _ e w5) as [[x | served] w6] eqn:Hget;
      [discriminate |].
    simpl. intros [= <-].
    match type of Hget with
    | request_json ?r _ _ = _ =>
        pose proof (request_json_served r e w5 served) as Hserved
    end.
    rewrite Hget in Hserved. destruct (Hserved eq_refl) as [status Hstatus].
    eauto.
  - apply post_skip; [discriminate | intros _ w4]. apply post_ret. discriminate.
Qed.

Lemma int_acc_nonneg (s : string) (acc : Z) :
  (0 <= acc)%Z -> all_decimal s = true -> (0 <= int_acc acc s)%Z.
Proof.
  revert acc. induction s as [| a s IH]; intros acc Hacc Hs; cbn [int_acc].
  - exact Hacc.
  - simpl in Hs. apply andb_true_iff in Hs as [Ha Hs].
    apply IH; [| exact Hs]. unfold is_decimal in Ha. cbv zeta in Ha.
    apply andb_true_iff in Ha as [Hlo _]. apply Nat.leb_le in Hlo. lia.
Qed.

(** The parser of the samples reads no negative number. *)
Lemma sample_int_nonneg (s : string) (level : Z) :
  sample_int s = inr level -> (0 <= level)%Z.
Proof.
  unfold sample_int. destruct (isdecimal s) eqn:Hs; [| discriminate].
  destruct (String.length s <=? 4300)%nat; [| discriminate].
  cbn [andb]. intros [= <-]. apply int_acc_nonneg; [lia |].
  destruct s; [discriminate | exact Hs].
Qed.

Lemma percentage_in_range (level : Z) :
  (0 <= level <= 100)%Z -> (0 <= level # 100 <= 1)%Q.
Proof. intros Hlevel. unfold Qle. simpl. lia. Qed.

(** The volume step keeps the volume in range when the document reports a
    percentage. *)
Lemma store_volume_keeps_range (dev_data : json) (e : env) (w : world) :
  (forall v level,
      field_value dev_data "volume" (JInt 0) = inr (JStr v) ->
      isdigit v = true -> py_int e v = inr level -> (0 <= level <= 100)%Z) ->
  volume_in_range (self w) ->
  volume_in_range (self (snd (store_volume dev_data e w))).
Proof.
  intros Hdata Hw.
  destruct (field_value dev_data "volume" (JInt 0)) as [x | device_volume]
    eqn:Hvolume.
  { unfold store_volume, bind. now rewrite Hvolume. }
  assert (Hzero : volume_in_range (upd_volume 0%Q (self w))).
  { right. simpl. split; discriminate. }
  destruct (truthy device_volume) eqn:Htruthy.
  2:{ rewrite (store_volume_zero dev_data e w device_volume Hvolume);
        [exact Hzero | now left]. }
  destruct device_volume as [| b | n | s | items | fields];
    try (unfold store_volume, bind; rewrite Hvolume; cbn [lift ret];
         rewrite Htruthy; exact Hw).
  destruct (isdigit s) eqn:Hdigit.
  - rewrite (store_volume_digits dev_data e w s Hvolume Hdigit).
    unfold fraction_of.
    destruct (py_int e s) as [x | level] eqn:Hint; [exact Hw |].
    cbn [and_then].
    pose proof (Hdata s level eq_refl Hdigit Hint) as Hlevel.
    rewrite (percentage_divides level Hlevel). right. cbn [snd self].
    simpl. now apply percentage_in_range.
  - rewrite (store_volume_zero dev_data e w (JStr s) Hvolume);
      [exact Hzero |]. right. now exists s.
Qed.

Lemma update_keeps_range (use_channel_info : option bool) (e : env) (w : world) :
  reports_percentages e -> volume_in_range (self w) ->
  volume_in_range (self (snd (async_device_update use_channel_info e w))).
Proof.
  intros He Hw.
  pose proof (fetch_keeps_volume use_channel_info e w) as Hsame.
  unfold same in Hsame.
  destruct (fetch_states use_channel_info e w) as [r w1] eqn:Hfetch.
  simpl in Hsame.
  assert (Hw1 : volume_in_range (self w1))
    by (unfold volume_in_range; now rewrite Hsame).
  destruct r as [x | [data |]].
  - unfold async_device_update, bind. now rewrite Hfetch.
  - destruct (fetch_states_served use_channel_info e w data)
      as [n [url [status Hserved]]]; [now rewrite Hfetch |].
    destruct (dict_get data "main" (JObj [])) as [x | dev_data] eqn:Hmain.
    { unfold async_device_update, bind at 1. rewrite Hfetch.
      unfold store_status, bind. now rewrite Hmain. }
    pose proof (update_volume_step use_channel_info e w data dev_data) as Hstep.
    rewrite Hfetch in Hstep. specialize (Hstep eq_refl Hmain).
    cbv zeta in Hstep. cbn [snd] in Hstep.
    assert (Hstored : volume_in_range
                        (self (snd (store_volume dev_data e w1)))).
    { apply store_volume_keeps_range; [| exact Hw1].
      intros v level. now apply (He n url status data dev_data). }
    destruct (fst (store_volume dev_data e w1)) as [x | u].
    + destruct Hstep as [_ ->]. exact Hstored.
    + unfold volume_in_range. rewrite Hstep. exact Hstored.
  - unfold async_device_update, bind. now rewrite Hfetch.
Qed.

(** No call but an update changes the volume. *)
Lemma others_keep_volume (k : call) (e : env) (w : world) :
  match k with
  | Update _ => True
  | _ => _volume (self (snd (run k e w))) = _volume (self w)
  end.
Proof.
  destruct k as [use_channel_info | | app_id | k].
  - exact I.
  - assert (H : keeps (same _volume) (run Health)) by keeps_walk same_side.
    apply (H e w).
  - assert (H : keeps (same _volume) (run (SetApplication app_id)))
      by keeps_walk same_side.
    apply (H e w).
  - apply (commands_keep_volume k e w).
Qed.

Lemma call_keeps_range (k : call) (e : env) (w : world) :
  reports_percentages e -> volume_in_range (self w) ->
  volume_in_range (self (snd (run k e w))).
Proof.
  intros He Hw. pose proof (others_keep_volume k e w) as Hkept.
  destruct k as [use_channel_info | | app_id | k];
    [now apply update_keeps_range | | |];
    unfold volume_in_range; now rewrite Hkept.
Qed.

(** C3, counterexample.  A client that was just built has the volume 10: not
    zero, and not a fraction.  An update does not bound what the device
    reports: after a document that reports "150" the volume is 150/100. *)
Lemma volume_after_init_counterexample :
  _volume (__init__ "key" "tv1" true) = 10%Q
  /\ ~ (_volume (__init__ "key" "tv1" true) == 0)%Q
  /\ ~ (0 <= _volume (__init__ "key" "tv1" true) <= 1)%Q
  /\ _volume (self (snd (async_device_update None (sample_env loud_room 0)
                           (fresh tv))))
     = (150 # 100)%Q
  /\ ~ (0 <= 150 # 100 <= 1)%Q.
Proof.
  split; [reflexivity |]. split; [discriminate |].
  split; [intros [_ H]; now apply H |].
  split; [reflexivity |]. intros [_ H]. now apply H.
Qed.

(** C3, amended.  A client that was just built has the volume 10.  In every
    world a client reaches through calls for which the state documents report
    percentages (in a string of digits reported for the volume [int] reads a
    level from 0 to 100), the cached volume is that 10 or a fraction in
    [0,1].  No call but an update changes the volume. *)
Theorem volume_stays_in_range :
  (forall api_key device_id use_channel_info,
      _volume (__init__ api_key device_id use_channel_info) = 10%Q)
  /\ (forall w,
         reachable reports_percentages w -> volume_in_range (self w))
  /\ (forall k e w,
         match k with
         | Update _ => True
         | _ => _volume (self (snd (run k e w))) = _volume (self w)
         end).
Proof.
  split; [reflexivity |]. split; [| exact others_keep_volume].
  induction 1 as [api_key device_id use_channel_info | w k e Hw IH He].
  - now left.
  - now apply call_keeps_range.
Qed.

Lemma living_room_reports_percentages (now : Z) :
  reports_percentages (sample_env living_room now).
Proof.
  intros n url status data dev_data v level Hserved Hmain Hvolume Hdigit Hint.
  simpl in Hserved. unfold peer in Hserved.
  repeat match type of Hserved with
         | context [if ?b then _ else _] => destruct b
         end;
    injection Hserved as _ <-; vm_compute in Hmain; try discriminate;
    injection Hmain as <-; vm_compute in Hvolume; try discriminate.
  injection Hvolume as <-. vm_compute in Hint. injection Hint as <-. lia.
Qed.

Lemma volume_stays_in_range_witness :
  volume_in_range
    (self (snd (run (Update None) (sample_env living_room 0) (fresh tv)))).
Proof.
  apply (proj1 (proj2 volume_stays_in_range)
           (snd (run (Update None) (sample_env living_room 0) (fresh tv)))).
  apply reach_call.
  - apply reach_init.
  - apply living_room_reports_percentages.
Defined.

(** ** A health check that fails *)

Lemma health_keeps_client : keeps (same (fun c => c)) async_device_health.
Proof. keeps_walk same_side. Qed.

Lemma health_outcome (e : env) (w w' : world) :
  _device_id (self w') = _device_id (self w) ->
  sent w' = sent w ->
  fst (async_device_health e w') = fst (async_device_health e w).
Proof.
  intros Hid Hsent.
  unfold async_device_health, bind, get_self, request_json, bind, send.
  cbn [self sent]. rewrite Hid.
  destruct (_device_id (self w) =? ""); [reflexivity |].
  cbv beta. rewrite Hsent.
  destruct (server e _ _) as [x | status body]; [reflexivity |].
  destruct (400 <=? status)%Z; [reflexivity |].
  destruct body as [x | health]; [reflexivity |]. simpl.
  destruct (subscript health "state"); reflexivity.
Qed.

Lemma health_failure_configured (e : env) (w : world) (x : exn) :
  fst (async_device_health e w) = inl x -> (_device_id (self w) =? "") = false.
Proof.
  unfold async_device_health, bind, get_self.
  destruct (_device_id (self w) =? ""); [discriminate | reflexivity].
Qed.

Lemma post_health (e : env) (w : world) (Q : result bool -> world -> Prop) :
  (forall w', self w' = self w -> Q (fst (async_device_health e w)) w') ->
  post async_device_health e w Q.
Proof. intros H. apply H, (health_keeps_client e w). Qed.

(** C4.  When the health check of an update raises a timeout, a connection
    error or an HTTP-status error, the update returns normally, the cached
    state is UNKNOWN, and volume, mute, source, channel, channel name and all
    the mode and source lists and maps are what they were (so is the hold
    latch; the previous state is the state before the call). *)
Theorem health_failure_degrades (use_channel_info : option bool) (e : env)
  (w : world) (x : exn) :
  fst (async_device_health e w) = inl x ->
  is_transport_failure x = true ->
  let r := async_device_update use_channel_info e w in
  fst r = inr tt
  /\ _state (self (snd r)) = STATE_UNKNOWN
  /\ _prev_state (self (snd r)) = _state (self w)
  /\ telemetry (self (snd r)) = telemetry (self w)
  /\ hold (self (snd r)) = hold (self w).
Proof.
  intros Hhealth Hx r. subst r.
  change (post (async_device_update use_channel_info) e w
            (fun r w' =>
               r = inr tt
               /\ _state (self w') = STATE_UNKNOWN
               /\ _prev_state (self w') = _state (self w)
               /\ telemetry (self w') = telemetry (self w)
               /\ hold (self w') = hold (self w))).
  unfold async_device_update, fetch_states.
  do 3 post_step.
  rewrite (health_failure_configured e w x Hhealth).
  destruct use_channel_info as [flag |]; repeat post_step;
    apply post_health; intros w1 Hself;
    rewrite (health_outcome e w) by reflexivity; rewrite Hhealth;
    repeat post_step; rewrite Hself; repeat split.
Qed.

Lemma health_failure_degrades_witness :
  let e := {| server := unreachable; utcnow := 0;
              json_loads := sample_loads; py_int := sample_int |} in
  let r := async_device_update None e (fresh tv) in
  fst r = inr tt
  /\ _state (self (snd r)) = STATE_UNKNOWN
  /\ _prev_state (self (snd r)) = _state tv
  /\ telemetry (self (snd r)) = telemetry tv
  /\ hold (self (snd r)) = hold tv.
Proof.
  exact (health_failure_degrades None
           {| server := unreachable; utcnow := 0;
              json_loads := sample_loads; py_int := sample_int |}
           (fresh tv) ClientConnectionError eq_refl eq_refl).
Defined.

(** ** Sound and picture modes *)

Lemma find_mode_id_no_match (mode : string) (items : list json) :
  forallb (name_differs mode) items = true ->
  find_mode_id items mode = inr JNull.
Proof.
  induction items as [| item items IH]; simpl; [reflexivity |].
  intros H. apply andb_true_iff in H as [Hitem Hitems].
  unfold name_differs in Hitem.
  destruct (dict_get item "name" JNull) as [x | name]; [discriminate |].
  simpl. apply negb_true_iff in Hitem. rewrite Hitem. now apply IH.
Qed.

(** Where C5 holds.  While the cached state is not ON, [async_set_sound_mode] and
    [async_set_picture_mode] return at once: no request is sent and the client
    is unchanged, its sound mode included.  While the state is ON and no entry
    of the list-map bears the name [mode] (the names are compared exactly),
    they raise their own error, InvalidSmartThingsSoundMode or
    InvalidSmartThingsPictureMode, and again no request is sent. *)
Theorem set_mode_guards (mode : string) (e : env) (w : world) :
  (_state (self w) <> STATE_ON ->
   async_set_sound_mode mode e w = (inr tt, w)
   /\ async_set_picture_mode mode e w = (inr tt, w))
  /\ (_state (self w) = STATE_ON ->
      forall items,
        py_iter (_sound_mode_list_map (self w)) = inr items ->
        forallb (name_differs mode) items = true ->
        async_set_sound_mode mode e w = (inl InvalidSmartThingsSoundMode, w))
  /\ (_state (self w) = STATE_ON ->
      forall items,
        py_iter (_picture_mode_list_map (self w)) = inr items ->
        forallb (name_differs mode) items = true ->
        async_set_picture_mode mode e w
        = (inl InvalidSmartThingsPictureMode, w)).
Proof.
  unfold async_set_sound_mode, async_set_picture_mode, bind, get_self.
  split; [intros Hoff; split | split].
  - destruct (_state (self w)); try reflexivity. contradiction.
  - destruct (_state (self w)); try reflexivity. contradiction.
  - intros Hon items Hiter Hnames. rewrite Hon, Hiter. simpl.
    now rewrite (find_mode_id_no_match mode items Hnames).
  - intros Hon items Hiter Hnames. rewrite Hon, Hiter. simpl.
    now rewrite (find_mode_id_no_match mode items Hnames).
Qed.

Lemma set_mode_guards_witness :
  let e := sample_env living_room 1000 in
  async_set_sound_mode "Standard" e (fresh tv) = (inr tt, fresh tv)
  /\ async_set_sound_mode "NonexistentMode" e tv_on
     = (inl InvalidSmartThingsSoundMode, tv_on)
  /\ async_set_picture_mode "NonexistentMode" e tv_on
     = (inl InvalidSmartThingsPictureMode, tv_on).
Proof.
  intros e. split; [| split].
  - apply (proj1 (set_mode_guards "Standard" e (fresh tv))). discriminate.
  - apply (proj1 (proj2 (set_mode_guards "NonexistentMode" e tv_on))
             eq_refl
             [JObj [("id", JStr "1"); ("name", JStr "Standard")];
              JObj [("id", JStr "2"); ("name", JStr "Amplify")]]);
      reflexivity.
  - apply (proj2 (proj2 (set_mode_guards "NonexistentMode" e tv_on))
             eq_refl []);
      reflexivity.
Defined.

(** C5, the failing input.  The first update of a client finds the device
    online and fails to get the state document: the client is ON and has
    never stored a list-map, it still holds the None of the constructor.
    There [async_set_sound_mode] with a name that no list-map bears does not
    raise InvalidSmartThingsSoundMode: the loop over None raises TypeError
    before any lookup, and so does [async_set_picture_mode].  Nothing is
    sent. *)
Theorem set_mode_before_first_document :
  let e := env_of deaf 0 in
  reachable anything half_polled
  /\ _state (self half_polled) = STATE_ON
  /\ _sound_mode_list_map (self half_polled) = JNull
  /\ _picture_mode_list_map (self half_polled) = JNull
  /\ async_set_sound_mode "NonexistentMode" e half_polled
     = (inl TypeError, half_polled)
  /\ async_set_picture_mode "NonexistentMode" e half_polled
     = (inl TypeError, half_polled).
Proof.
  intros e. split.
  - exact (reach_call anything (fresh tv) (Update (Some false)) e
             (reach_init anything "key" "tv1" true) I).
  - vm_compute. repeat split.
Qed.

(** ** The source list *)

Lemma collect_sources_In (items : list json) :
  forall (acc l : list string),
    collect_sources items acc = inr l ->
    forall x,
      In x l <->
      In x acc
      \/ exists item s,
           In item items
           /\ dict_get item "id" JNull = inr (JStr s)
           /\ s <> ""
           /\ x = listed_as s.
Proof.
  induction items as [| item items IH]; intros acc l Hl x; simpl in Hl.
  - injection Hl as <-. split; [now left |].
    intros [H | [item [s [[] _]]]]. exact H.
  - destruct (dict_get item "id" JNull) as [err | source_id] eqn:Hid;
      [discriminate |].
    simpl in Hl.
    assert (Hrest :
              forall acc',
                collect_sources items acc' = inr l ->
                (In x acc' <->
                 In x acc
                 \/ exists s, source_id = JStr s /\ s <> "" /\ x = listed_as s) ->
                In x l <->
                In x acc
                \/ exists item' s,
                     (item = item' \/ In item' items)
                     /\ dict_get item' "id" JNull = inr (JStr s)
                     /\ s <> ""
                     /\ x = listed_as s).
    { intros acc' Hacc' Hhead. rewrite (IH acc' l Hacc' x), Hhead. split.
      - intros [[H | [s [Hs [Hne Hx]]]] | [item' [s [Hin H]]]].
        + now left.
        + right. exists item, s. subst source_id. auto.
        + right. exists item', s. tauto.
      - intros [H | [item' [s [[<- | Hin] [Hs [Hne Hx]]]]]].
        + now left; left.
        + left; right. exists s. rewrite Hid in Hs. injection Hs as ->. auto.
        + right. exists item', s. auto. }
    destruct (truthy source_id) eqn:Htruthy.
    + destruct source_id as [| b | n | s | l' | fields]; try discriminate.
      assert (Hne : s <> "").
      { intros ->. discriminate. }
      assert (Hhead :
                In x (acc ++ [listed_as s]) <->
                In x acc
                \/ exists s', JStr s = JStr s' /\ s' <> "" /\ x = listed_as s').
      { rewrite in_app_iff. simpl. split.
        - intros [H | [<- | []]]; [now left | right; now exists s].
        - intros [H | [s' [[= <-] [_ ->]]]]; [now left | right; now left]. }
      unfold listed_as in Hhead at 1.
      destruct (upper s =? "DTV"); now apply (Hrest _ Hl).
    + apply (Hrest acc Hl). split; [now left |].
      intros [H | [s [-> [Hne _]]]]; [exact H |].
      simpl in Htruthy. apply negb_false_iff, String.eqb_eq in Htruthy.
      contradiction.
Qed.

Lemma collect_sources_total (items : list json) :
  forallb entry_ok items = true ->
  forall acc, exists l, collect_sources items acc = inr l.
Proof.
  induction items as [| item items IH]; intros Hok acc; simpl.
  - now exists acc.
  - simpl in Hok. apply andb_true_iff in Hok as [Hitem Hitems].
    unfold entry_ok in Hitem.
    destruct (dict_get item "id" JNull) as [err | [| b | n | s | l | fields]];
      try discriminate; simpl.
    + now apply IH.
    + destruct (negb (s =? "")); [| now apply IH].
      destruct (upper s =? "DTV"); now apply IH.
Qed.

Lemma upper_digital_tv : upper DIGITAL_TV <> "DTV".
Proof. discriminate. Qed.

Lemma listed_as_not_dtv (s : string) : upper (listed_as s) <> "DTV".
Proof.
  unfold listed_as. destruct (upper s =? "DTV") eqn:H.
  - exact upper_digital_tv.
  - now apply String.eqb_neq.
Qed.

Lemma adopt_keeps_sources (dev_data : json) :
  keeps (same (fun c => (_source_list c, _source_list_map c)))
    (adopt_reported dev_data).
Proof. keeps_walk same_side. Qed.

Lemma same_sources_derived (c c' : client) :
  (_source_list c', _source_list_map c') = (_source_list c, _source_list_map c) ->
  derived_from_map c -> derived_from_map c'.
Proof.
  intros [= Hlist Hmap] [l [Hl Hderived]]. exists l.
  unfold _get_source_list_from_map in *. now rewrite Hlist, Hmap.
Qed.

(** An update that runs to its end has computed the source list from the
    source map it has just stored. *)
Lemma update_derives_source_list (use_channel_info : option bool) (e : env)
  (w : world) (data : json) :
  fst (fetch_states use_channel_info e w) = inr (Some data) ->
  post (async_device_update use_channel_info) e w
    (fun r w' => r = inr tt -> derived_from_map (self w')).
Proof.
  intros Hfetch. apply (post_update _ _ _ data); [exact Hfetch |].
  unfold store_status.
  post_step.
  apply post_skip; [discriminate | intros dev_data w1].
  apply post_skip; [discriminate | intros _ w2].
  apply post_skip; [discriminate | intros _ w3].
  post_step. unfold store_sources.
  repeat post_step.
  destruct (_load_json_list _ _ _) as [x | source_list_map]; [discriminate |].
  repeat post_step.
  destruct (_get_source_list_from_map _) as [x | source_list] eqn:Hlist;
    [discriminate |].
  repeat post_step.
  apply (post_keeps _ _ _ _ _ (adopt_keeps_sources dev_data)).
  intros r w4 Hsame _. apply (same_sources_derived _ _ Hsame).
  exists source_list. split; [reflexivity | exact Hlist].
Qed.

(** C7.  An update that runs to its end leaves in the cached source list the
    list computed from the source map it has stored.  In the list computed
    from a map, an entry whose id reads "dtv" in any capitalization is listed
    as "digitalTv", no element of the list reads "dtv", and the id of every
    other entry is listed as it is; the computation succeeds on every map
    whose entries are dicts with a string, or nothing, for id. *)
Theorem source_list_from_map :
  (forall use_channel_info e w data,
      fst (fetch_states use_channel_info e w) = inr (Some data) ->
      fst (async_device_update use_channel_info e w) = inr tt ->
      derived_from_map (self (snd (async_device_update use_channel_info e w))))
  /\ (forall c items source_list,
         _source_list_map c = JArr items ->
         _get_source_list_from_map c = inr source_list ->
         (forall item s,
             In item items -> dict_get item "id" JNull = inr (JStr s) ->
             s <> "" -> upper s = "DTV" ->
             In DIGITAL_TV source_list)
         /\ (forall x, In x source_list -> upper x <> "DTV")
         /\ (forall item s,
                In item items -> dict_get item "id" JNull = inr (JStr s) ->
                s <> "" -> upper s <> "DTV" ->
                In s source_list))
  /\ (forall c items,
         _source_list_map c = JArr items ->
         forallb entry_ok items = true ->
         exists source_list, _get_source_list_from_map c = inr source_list).
Proof.
  split; [| split].
  - intros use_channel_info e w data Hfetch.
    apply (update_derives_source_list use_channel_info e w data Hfetch).
  - intros c items source_list Hmap Hlist.
    unfold _get_source_list_from_map in Hlist. rewrite Hmap in Hlist.
    destruct items as [| item0 items0].
    { injection Hlist as <-. repeat split; intros; contradiction. }
    set (items := item0 :: items0) in *. simpl in Hlist.
    pose proof (collect_sources_In items [] source_list Hlist) as HIn.
    repeat split.
    + intros item s Hin Hid Hne Hupper. apply HIn. right. exists item, s.
      unfold listed_as. rewrite Hupper. auto.
    + intros x Hx. apply HIn in Hx as [[] | [item [s [_ [_ [_ ->]]]]]].
      apply listed_as_not_dtv.
    + intros item s Hin Hid Hne Hupper. apply HIn. right. exists item, s.
      unfold listed_as. apply String.eqb_neq in Hupper. rewrite Hupper. auto.
  - intros c items Hmap Hok. unfold _get_source_list_from_map. rewrite Hmap.
    destruct items as [| item0 items0]; [now exists [] |].
    apply (collect_sources_total _ Hok).
Qed.

Lemma source_list_from_map_witness :
  derived_from_map (self tv_on)
  /\ (forall source_list,
         _get_source_list_from_map (self tv_on) = inr source_list ->
         In DIGITAL_TV source_list /\ In "HDMI1" source_list)
  /\ exists source_list,
       _get_source_list_from_map (upd_source_list_map uppercase_sources tv)
       = inr source_list.
Proof.
  pose proof source_list_from_map as [Hupdate [Hlist Htotal]].
  split; [| split].
  - exact (Hupdate None (sample_env living_room 0) (fresh tv) living_room
             eq_refl eq_refl).
  - intros source_list Hsources.
    destruct (Hlist (self tv_on) _ source_list eq_refl Hsources)
      as [Hdtv [_ Hother]].
    split.
    + apply (Hdtv (JObj [("id", JStr "dtv"); ("name", JStr "TV")]) "dtv");
        [left; reflexivity | reflexivity | discriminate | reflexivity].
    + apply (Hother (JObj [("id", JStr "HDMI1"); ("name", JStr "PlayStation")])
               "HDMI1");
        [right; left; reflexivity | reflexivity | discriminate | discriminate].
  - exact (Htotal (upd_source_list_map uppercase_sources tv) _ eq_refl eq_refl).
Defined.

(** ** Selecting a source *)

Lemma refresh_only_sends : keeps (sends_only any_request) _device_refresh.
Proof. keeps_walk sends_side. Qed.

(** With a device id, [_async_send_command] starts by posting the command. *)
Lemma send_command_posts (data : command_body) (e : env) (w : world) :
  _device_id (self w) <> "" ->
  exists rest,
    sent (snd (_async_send_command (Some data) e w))
    = (sent w ++ Post (api_command (_device_id (self w))) data :: rest)%list.
Proof.
  intros Hid. apply String.eqb_neq in Hid.
  unfold _async_send_command, bind at 1, get_self. rewrite Hid.
  unfold request_json, bind, send. fold (api_command (_device_id (self w))).
  set (r := Post (api_command (_device_id (self w))) data).
  set (w1 := {| self := self w; sent := (sent w ++ [r])%list |}).
  assert (Hstop : sent w1 = (sent w ++ r :: [])%list) by reflexivity.
  destruct (server e (List.length (sent w)) r) as [x | status body];
    [now exists [] |].
  destruct (400 <=? status)%Z; [now exists [] |].
  destruct body as [x | j]; [now exists [] |]. simpl.
  destruct (refresh_only_sends e w1) as [rest [Hrest _]].
  exists rest. rewrite Hrest. simpl. now rewrite <- app_assoc.
Qed.

Lemma send_command_keeps_source (data_cmd : option command_body) :
  keeps (same (fun c => (_source c, _channel c, _channel_name c, hold c)))
    (_async_send_command data_cmd).
Proof. keeps_walk same_side. Qed.

Lemma set_source_same (source : string) (c : client) :
  _source c = JStr source -> _set_source source c = c.
Proof.
  intros H. unfold _set_source. rewrite H. simpl.
  now rewrite String.eqb_refl.
Qed.

Lemma set_source_device_id (source : string) (c : client) :
  _device_id (_set_source source c) = _device_id c.
Proof. unfold _set_source. now destruct (negb _). Qed.

Lemma select_source_run (source : string) (e : env) (w : world) :
  async_select_source source e w
  = _async_send_command
      (Some (_command COMMAND_SET_SOURCE (Some [JStr source]))) e
      {| self := _set_source source (self w); sent := sent w |}.
Proof. reflexivity. Qed.

(** C10.  [async_select_source] with the source that is already cached leaves
    source, channel, channel name and the hold latch as they are.  Whether the
    source is the cached one or not, on a client that has a device id the
    command is posted: it is the first request of the call. *)
Theorem select_cached_source (source : string) (e : env) (w : world) :
  let w' := snd (async_select_source source e w) in
  (_source (self w) = JStr source ->
   _source (self w') = _source (self w)
   /\ _channel (self w') = _channel (self w)
   /\ _channel_name (self w') = _channel_name (self w)
   /\ _is_forced_val (self w') = _is_forced_val (self w)
   /\ _forced_count (self w') = _forced_count (self w))
  /\ (_device_id (self w) <> "" ->
      exists rest,
        sent w'
        = (sent w
           ++ Post (api_command (_device_id (self w)))
                (_command COMMAND_SET_SOURCE (Some [JStr source]))
           :: rest)%list).
Proof.
  intros w'. subst w'. rewrite select_source_run.
  split.
  - intros Hsame. rewrite (set_source_same source (self w) Hsame).
    pose proof (send_command_keeps_source
                  (Some (_command COMMAND_SET_SOURCE (Some [JStr source])))
                  e {| self := self w; sent := sent w |}) as H.
    unfold same, hold in H. simpl in H. injection H as H1 H2 H3 H4 H5.
    auto.
  - intros Hid.
    pose proof (send_command_posts
                  (_command COMMAND_SET_SOURCE (Some [JStr source])) e
                  {| self := _set_source source (self w); sent := sent w |})
      as H.
    simpl in H. rewrite set_source_device_id in H. now apply H.
Qed.

Lemma select_cached_source_witness :
  let e := sample_env living_room 1000 in
  let w' := snd (async_select_source "HDMI2" e tv_on) in
  (_channel (self w') = JStr "5"
   /\ _channel_name (self w') = JStr "BBC"
   /\ _is_forced_val (self w') = false)
  /\ exists rest,
       sent w'
       = (sent tv_on
          ++ Post (api_command "tv1")
               (_command COMMAND_SET_SOURCE (Some [JStr "HDMI2"]))
          :: rest)%list.
Proof.
  intros e w'.
  destruct (select_cached_source "HDMI2" e tv_on) as [Hsame Hpost].
  split.
  - destruct (Hsame eq_refl) as [_ [H1 [H2 [H3 _]]]].
    split; [exact H1 | split; [exact H2 | exact H3]].
  - apply Hpost. discriminate.
Defined.

Lemma post_weaken {A : Type} (m : M A) (e : env) (w : world)
  (Q Q' : result A -> world -> Prop) :
  post m e w Q -> (forall r w', Q r w' -> Q' r w') -> post m e w Q'.
Proof. intros H HQ. apply HQ, H. Qed.

Lemma post_and {A : Type} (m : M A) (e : env) (w : world)
  (Q1 Q2 : result A -> world -> Prop) :
  post m e w Q1 -> post m e w Q2 ->
  post m e w (fun r w' => Q1 r w' /\ Q2 r w').
Proof. intros H1 H2. split; assumption. Qed.

Lemma fetch_keeps_choice (use_channel_info : option bool) :
  keeps (same local_choice) (fetch_states use_channel_info).
Proof. keeps_walk same_side. Qed.

Lemma store_keeps_choice (data : json) :
  keeps (same (fun c => (local_choice c, _use_channel_info c)))
    (store_status data).
Proof. keeps_walk same_side. Qed.

Lemma store_status_returns (data : json) (e : env) (w : world) :
  post (store_status data) e w
    (fun r _ => forall dev_data,
         r = inr dev_data -> dict_get data "main" (JObj []) = inr dev_data).
Proof.
  unfold store_status. post_step. post_step.
  destruct (dict_get data "main" (JObj [])) as [x | dev_data]; [discriminate |].
  apply post_skip; [discriminate | intros u1 w1].
  apply post_skip; [discriminate | intros u2 w2].
  apply post_skip; [discriminate | intros u3 w3].
  apply post_ret. now intros dev [= <-].
Qed.

Lemma set_source_new (source : string) (c : client) :
  eq_str (_source c) source = false ->
  local_choice (_set_source source c)
  = (JStr source, JStr "", JStr "", (true, 0%Z)).
Proof. intros H. unfold _set_source. now rewrite H. Qed.

(** While the latch is armed, an update leaves source, channel and channel
    name alone; when it runs to its end the latch has counted one poll. *)
Lemma update_holds_choice (use_channel_info : option bool) (e : env)
  (w : world) :
  hold (self w) = (true, 0%Z) ->
  post (async_device_update use_channel_info) e w
    (fun r w' =>
       (_source (self w'), _channel (self w'), _channel_name (self w'))
       = (_source (self w), _channel (self w), _channel_name (self w))
       /\ (forall data,
              fst (fetch_states use_channel_info e w) = inr (Some data) ->
              r = inr tt -> hold (self w') = (true, 1%Z))).
Proof.
  intros Hhold. unfold hold in Hhold. injection Hhold as Hforced0 Hcount0.
  pose proof (fetch_keeps_choice use_channel_info e w) as Hfetched.
  unfold same, local_choice, hold in Hfetched.
  destruct (fetch_states use_channel_info e w) as [r0 w1] eqn:Hfetch.
  simpl in Hfetched. rewrite Hforced0, Hcount0 in Hfetched.
  injection Hfetched as Hsource Hchannel Hname Hforced1 Hcount1.
  destruct r0 as [x | [data |]].
  - unfold post, async_device_update, bind. rewrite Hfetch. simpl.
    split; [congruence | discriminate].
  - apply (post_update _ _ _ data); [now rewrite Hfetch |].
    rewrite Hfetch. simpl. post_step.
    apply (post_keeps _ _ _ _ _ (store_keeps_choice data)).
    intros r w2 Hstored. unfold same, local_choice, hold in Hstored.
    rewrite Hforced1, Hcount1 in Hstored.
    injection Hstored as Hs Hc Hn Hforced Hcount _.
    destruct r as [x | dev_data].
    + split; [congruence | discriminate].
    + unfold adopt_reported. post_step. post_step.
      rewrite Hforced, Hcount. simpl. post_step. cbn [self sent].
      split; [simpl; congruence |].
      intros _ _ _. unfold hold. simpl. now rewrite Hforced, Hcount.
  - unfold post, async_device_update, bind. rewrite Hfetch. simpl.
    split; [congruence | discriminate].
Qed.

(** Once the latch is released, an update that runs to its end stores the
    source, the channel and the channel name of the document. *)
Lemma update_adopts (use_channel_info : option bool) (e : env) (w : world)
  (data : json) :
  (_is_forced_val (self w) && (_forced_count (self w) <=? 0)%Z) = false ->
  fst (fetch_states use_channel_info e w) = inr (Some data) ->
  post (async_device_update use_channel_info) e w
    (fun r w' =>
       r = inr tt ->
       exists dev_data device_source device_tv_chan device_tv_chan_name,
         dict_get data "main" (JObj []) = inr dev_data
         /\ field_value dev_data "inputSource" (JStr "") = inr device_source
         /\ field_value dev_data "tvChannel" (JStr "") = inr device_tv_chan
         /\ field_value dev_data "tvChannelName" (JStr "")
            = inr device_tv_chan_name
         /\ normalize_source device_source = inr (_source (self w'))
         /\ _channel (self w')
            = (if _use_channel_info (self w') then device_tv_chan
               else JStr "")
         /\ _channel_name (self w')
            = (if _use_channel_info (self w') then device_tv_chan_name
               else JStr "")).
Proof.
  intros Hreleased Hfetch.
  pose proof (fetch_keeps_choice use_channel_info e w) as Hfetched.
  unfold same, local_choice, hold in Hfetched.
  injection Hfetched as _ _ _ Hforced Hcount.
  rewrite <- Hforced, <- Hcount in Hreleased.
  apply (post_update _ _ _ data); [exact Hfetch |].
  set (w1 := snd (fetch_states use_channel_info e w)) in *.
  post_step.
  apply (post_weaken _ _ _ _ _
           (post_and (store_status data) e w1
              (fun _ w' =>
                 same (fun c => (local_choice c, _use_channel_info c)) e w1 w')
              _ (store_keeps_choice data e w1)
              (store_status_returns data e w1))).
  intros r w2 [Hstored Hmain]. unfold same, local_choice, hold in Hstored.
  injection Hstored as _ _ _ Hf Hc _.
  rewrite <- Hf, <- Hc in Hreleased.
  destruct r as [x | dev_data]; [discriminate |].
  specialize (Hmain dev_data eq_refl).
  unfold adopt_reported. post_step. post_step. rewrite Hreleased.
  repeat post_step.
  destruct (field_value dev_data "inputSource" (JStr ""))
    as [x | device_source] eqn:Hsource; [discriminate |].
  repeat post_step.
  destruct (field_value dev_data "tvChannel" (JStr ""))
    as [x | device_tv_chan] eqn:Hchan; [discriminate |].
  repeat post_step.
  destruct (field_value dev_data "tvChannelName" (JStr ""))
    as [x | device_tv_chan_name] eqn:Hname; [discriminate |].
  repeat post_step.
  destruct (normalize_source device_source) as [x | stored] eqn:Hstored;
    [discriminate |].
  repeat post_step.
  destruct (_use_channel_info _) eqn:Hflag; repeat post_step; intros _;
    exists dev_data, device_source, device_tv_chan, device_tv_chan_name;
    simpl in *; rewrite Hflag; auto 10.
Qed.

(** C1, counterexample.  The client does not use channel information.  After
    [async_select_source("HDMI1")] and two updates that both run to their end
    on a document reporting channel "5" and channel name "BBC", the second
    update has stored the reported source but not the reported channel nor
    the channel name: both are empty. *)
Lemma select_source_adoption_counterexample :
  let e := sample_env living_room 0 in
  let w0 := snd (async_select_source "HDMI1" e (fresh tv_without_channels)) in
  let w1 := snd (async_device_update None e w0) in
  let w2 := snd (async_device_update None e w1) in
  eq_str (_source tv_without_channels) "HDMI1" = false
  /\ fst (fetch_states None e w0) = inr (Some living_room)
  /\ fst (async_device_update None e w0) = inr tt
  /\ fst (fetch_states None e w1) = inr (Some living_room)
  /\ fst (async_device_update None e w1) = inr tt
  /\ field_value living_room_main "tvChannel" (JStr "") = inr (JStr "5")
  /\ field_value living_room_main "tvChannelName" (JStr "") = inr (JStr "BBC")
  /\ _source (self w2) = JStr "HDMI2"
  /\ _channel (self w2) = JStr ""
  /\ _channel_name (self w2) = JStr ""
  /\ _channel (self w2) <> JStr "5"
  /\ _channel_name (self w2) <> JStr "BBC".
Proof. vm_compute. repeat split; discriminate. Qed.

(** C1, amended.  On a client whose cached source is not [source],
    [async_select_source source] stores [source] and empties channel and
    channel name, whatever becomes of the command.  The next update leaves
    the three values alone, whatever the document reports.  When that update
    and the one after it both get a state document and run to their end, the
    second one stores what its document reports: the source (with
    "digitalTv" in its constant spelling) and, when the client uses channel
    information, the channel and the channel name, which are empty
    otherwise. *)
Theorem select_source_held_one_poll (source : string) (e0 e1 e2 : env)
  (a1 a2 : option bool) (w : world) (d1 d2 : json) :
  eq_str (_source (self w)) source = false ->
  let w0 := snd (async_select_source source e0 w) in
  let w1 := snd (async_device_update a1 e1 w0) in
  let w2 := snd (async_device_update a2 e2 w1) in
  (_source (self w0), _channel (self w0), _channel_name (self w0))
  = (JStr source, JStr "", JStr "")
  /\ (_source (self w1), _channel (self w1), _channel_name (self w1))
     = (JStr source, JStr "", JStr "")
  /\ (fst (fetch_states a1 e1 w0) = inr (Some d1) ->
      fst (async_device_update a1 e1 w0) = inr tt ->
      fst (fetch_states a2 e2 w1) = inr (Some d2) ->
      fst (async_device_update a2 e2 w1) = inr tt ->
      adopted d2 (self w2)).
Proof.
  intros Hnew w0 w1 w2.
  assert (H0 : local_choice (self w0)
               = (JStr source, JStr "", JStr "", (true, 0%Z))).
  { subst w0. rewrite select_source_run.
    rewrite <- (set_source_new source (self w) Hnew).
    apply (send_command_keeps_source _ e0
             {| self := _set_source source (self w); sent := sent w |}). }
  unfold local_choice in H0. injection H0 as Hs0 Hc0 Hn0 Hforced0 Hcount0.
  assert (Hhold0 : hold (self w0) = (true, 0%Z))
    by (unfold hold; now rewrite Hforced0, Hcount0).
  destruct (update_holds_choice a1 e1 w0 Hhold0) as [Hkept Hcounted].
  fold w1 in Hkept, Hcounted. rewrite Hs0, Hc0, Hn0 in Hkept.
  split; [congruence |]. split; [exact Hkept |].
  intros Hfetch1 Hend1 Hfetch2 Hend2.
  specialize (Hcounted d1 Hfetch1 Hend1). unfold hold in Hcounted.
  injection Hcounted as Hforced1 Hcount1.
  apply (update_adopts a2 e2 w1 d2); [| exact Hfetch2 | exact Hend2].
  now rewrite Hforced1, Hcount1.
Qed.

Lemma select_source_held_one_poll_witness :
  let e := sample_env living_room 0 in
  let w0 := snd (async_select_source "HDMI1" e (fresh tv)) in
  let w1 := snd (async_device_update None e w0) in
  let w2 := snd (async_device_update None e w1) in
  (_source (self w0), _channel (self w0), _channel_name (self w0))
  = (JStr "HDMI1", JStr "", JStr "")
  /\ (_source (self w1), _channel (self w1), _channel_name (self w1))
     = (JStr "HDMI1", JStr "", JStr "")
  /\ adopted living_room (self w2).
Proof.
  intros e w0 w1 w2.
  destruct (select_source_held_one_poll "HDMI1" e e e None None (fresh tv)
              living_room living_room eq_refl)
    as [H0 [H1 H2]].
  split; [exact H0 |]. split; [exact H1 |].
  exact (H2 eq_refl eq_refl eq_refl eq_refl).
Defined.

(** ** The refresh trigger *)

Lemma refresh_triggers_app (l1 l2 : list request) :
  refresh_triggers (l1 ++ l2) = (refresh_triggers l1 + refresh_triggers l2)%nat.
Proof. unfold refresh_triggers. now rewrite filter_app, length_app. Qed.

Lemma due_just_run (e : env) (c : client) :
  _throttle c = Some (utcnow e) -> due e c = false.
Proof.
  intros H. unfold due. rewrite H. rewrite Z.sub_diag. reflexivity.
Qed.

#[export] Instance throttled_stepwise : Stepwise throttled.
Proof.
  split; unfold throttled.
  - intros e w. exists []. rewrite app_nil_r. split; [reflexivity |].
    left. now split.
  - intros e w1 w2 w3 [l1 [E1 H1]] [l2 [E2 H2]].
    exists (l1 ++ l2)%list. rewrite E2, E1, app_assoc. split; [reflexivity |].
    rewrite refresh_triggers_app.
    destruct H1 as [[N1 T1] | [N1 [D1 T1]]], H2 as [[N2 T2] | [N2 [D2 T2]]].
    + left. split; [lia | congruence].
    + right. split; [lia |]. split; [| exact T2].
      unfold due in *. now rewrite <- T1.
    + right. split; [lia |]. split; [exact D1 | congruence].
    + rewrite (due_just_run e (self w2) T1) in D2. discriminate.
Qed.

Ltac throttled_side :=
  intros; unfold throttled, _set_source; simpl;
  repeat match goal with
         | |- context [if ?b then _ else _] => destruct b
         end;
  first [ eexists [_]; split; [reflexivity | left; split; reflexivity]
        | exists []; rewrite app_nil_r; split;
          [reflexivity | left; split; reflexivity] ].

Lemma refresh_throttled : keeps throttled _device_refresh.
Proof.
  intros e w. unfold _device_refresh, Throttle. fold (due e (self w)).
  destruct (due e (self w)) eqn:Hdue.
  - unfold _device_refresh_body, bind, get_self, send, assign. cbn [self sent].
    unfold throttled. cbn [_device_id _use_channel_info upd_throttle].
    destruct (_device_id (self w) =? "").
    { exists []. rewrite app_nil_r. split; [reflexivity |]. right. auto. }
    destruct (_use_channel_info (self w)).
    2:{ exists []. rewrite app_nil_r. split; [reflexivity |]. right. auto. }
    eexists [_].
    destruct (server e _ _) as [x | status body]; cbn [snd sent self raise];
      [split; [reflexivity | right; auto] |].
    destruct (status =? 409)%Z; cbn [snd sent self];
      [split; [reflexivity | right; auto] |].
    destruct (400 <=? status)%Z; cbn [snd sent self raise];
      [split; [reflexivity | right; auto] |].
    destruct body as [x | j]; cbn; split; try reflexivity; right; auto.
  - apply stay.
Qed.

Lemma update_throttled (use_channel_info : option bool) :
  keeps throttled (async_device_update use_channel_info).
Proof.
  repeat first [ apply refresh_throttled | keeps_rule throttled_side ].
Qed.

Lemma commands_throttled (k : command_call) : keeps throttled (run_command k).
Proof.
  repeat first [ apply refresh_throttled | keeps_rule throttled_side ].
Qed.

(** C9.  Two updates made within 10 seconds of each other issue between them
    at most one refresh trigger.  A call of [_device_refresh] that comes
    no more than 10 seconds after the last one that ran is suppressed: it
    sends no request and leaves the client as it is. *)
Theorem refresh_trigger_rate_limited :
  (forall (a1 a2 : option bool) (e1 e2 : env) (w : world),
      (utcnow e1 <= utcnow e2 <= utcnow e1 + MIN_TIME_BETWEEN_UPDATES)%Z ->
      let w1 := snd (async_device_update a1 e1 w) in
      let w2 := snd (async_device_update a2 e2 w1) in
      exists l1 l2,
        sent w1 = (sent w ++ l1)%list
        /\ sent w2 = (sent w1 ++ l2)%list
        /\ (refresh_triggers (l1 ++ l2) <= 1)%nat)
  /\ (forall (e : env) (w : world) (last : Z),
         _throttle (self w) = Some last ->
         (utcnow e - last <= MIN_TIME_BETWEEN_UPDATES)%Z ->
         _device_refresh e w = (inr tt, w)).
Proof.
  split.
  - intros a1 a2 e1 e2 w Hwindow w1 w2.
    destruct (update_throttled a1 e1 w) as [l1 [E1 H1]].
    destruct (update_throttled a2 e2 w1) as [l2 [E2 H2]].
    fold w1 in E1, H1. fold w2 in E2, H2.
    exists l1, l2. split; [exact E1 |]. split; [exact E2 |].
    rewrite refresh_triggers_app.
    destruct H1 as [[N1 T1] | [N1 [D1 T1]]], H2 as [[N2 T2] | [N2 [D2 T2]]];
      try lia.
    unfold due in D2. rewrite T1 in D2.
    apply Z.gtb_lt in D2. lia.
  - intros e w last Hlast Hrecent. unfold _device_refresh, Throttle.
    rewrite Hlast.
    destruct (utcnow e - last >? MIN_TIME_BETWEEN_UPDATES)%Z eqn:Hdue;
      [| reflexivity].
    apply Z.gtb_lt in Hdue. lia.
Qed.

Lemma refresh_trigger_rate_limited_witness :
  let e1 := sample_env living_room 0 in
  let e2 := sample_env living_room 9000000 in
  let w1 := snd (async_device_update None e1 (fresh tv)) in
  let w2 := snd (async_device_update None e2 w1) in
  (exists l1 l2,
      sent w1 = (sent (fresh tv) ++ l1)%list
      /\ sent w2 = (sent w1 ++ l2)%list
      /\ (refresh_triggers (l1 ++ l2) <= 1)%nat)
  /\ _device_refresh e2 w1 = (inr tt, w1).
Proof.
  intros e1 e2 w1 w2. split.
  - apply (proj1 refresh_trigger_rate_limited None None e1 e2 (fresh tv)).
    vm_compute. split; discriminate.
  - apply (proj2 refresh_trigger_rate_limited e2 w1 0%Z).
    + reflexivity.
    + vm_compute. discriminate.
Defined.

Example first_update_triggers_once :
  refresh_triggers (sent tv_on) = 1%nat.
Proof. reflexivity. Qed.

(** ** Commands *)

Lemma commands_keep_polled (k : command_call) :
  keeps (same polled) (run_command k).
Proof. keeps_walk same_side. Qed.

Lemma refresh_keeps_telemetry :
  keeps (same (fun c => (telemetry c, hold c, _prev_state c))) _device_refresh.
Proof. keeps_walk same_side. Qed.

Lemma refresh_only_posts : keeps (sends_only is_post) _device_refresh.
Proof. keeps_walk sends_side. Qed.

(** C8, counterexample.  The television is on and its state was cached by a
    first update; the device now reports another volume and another source.
    [async_turn_on] succeeds: it posts the command and the refresh trigger and
    nothing else.  The state document is not fetched and the cache is what it
    was, whereas an update in the same circumstances stores the new volume. *)
Lemma command_refetch_counterexample :
  let e := sample_env living_room_later 20000000 in
  let r := async_turn_on e tv_on in
  fst r = inr tt
  /\ sent (snd r)
     = (sent tv_on
        ++ [Post (api_command "tv1") (_command COMMAND_POWER_ON None);
            Post (api_command "tv1") (_command COMMAND_REFRESH None)])%list
  /\ ~ In (Get ((API_DEVICES ++ "/" ++ "tv1") ++ "/states"))
         [Post (api_command "tv1") (_command COMMAND_POWER_ON None);
          Post (api_command "tv1") (_command COMMAND_REFRESH None)]
  /\ telemetry (self (snd r)) = telemetry (self tv_on)
  /\ _volume (self (snd r)) = (25 # 100)%Q
  /\ _volume (self (snd (async_device_update None e tv_on))) = (40 # 100)%Q.
Proof.
  vm_compute. repeat split.
  intros [H | [H | []]]; discriminate.
Qed.

(** A request that fails raises and is logged. *)
Lemma request_json_refused (r : request) (e : env) (w : world) (x : exn) :
  refused (server e (List.length (sent w)) r) = Some x ->
  request_json r e w
  = (inl x, {| self := self w; sent := (sent w ++ [r])%list |}).
Proof.
  intros Hanswer. unfold request_json, bind, send. unfold refused in Hanswer.
  destruct (server e _ _) as [y | status body].
  - injection Hanswer as ->. reflexivity.
  - destruct (400 <=? status)%Z; [injection Hanswer as <-; reflexivity |].
    destruct body as [y | j]; [| discriminate].
    injection Hanswer as ->. reflexivity.
Qed.

(** A request that succeeds returns the document and is logged. *)
Lemma request_json_accepted (r : request) (e : env) (w : world) :
  refused (server e (List.length (sent w)) r) = None ->
  exists j,
    request_json r e w
    = (inr j, {| self := self w; sent := (sent w ++ [r])%list |}).
Proof.
  intros Hanswer. unfold request_json, bind, send. unfold refused in Hanswer.
  destruct (server e _ _) as [y | status body]; [discriminate |].
  destruct (400 <=? status)%Z; [discriminate |].
  destruct body as [y | j]; [discriminate |]. now exists j.
Qed.

(** The run of [_device_refresh] on a client with a device id. *)
Lemma refresh_run (e : env) (w : world) :
  _device_id (self w) <> "" ->
  _device_refresh e w
  = if due e (self w)
    then
      let c1 := upd_throttle (Some (utcnow e)) (self w) in
      if _use_channel_info (self w)
      then
        let trigger :=
          Post (api_command (_device_id (self w)))
            (_command COMMAND_REFRESH None) in
        let w1 := {| self := c1; sent := (sent w ++ [trigger])%list |} in
        match server e (List.length (sent w)) trigger with
        | Failed x => (inl x, w1)
        | Reply status body =>
            if (status =? 409)%Z
            then (inr tt, {| self := upd_state STATE_OFF c1;
                             sent := (sent w ++ [trigger])%list |})
            else if (400 <=? status)%Z then (inl ClientResponseError, w1)
            else match body with
                 | inl x => (inl x, w1)
                 | inr _ => (inr tt, w1)
                 end
        end
      else (inr tt, {| self := c1; sent := sent w |})
    else (inr tt, w).
Proof.
  intros Hid. apply String.eqb_neq in Hid.
  unfold _device_refresh, Throttle. fold (due e (self w)).
  destruct (due e (self w)); [| reflexivity].
  unfold _device_refresh_body, bind, get_self, send. cbn [self sent].
  cbn [_device_id _use_channel_info upd_throttle]. rewrite Hid.
  fold (api_command (_device_id (self w))). cbv zeta.
  destruct (_use_channel_info (self w)); [| reflexivity].
  destruct (server e _ _) as [x | status body]; [reflexivity |].
  destruct (status =? 409)%Z; [reflexivity |].
  destruct (400 <=? status)%Z; [reflexivity |].
  now destruct body.
Qed.

(** What [_device_refresh] does on a client with a device id. *)
Lemma refresh_outcome (e : env) (w : world) :
  _device_id (self w) <> "" ->
  let r := _device_refresh e w in
  let trigger :=
    Post (api_command (_device_id (self w))) (_command COMMAND_REFRESH None) in
  if due e (self w) && _use_channel_info (self w)
  then
    let answer := server e (List.length (sent w)) trigger in
    sent (snd r) = (sent w ++ [trigger])%list
    /\ fst r = match trigger_refused answer with
               | Some x => inl x
               | None => inr tt
               end
    /\ _state (self (snd r))
       = if is_conflict answer then STATE_OFF else _state (self w)
  else
    sent (snd r) = sent w /\ fst r = inr tt
    /\ _state (self (snd r)) = _state (self w).
Proof.
  intros Hid. cbv zeta. rewrite (refresh_run e w Hid).
  destruct (due e (self w)); cbn [andb]; [| now split].
  destruct (_use_channel_info (self w)); cbv zeta; [| now split].
  unfold trigger_refused, refused, is_conflict.
  destruct (server e _ _) as [x | status body]; [now split |].
  destruct (status =? 409)%Z; [now split |].
  destruct (400 <=? status)%Z; [now split |].
  destruct body; now split.
Qed.

(** [_async_send_command] posts the command and goes on with the refresh. *)
Lemma send_command_followed (data : command_body) (e : env) (w : world) :
  _device_id (self w) <> "" ->
  followed_by_refresh e w data (_async_send_command (Some data) e w).
Proof.
  intros Hid. unfold followed_by_refresh. cbv zeta.
  set (command := Post (api_command (_device_id (self w))) data).
  assert (Hrun :
            _async_send_command (Some data) e w
            = (request_json command ;; _device_refresh) e w).
  { unfold _async_send_command, bind at 1, get_self.
    now rewrite (proj2 (String.eqb_neq _ _) Hid). }
  rewrite Hrun. unfold bind.
  destruct (refused (server e (List.length (sent w)) command)) as [x |]
    eqn:Hanswer.
  - now rewrite (request_json_refused command e w x Hanswer).
  - destruct (request_json_accepted command e w Hanswer) as [j ->].
    set (w1 := {| self := self w; sent := (sent w ++ [command])%list |}).
    pose proof (refresh_outcome e w1 Hid) as Hrefresh. cbv zeta in Hrefresh.
    cbn [self sent w1] in Hrefresh. fold w1 in Hrefresh.
    rewrite length_app in Hrefresh. cbn [List.length] in Hrefresh.
    destruct (due e (self w) && _use_channel_info (self w)).
    + destruct Hrefresh as [Hsent Hrest]. split; [| exact Hrest].
      rewrite Hsent, <- app_assoc. reflexivity.
    + destruct Hrefresh as [Hsent Hrest]. split; [| exact Hrest].
      exact Hsent.
Qed.

(** What [followed_by_refresh] reads of the world the command starts from. *)
Lemma followed_by_refresh_from (e : env) (w0 w : world) (data : command_body)
  (r : result unit * world) :
  sent w0 = sent w -> _device_id (self w0) = _device_id (self w) ->
  _throttle (self w0) = _throttle (self w) ->
  _use_channel_info (self w0) = _use_channel_info (self w) ->
  _state (self w0) = _state (self w) ->
  followed_by_refresh e w0 data r -> followed_by_refresh e w data r.
Proof.
  unfold followed_by_refresh, due. now intros -> -> -> -> ->.
Qed.

(** An assignment after the command that leaves the state alone. *)
Lemma followed_by_refresh_then (e : env) (w : world) (data : command_body)
  (m : M unit) (f : client -> client) :
  (forall c, _state (f c) = _state c) ->
  followed_by_refresh e w data (m e w) ->
  followed_by_refresh e w data ((m ;; assign f) e w).
Proof.
  intros Hf. unfold followed_by_refresh, bind, assign. cbv zeta.
  destruct (m e w) as [[x | []] w1]; cbn [fst snd self sent];
    [exact (fun H => H) |].
  rewrite Hf. exact (fun H => H).
Qed.

Lemma send_command_outcome (data_cmd : option command_body) (e : env)
  (w : world) :
  _device_id (self w) <> "" ->
  let r := _async_send_command data_cmd e w in
  sent (snd r) = sent w \/ exists data, followed_by_refresh e w data r.
Proof.
  intros Hid. destruct data_cmd as [data |].
  - right. exists data. now apply send_command_followed.
  - left. unfold _async_send_command, bind, get_self.
    now destruct (_device_id (self w) =? "").
Qed.

Lemma set_mode_outcome (data : command_body) (f : client -> client)
  (e : env) (w : world) :
  _device_id (self w) <> "" ->
  (forall c, _state (f c) = _state c) ->
  let r := (_async_send_command (Some data) ;; assign f) e w in
  sent (snd r) = sent w \/ exists data, followed_by_refresh e w data r.
Proof.
  intros Hid Hf. right. exists data.
  now apply followed_by_refresh_then, send_command_followed.
Qed.

Lemma set_sound_mode_run (mode : string) (e : env) (w : world) :
  async_set_sound_mode mode e w
  = if negb (STStatus_eqb (_state (self w)) STATE_ON) then (inr tt, w)
    else
      match and_then (py_iter (_sound_mode_list_map (self w)))
              (fun items => find_mode_id items mode) with
      | inl x => (inl x, w)
      | inr JNull => (inl InvalidSmartThingsSoundMode, w)
      | inr mode_id =>
          (_async_send_command
             (Some (_command COMMAND_SOUND_MODE (Some [mode_id]))) ;;
           assign (upd_sound_mode (JStr mode))) e w
      end.
Proof.
  unfold async_set_sound_mode, bind at 1, get_self.
  destruct (negb (STStatus_eqb (_state (self w)) STATE_ON)); [reflexivity |].
  unfold bind at 1, lift.
  destruct (py_iter (_sound_mode_list_map (self w))) as [x | items];
    [reflexivity |].
  unfold ret at 1. cbv beta iota. cbn [and_then]. unfold bind at 1.
  destruct (find_mode_id items mode) as [x | mode_id]; [reflexivity |].
  unfold ret at 1. cbv beta iota. now destruct mode_id.
Qed.

Lemma set_picture_mode_run (mode : string) (e : env) (w : world) :
  async_set_picture_mode mode e w
  = if negb (STStatus_eqb (_state (self w)) STATE_ON) then (inr tt, w)
    else
      match and_then (py_iter (_picture_mode_list_map (self w)))
              (fun items => find_mode_id items mode) with
      | inl x => (inl x, w)
      | inr JNull => (inl InvalidSmartThingsPictureMode, w)
      | inr mode_id =>
          (_async_send_command
             (Some (_command COMMAND_PICTURE_MODE (Some [mode_id]))) ;;
           assign (upd_picture_mode (JStr mode))) e w
      end.
Proof.
  unfold async_set_picture_mode, bind at 1, get_self.
  destruct (negb (STStatus_eqb (_state (self w)) STATE_ON)); [reflexivity |].
  unfold bind at 1, lift.
  destruct (py_iter (_picture_mode_list_map (self w))) as [x | items];
    [reflexivity |].
  unfold ret at 1. cbv beta iota. cbn [and_then]. unfold bind at 1.
  destruct (find_mode_id items mode) as [x | mode_id]; [reflexivity |].
  unfold ret at 1. cbv beta iota. now destruct mode_id.
Qed.

Lemma set_volume_run (command : string) (e : env) (w : world) :
  (e0 <- ask ;;
   level <- lift (py_int e0 command) ;;
   _async_send_command
     (Some (_command COMMAND_SET_VOLUME (Some [JInt level])))) e w
  = match py_int e command with
    | inl x => (inl x, w)
    | inr level =>
        _async_send_command
          (Some (_command COMMAND_SET_VOLUME (Some [JInt level]))) e w
    end.
Proof. unfold bind, ask, lift. now destruct (py_int e command). Qed.

(** Every command method, on a client with a device id, sends nothing or
    posts one command and goes on as [_device_refresh] does. *)
Lemma command_outcome (k : command_call) (e : env) (w : world) :
  _device_id (self w) <> "" ->
  let r := run_command k e w in
  sent (snd r) = sent w \/ exists data, followed_by_refresh e w data r.
Proof.
  intros Hid.
  destruct k as [| | cmd_type command | source | source | mode | mode];
    cbn [run_command]; cbv zeta.
  - now apply send_command_outcome.
  - now apply send_command_outcome.
  - unfold async_send_command.
    destruct (cmd_type =? "setvolume").
    { rewrite set_volume_run.
      destruct (py_int e command) as [x | level]; [now left |].
      now apply send_command_outcome. }
    repeat match goal with
           | |- context [if ?b then _ else _] => destruct b
           end;
      try (now apply send_command_outcome); now left.
  - right. eexists. rewrite select_source_run.
    apply (followed_by_refresh_from e
             {| self := _set_source source (self w); sent := sent w |} w);
      try reflexivity;
      try (unfold _set_source; cbn [self]; now destruct (negb _)).
    apply send_command_followed. cbn [self].
    now rewrite set_source_device_id.
  - now apply send_command_outcome.
  - rewrite set_sound_mode_run.
    destruct (negb (STStatus_eqb (_state (self w)) STATE_ON)); [now left |].
    destruct (and_then _ _) as [x | mode_id]; [now left |].
    destruct mode_id; try (now left); now apply set_mode_outcome.
  - rewrite set_picture_mode_run.
    destruct (negb (STStatus_eqb (_state (self w)) STATE_ON)); [now left |].
    destruct (and_then _ _) as [x | mode_id]; [now left |].
    destruct mode_id; try (now left); now apply set_mode_outcome.
Qed.

(** The methods that post whatever the client holds do post. *)
Lemma plain_command_followed (k : command_call) (data : command_body)
  (e : env) (w : world) :
  _device_id (self w) <> "" ->
  plain_payload k = Some data ->
  followed_by_refresh e w data (run_command k e w).
Proof.
  intros Hid Hk.
  destruct k as [| | cmd_type command | source | source | mode | mode];
    cbn [plain_payload] in Hk; try discriminate; injection Hk as <-;
    cbn [run_command]; try (now apply send_command_followed).
  rewrite select_source_run.
  apply (followed_by_refresh_from e
           {| self := _set_source source (self w); sent := sent w |} w);
    try reflexivity;
    try (unfold _set_source; cbn [self]; now destruct (negb _)).
  apply send_command_followed. cbn [self]. now rewrite set_source_device_id.
Qed.

(** C8, amended.  A command method sends nothing but POST requests, among
    them at most one refresh trigger, and leaves what only a poll stores as it
    is: volume, mute, previous state, the source list and map, the lists and
    maps of the modes.  On a client with a device id it sends nothing at all
    or posts its command and, only when the command has succeeded, goes on
    with the throttled [_device_refresh]: the trigger is posted next exactly
    when the gate is open and the client uses channel information (an answer
    409 sets the state to OFF, a failure is raised), and nothing else is sent,
    so that no state document is fetched.  [async_turn_off], [async_turn_on],
    [async_select_source] and [async_select_vd_source] always post their
    command. *)
Theorem commands_trigger_refresh_only (k : command_call) (e : env) (w : world) :
  let r := run_command k e w in
  (exists l,
      sent (snd r) = (sent w ++ l)%list
      /\ forallb is_post l = true
      /\ (refresh_triggers l <= 1)%nat)
  /\ polled (self (snd r)) = polled (self w)
  /\ (_device_id (self w) <> "" ->
      (sent (snd r) = sent w \/ exists data, followed_by_refresh e w data r)
      /\ (forall data,
             plain_payload k = Some data -> followed_by_refresh e w data r)).
Proof.
  intros r. subst r. split; [| split].
  - destruct (commands_only_post k e w) as [l [El Hl]].
    destruct (commands_throttled k e w) as [l' [El' Hl']].
    exists l. split; [exact El |]. split; [exact Hl |].
    assert (l' = l) as -> by (apply (app_inv_head (sent w)); congruence).
    destruct Hl' as [[N _] | [N _]]; lia.
  - apply (commands_keep_polled k e w).
  - intros Hid. split.
    + now apply command_outcome.
    + intros data Hk. now apply plain_command_followed.
Qed.

Lemma commands_trigger_refresh_only_witness :
  let e := sample_env living_room_later 20000000 in
  let r := run_command TurnOn e tv_on in
  followed_by_refresh e tv_on (_command COMMAND_POWER_ON None) r
  /\ sent (snd r)
     = (sent tv_on
        ++ [Post (api_command "tv1") (_command COMMAND_POWER_ON None);
            Post (api_command "tv1") (_command COMMAND_REFRESH None)])%list.
Proof.
  intros e r.
  destruct (commands_trigger_refresh_only TurnOn e tv_on) as [_ [_ Hr]].
  split; [| reflexivity].
  refine (proj2 (Hr _) (_command COMMAND_POWER_ON None) eq_refl).
  discriminate.
Defined.

(** * More of the client *)

(** ** Discovery *)

Lemma key_eqb_class (k1 k2 : dict_key) :
  key_eqb k1 k2 = true <-> key_class k1 = key_class k2.
Proof.
  unfold key_eqb. destruct (key_class k1) as [s1 | n1],
    (key_class k2) as [s2 | n2]; split; try discriminate.
  - intros H. apply String.eqb_eq in H. now subst.
  - intros [= ->]. apply String.eqb_refl.
  - intros H. apply Z.eqb_eq in H. now subst.
  - intros [= ->]. apply Z.eqb_refl.
Qed.

Lemma key_eqb_refl (k : dict_key) : key_eqb k k = true.
Proof. now apply key_eqb_class. Qed.

Lemma key_eqb_sym (k1 k2 : dict_key) : key_eqb k1 k2 = key_eqb k2 k1.
Proof.
  destruct (key_eqb k1 k2) eqn:H12, (key_eqb k2 k1) eqn:H21; try reflexivity.
  - apply key_eqb_class in H12. symmetry in H12. apply key_eqb_class in H12.
    congruence.
  - apply key_eqb_class in H21. symmetry in H21. apply key_eqb_class in H21.
    congruence.
Qed.

Lemma key_eqb_trans (k1 k2 k3 : dict_key) :
  key_eqb k1 k2 = true -> key_eqb k2 k3 = true -> key_eqb k1 k3 = true.
Proof. rewrite !key_eqb_class. congruence. Qed.

(** One turn of the loop: an item that is not a dict stops the discovery, an
    accepted one is stored under its id, any other is passed over. *)
Lemma collect_devices_step (device_label : string) (dev : json)
  (rest : list json) (found : list (dict_key * device_info)) :
  collect_devices device_label (dev :: rest) found
  = if is_dict dev then
      if accepts device_label dev then
        match key_of (device_id_of dev) with
        | Some k =>
            collect_devices device_label rest
              (dict_set k (info_of dev k) found)
        | None => inl TypeError
        end
      else collect_devices device_label rest found
    else inl AttributeError.
Proof.
  destruct dev as [| b | n | s | l | fields]; try reflexivity.
  unfold accepts, info_of, device_id_of, field_or. cbn [collect_devices].
  unfold dict_get. cbn [and_then is_dict].
  destruct (lookup "deviceId" fields) as [[| b | n | s | l | fs] |];
    cbn [andb]; try reflexivity;
    unfold DEVICE_TYPE_OCF, DEVICE_TYPE_NAME_TV;
    (destruct (eq_str _ "OCF"); cbn [negb andb]; [| reflexivity]);
    (destruct (device_label =? ""); cbn [negb and_then];
     [destruct (eq_str _ "Samsung OCF TV") | destruct (eq_str _ device_label)]);
    reflexivity.
Qed.

Lemma dict_set_In (k k' : dict_key) (i v : device_info)
  (d : list (dict_key * device_info)) :
  In (k, i) (dict_set k' v d) ->
  In (k, i) d \/ (i = v /\ key_eqb k k' = true).
Proof.
  induction d as [| [k0 v0] d IH]; simpl.
  - intros [[= <- <-] | []]. right. split; [reflexivity | apply key_eqb_refl].
  - destruct (key_eqb k0 k') eqn:H0; simpl.
    + intros [[= <- <-] | Hin]; [now right | now left; right].
    + intros [Hin | Hin]; [now left; left |].
      destruct (IH Hin) as [H | H]; [now left; right | now right].
Qed.

Lemma dict_set_other (k k' : dict_key) (i v : device_info)
  (d : list (dict_key * device_info)) :
  In (k, i) d -> key_eqb k k' = false -> In (k, i) (dict_set k' v d).
Proof.
  intros Hin Hk. induction d as [| [k0 v0] d IH]; simpl; [contradiction |].
  destruct Hin as [[= -> ->] | Hin].
  - rewrite Hk. now left.
  - destruct (key_eqb k0 k'); right; [exact Hin | now apply IH].
Qed.

Lemma dict_set_has (k' : dict_key) (v : device_info)
  (d : list (dict_key * device_info)) :
  exists k, key_eqb k k' = true /\ In (k, v) (dict_set k' v d).
Proof.
  induction d as [| [k0 v0] d IH]; simpl.
  - exists k'. split; [apply key_eqb_refl | now left].
  - destruct (key_eqb k0 k') eqn:H0.
    + exists k0. split; [exact H0 | now left].
    + destruct IH as [k [Hk Hin]]. exists k. split; [exact Hk | now right].
Qed.

Lemma dict_set_key_kept (k k' : dict_key) (i v : device_info)
  (d : list (dict_key * device_info)) :
  In (k, i) d -> exists i', In (k, i') (dict_set k' v d).
Proof.
  intros Hin. induction d as [| [k0 v0] d IH]; simpl; [contradiction |].
  destruct Hin as [[= -> ->] | Hin].
  - destruct (key_eqb k k'); eexists; left; reflexivity.
  - destruct (key_eqb k0 k').
    + exists i. now right.
    + destruct (IH Hin) as [i' Hi']. exists i'. now right.
Qed.

Lemma dict_set_keys (x k' : dict_key) (v : device_info)
  (d : list (dict_key * device_info)) :
  existsb (fun entry => key_eqb (fst entry) x) (dict_set k' v d) = true ->
  existsb (fun entry => key_eqb (fst entry) x) d = true
  \/ key_eqb k' x = true.
Proof.
  induction d as [| [k0 v0] d IH]; simpl.
  - rewrite orb_false_r. now right.
  - destruct (key_eqb k0 k'); simpl; [now left |].
    destruct (key_eqb k0 x); simpl; [now left | exact IH].
Qed.

Lemma dict_set_distinct (k' : dict_key) (v : device_info)
  (d : list (dict_key * device_info)) :
  distinct_keys d = true -> distinct_keys (dict_set k' v d) = true.
Proof.
  induction d as [| [k0 v0] d IH]; simpl; [reflexivity |].
  intros H. apply andb_true_iff in H as [Hfresh Hd].
  destruct (key_eqb k0 k') eqn:H0; simpl.
  - now rewrite Hfresh, Hd.
  - rewrite (IH Hd), andb_true_r. apply negb_true_iff.
    destruct (existsb _ (dict_set k' v d)) eqn:Hex; [| reflexivity].
    apply dict_set_keys in Hex as [Hex | Hex].
    + apply negb_true_iff in Hfresh. congruence.
    + rewrite key_eqb_sym in Hex. congruence.
Qed.

(** With distinct keys, the entry of a key is the one just stored. *)
Lemma dict_set_value (k k' : dict_key) (i v : device_info)
  (d : list (dict_key * device_info)) :
  distinct_keys d = true ->
  In (k, i) (dict_set k' v d) -> key_eqb k k' = true -> i = v.
Proof.
  induction d as [| [k0 v0] d IH]; simpl.
  - now intros _ [[= <- <-] | []] _.
  - intros H. apply andb_true_iff in H as [Hfresh Hd].
    apply negb_true_iff in Hfresh.
    destruct (key_eqb k0 k') eqn:H0; simpl.
    + intros [[= <- <-] | Hin] Hk; [reflexivity |]. exfalso.
      assert (Hex : existsb (fun entry => key_eqb (fst entry) k0) d = true).
      { apply existsb_exists. exists (k, i). split; [exact Hin |]. simpl.
        apply (key_eqb_trans k k' k0 Hk). now rewrite key_eqb_sym. }
      congruence.
    + intros [[= <- <-] | Hin] Hk; [congruence | now apply IH].
Qed.

Lemma collect_devices_inv (device_label : string)
  (I : list (dict_key * device_info) -> Prop) (listing : list json) :
  forall found0 found,
    I found0 ->
    (forall dev k d,
        In dev listing -> accepts device_label dev = true ->
        key_of (device_id_of dev) = Some k ->
        I d -> I (dict_set k (info_of dev k) d)) ->
    collect_devices device_label listing found0 = inr found ->
    I found.
Proof.
  induction listing as [| dev rest IH]; intros found0 found H0 Hstep Hrun.
  - injection Hrun as <-. exact H0.
  - rewrite collect_devices_step in Hrun.
    destruct (is_dict dev); [| discriminate].
    destruct (accepts device_label dev) eqn:Haccepts.
    + destruct (key_of (device_id_of dev)) as [k |] eqn:Hkey; [| discriminate].
      apply (IH _ found) in Hrun; [exact Hrun | |].
      * apply (Hstep dev k); [now left | exact Haccepts | exact Hkey | exact H0].
      * intros dev' k' d Hin. apply Hstep. now right.
    + apply (IH found0 found H0); [| exact Hrun].
      intros dev' k' d Hin. apply Hstep. now right.
Qed.

Lemma collect_devices_key_kept (device_label : string) (listing : list json) :
  forall found0 found k i,
    collect_devices device_label listing found0 = inr found ->
    In (k, i) found0 -> exists i', In (k, i') found.
Proof.
  induction listing as [| dev rest IH]; intros found0 found k i Hrun Hin.
  - injection Hrun as <-. now exists i.
  - rewrite collect_devices_step in Hrun.
    destruct (is_dict dev); [| discriminate].
    destruct (accepts device_label dev).
    + destruct (key_of (device_id_of dev)) as [k' |]; [| discriminate].
      destruct (dict_set_key_kept k k' i (info_of dev k') found0 Hin)
        as [i1 Hi1].
      apply (IH _ _ k i1 Hrun Hi1).
    + apply (IH _ _ k i Hrun Hin).
Qed.

Lemma collect_devices_entry_kept (device_label : string) (listing : list json) :
  forall found0 found k i,
    collect_devices device_label listing found0 = inr found ->
    In (k, i) found0 ->
    (forall dev k',
        In dev listing -> accepts device_label dev = true ->
        key_of (device_id_of dev) = Some k' -> key_eqb k k' = false) ->
    In (k, i) found.
Proof.
  induction listing as [| dev rest IH]; intros found0 found k i Hrun Hin Hlater.
  - now injection Hrun as <-.
  - rewrite collect_devices_step in Hrun.
    destruct (is_dict dev); [| discriminate].
    destruct (accepts device_label dev) eqn:Haccepts.
    + destruct (key_of (device_id_of dev)) as [k' |] eqn:Hkey; [| discriminate].
      apply (IH _ _ k i Hrun).
      * apply dict_set_other; [exact Hin |].
        apply (Hlater dev k'); [now left | exact Haccepts | exact Hkey].
      * intros dev' k2 Hin'. apply Hlater. now right.
    + apply (IH _ _ k i Hrun Hin).
      intros dev' k2 Hin'. apply Hlater. now right.
Qed.

Lemma collect_devices_app (device_label : string) (before after : list json) :
  forall found0 found,
    collect_devices device_label (before ++ after) found0 = inr found ->
    exists found1,
      collect_devices device_label before found0 = inr found1
      /\ collect_devices device_label after found1 = inr found.
Proof.
  induction before as [| dev before IH]; intros found0 found Hrun.
  - now exists found0.
  - rewrite <- app_comm_cons, collect_devices_step in Hrun.
    rewrite collect_devices_step.
    destruct (is_dict dev); [| discriminate].
    destruct (accepts device_label dev); [| now apply IH].
    destruct (key_of (device_id_of dev)); [now apply IH | discriminate].
Qed.

Lemma collect_devices_total (device_label : string) (listing : list json) :
  forallb device_ok listing = true ->
  forall found0, exists found,
    collect_devices device_label listing found0 = inr found.
Proof.
  induction listing as [| dev rest IH]; intros Hok found0.
  - now exists found0.
  - simpl in Hok. apply andb_true_iff in Hok as [Hdev Hrest].
    unfold device_ok in Hdev. apply andb_true_iff in Hdev as [Hdict Hid].
    rewrite collect_devices_step, Hdict.
    destruct (accepts device_label dev) eqn:Haccepts; [| now apply IH].
    unfold accepts in Haccepts.
    destruct (device_id_of dev); try discriminate; now apply IH.
Qed.

Lemma distinct_keys_unique (d : list (dict_key * device_info)) (k : dict_key)
  (i1 i2 : device_info) :
  distinct_keys d = true -> In (k, i1) d -> In (k, i2) d -> i1 = i2.
Proof.
  induction d as [| [k0 v0] d IH]; simpl; [contradiction |].
  intros H. apply andb_true_iff in H as [Hfresh Hd].
  apply negb_true_iff in Hfresh.
  assert (Hnot : forall i, In (k0, i) d -> False).
  { intros i Hin.
    assert (existsb (fun entry => key_eqb (fst entry) k0) d = true).
    { apply existsb_exists. exists (k0, i). split; [exact Hin |].
      apply key_eqb_refl. }
    congruence. }
  intros [E1 | H1] [E2 | H2].
  - congruence.
  - injection E1 as -> _. destruct (Hnot _ H2).
  - injection E2 as -> _. destruct (Hnot _ H1).
  - now apply IH.
Qed.

Lemma get_devices_list_run (api_key device_label : string) (e : env)
  (w : world) (devices : list json) :
  lists_devices e w devices ->
  get_devices_list api_key device_label e w
  = (collect_devices device_label devices [],
     {| self := self w; sent := (sent w ++ [Get API_DEVICES])%list |}).
Proof.
  intros [status [device_list [listing [Hserved [Hstatus [Htruthy [Hitems Hiter]]]]]]].
  unfold get_devices_list, request_json, bind, send. rewrite Hserved.
  apply Z.leb_gt in Hstatus. rewrite Hstatus. simpl.
  rewrite Htruthy, Hitems. simpl. rewrite Hiter. simpl.
  now destruct (collect_devices device_label devices []).
Qed.

Lemma home_lists_devices :
  lists_devices (hub_env home_listing) (fresh tv) home_devices.
Proof.
  exists 200%Z, home_listing, (JArr home_devices). repeat split.
Qed.

(** X1.  When the listing is answered and the discovery returns, the devices
    it returns are exactly the accepted items of the listing: every entry
    has the id, name and label of an accepted item, and the id of every
    accepted item is a key of the result. *)
Theorem discovery_exact (api_key device_label : string) (e : env) (w : world)
  (devices : list json) (found : list (dict_key * device_info)) :
  lists_devices e w devices ->
  fst (get_devices_list api_key device_label e w) = inr found ->
  (forall k info,
      In (k, info) found ->
      exists dev k',
        In dev devices /\ accepts device_label dev = true
        /\ key_of (device_id_of dev) = Some k' /\ key_eqb k k' = true
        /\ info = info_of dev k')
  /\ (forall dev k',
         In dev devices -> accepts device_label dev = true ->
         key_of (device_id_of dev) = Some k' ->
         exists k info, key_eqb k k' = true /\ In (k, info) found).
Proof.
  intros Hlisted Hrun.
  rewrite (get_devices_list_run _ _ _ _ _ Hlisted) in Hrun. simpl in Hrun.
  split.
  - apply (collect_devices_inv device_label
             (fun d =>
                forall k info,
                  In (k, info) d ->
                  exists dev k',
                    In dev devices /\ accepts device_label dev = true
                    /\ key_of (device_id_of dev) = Some k'
                    /\ key_eqb k k' = true /\ info = info_of dev k')
             devices [] found); [intros k info [] | | exact Hrun].
    intros dev k' d Hin Haccepts Hkey Hd k info Hentry.
    apply dict_set_In in Hentry as [Hentry | [-> Hk]].
    + now apply Hd.
    + exists dev, k'. auto.
  - intros dev k' Hin Haccepts Hkey.
    apply in_split in Hin as [before [after ->]].
    apply collect_devices_app in Hrun as [found1 [_ Hrun]].
    rewrite collect_devices_step in Hrun.
    destruct (is_dict dev); [| discriminate].
    rewrite Haccepts, Hkey in Hrun.
    destruct (dict_set_has k' (info_of dev k') found1) as [k [Hk Hentry]].
    destruct (collect_devices_key_kept _ _ _ _ _ _ Hrun Hentry) as [info Hinfo].
    now exists k, info.
Qed.

Lemma discovery_exact_witness :
  (forall k info,
      In (k, info) home_televisions ->
      exists dev k',
        In dev home_devices /\ accepts "" dev = true
        /\ key_of (device_id_of dev) = Some k' /\ key_eqb k k' = true
        /\ info = info_of dev k')
  /\ (forall dev k',
         In dev home_devices -> accepts "" dev = true ->
         key_of (device_id_of dev) = Some k' ->
         exists k info, key_eqb k k' = true /\ In (k, info) home_televisions).
Proof.
  exact (discovery_exact "key" "" (hub_env home_listing) (fresh tv)
           home_devices home_televisions home_lists_devices eq_refl).
Defined.

(** X2.  The result of the discovery has one entry for each device id, and
    the entry of an id comes from the last accepted item of the listing that
    bears it. *)
Theorem discovery_last_wins (api_key device_label : string) (e : env)
  (w : world) (before after : list json) (dev : json) (k' : dict_key)
  (found : list (dict_key * device_info)) :
  lists_devices e w (before ++ dev :: after) ->
  fst (get_devices_list api_key device_label e w) = inr found ->
  accepts device_label dev = true ->
  key_of (device_id_of dev) = Some k' ->
  (forall dev2 k2,
      In dev2 after -> accepts device_label dev2 = true ->
      key_of (device_id_of dev2) = Some k2 -> key_eqb k' k2 = false) ->
  distinct_keys found = true
  /\ exists k,
       key_eqb k k' = true
       /\ In (k, info_of dev k') found
       /\ forall info, In (k, info) found -> info = info_of dev k'.
Proof.
  intros Hlisted Hrun Haccepts Hkey Hlater.
  rewrite (get_devices_list_run _ _ _ _ _ Hlisted) in Hrun. simpl in Hrun.
  assert (Hdistinct : distinct_keys found = true).
  { apply (collect_devices_inv device_label
             (fun d => distinct_keys d = true)
             (before ++ dev :: after) [] found); [reflexivity | | exact Hrun].
    intros dev0 k0 d _ _ _. apply dict_set_distinct. }
  split; [exact Hdistinct |].
  apply collect_devices_app in Hrun as [found1 [_ Hrun]].
  rewrite collect_devices_step in Hrun.
  destruct (is_dict dev); [| discriminate].
  rewrite Haccepts, Hkey in Hrun.
  destruct (dict_set_has k' (info_of dev k') found1) as [k [Hk Hentry]].
  exists k. split; [exact Hk |].
  assert (Hfound : In (k, info_of dev k') found).
  { apply (collect_devices_entry_kept _ _ _ _ _ _ Hrun Hentry).
    intros dev2 k2 Hin2 Haccepts2 Hkey2.
    destruct (key_eqb k k2) eqn:Hk2; [| reflexivity].
    rewrite <- (Hlater dev2 k2 Hin2 Haccepts2 Hkey2).
    rewrite key_eqb_sym in Hk. symmetry.
    apply (key_eqb_trans k' k k2 Hk Hk2). }
  split; [exact Hfound |].
  intros info Hinfo. apply (distinct_keys_unique found k _ _ Hdistinct Hinfo Hfound).
Qed.

Lemma discovery_last_wins_witness :
  distinct_keys home_televisions = true
  /\ exists k,
       key_eqb k (KStr "tv1") = true
       /\ In (k, {| info_name := JStr "The Frame"; info_label := JStr "Den" |})
            home_televisions
       /\ forall info,
            In (k, info) home_televisions ->
            info = {| info_name := JStr "The Frame"; info_label := JStr "Den" |}.
Proof.
  refine (discovery_last_wins "key" "" (hub_env home_listing) (fresh tv)
            [JObj [("deviceId", JStr "tv1"); ("type", JStr "OCF");
                   ("deviceTypeName", JStr "Samsung OCF TV");
                   ("label", JStr "Living room")];
             JObj [("deviceId", JStr "fridge"); ("type", JStr "OCF");
                   ("deviceTypeName", JStr "Samsung OCF Fridge");
                   ("name", JStr "Fridge"); ("label", JStr "Kitchen")]]
            []
            (JObj [("deviceId", JStr "tv1"); ("type", JStr "OCF");
                   ("deviceTypeName", JStr "Samsung OCF TV");
                   ("name", JStr "The Frame"); ("label", JStr "Den")])
            (KStr "tv1") home_televisions
            home_lists_devices eq_refl eq_refl eq_refl _).
  intros dev2 k2 [].
Defined.

(** X3.  The discovery sends one request, the GET of the device listing, and
    never touches the client.  An error of the transport and an HTTP error
    status are raised to the caller; an empty document gives the empty
    result. *)
Theorem discovery_transport (api_key device_label : string) (e : env)
  (w : world) :
  let r := get_devices_list api_key device_label e w in
  let answer := server e (List.length (sent w)) (Get API_DEVICES) in
  self (snd r) = self w
  /\ sent (snd r) = (sent w ++ [Get API_DEVICES])%list
  /\ (forall x, answer = Failed x -> fst r = inl x)
  /\ (forall status body,
         answer = Reply status body -> (400 <= status)%Z ->
         fst r = inl ClientResponseError)
  /\ (forall status device_list,
         answer = Reply status (inr device_list) -> (status < 400)%Z ->
         truthy device_list = false -> fst r = inr []).
Proof.
  intros r answer. subst r answer.
  unfold get_devices_list, request_json, bind, send. cbn [self sent].
  destruct (server e (List.length (sent w)) (Get API_DEVICES))
    as [x | status body] eqn:Hanswer.
  - repeat split; try discriminate. now intros x' [= ->].
  - destruct (400 <=? status)%Z eqn:Hstatus.
    + repeat split; try discriminate.
      intros status' device_list [= -> _] Hlt. apply Z.leb_le in Hstatus. lia.
    + apply Z.leb_gt in Hstatus.
      destruct body as [x | device_list]; cbn.
      * repeat split; try discriminate. intros status' body [= -> _]. lia.
      * destruct (truthy device_list) eqn:Htruthy.
        -- destruct (dict_get device_list "items" (JArr [])) as [x | listing];
             cbn; [| destruct (py_iter listing) as [x | devices]; cbn;
                     [| destruct (collect_devices device_label devices [])]];
             repeat split; try discriminate;
             try (intros status' body [= -> _]; lia);
             intros status' dl [= _ ->]; congruence.
        -- repeat split; try discriminate.
           intros status' body [= -> _]. lia.
Qed.

(** X4.  When the items of the listing are dicts whose device id is absent or
    a value that can be hashed, the discovery returns: no item makes it
    raise. *)
Theorem discovery_total (api_key device_label : string) (e : env) (w : world)
  (devices : list json) :
  lists_devices e w devices ->
  forallb device_ok devices = true ->
  exists found, fst (get_devices_list api_key device_label e w) = inr found.
Proof.
  intros Hlisted Hok. rewrite (get_devices_list_run _ _ _ _ _ Hlisted).
  apply (collect_devices_total device_label devices Hok).
Qed.

Lemma discovery_total_witness :
  exists found,
    fst (get_devices_list "key" "Kitchen" (hub_env home_listing) (fresh tv))
    = inr found.
Proof.
  exact (discovery_total "key" "Kitchen" (hub_env home_listing) (fresh tv)
           home_devices home_lists_devices eq_refl).
Defined.

Lemma discovery_transport_witness :
  let e := {| server := unreachable; utcnow := 0;
              json_loads := sample_loads; py_int := sample_int |} in
  get_devices_list "key" "" e (fresh tv)
  = (inl ClientConnectionError,
     {| self := tv; sent := [Get API_DEVICES] |}).
Proof.
  intros e.
  destruct (discovery_transport "key" "" e (fresh tv))
    as [Hself [Hsent [Hfailed _]]].
  specialize (Hfailed ClientConnectionError eq_refl).
  destruct (get_devices_list "key" "" e (fresh tv)) as [r [c l]].
  simpl in *. now subst.
Defined.

Example discovery_by_label :
  fst (get_devices_list "key" "Kitchen" (hub_env home_listing) (fresh tv))
  = inr [(KStr "fridge",
          {| info_name := JStr "Fridge"; info_label := JStr "Kitchen" |})].
Proof. reflexivity. Qed.

Example discovery_default_name :
  fst (get_devices_list "key" "Living room" (hub_env home_listing) (fresh tv))
  = inr [(KStr "tv1",
          {| info_name := JStr "TV ID tv1";
             info_label := JStr "Living room" |})].
Proof. reflexivity. Qed.

(** ** The health check *)

Lemma health_world (e : env) (w : world) :
  _device_id (self w) <> "" ->
  snd (async_device_health e w)
  = {| self := self w;
       sent := (sent w ++ [Get (api_device_health (_device_id (self w)))])%list |}.
Proof.
  intros Hid. apply String.eqb_neq in Hid.
  unfold async_device_health, bind at 1, get_self. rewrite Hid.
  fold (api_device_health (_device_id (self w))).
  unfold request_json, bind, send. cbn [self sent].
  destruct (server e _ _) as [x | status body]; [reflexivity |].
  destruct (400 <=? status)%Z; [reflexivity |].
  destruct body as [x | health]; [reflexivity |]. cbn.
  now destruct (subscript health "state").
Qed.

(** X5.  On a client with a device id, when the health request is answered
    with a document, [async_device_health] returns True exactly when the
    document is a dict whose "state" is the string "ONLINE"; a dict without
    "state" raises KeyError.  In every case the one request sent is the GET
    of the health endpoint and the client is untouched. *)
Theorem health_online_iff (e : env) (w : world) (status : Z) (health : json) :
  _device_id (self w) <> "" ->
  server e (List.length (sent w))
    (Get (api_device_health (_device_id (self w))))
  = Reply status (inr health) ->
  (status < 400)%Z ->
  (fst (async_device_health e w) = inr true <->
   exists fields,
     health = JObj fields /\ lookup "state" fields = Some (JStr "ONLINE"))
  /\ (forall fields,
         health = JObj fields -> lookup "state" fields = None ->
         fst (async_device_health e w) = inl KeyError)
  /\ snd (async_device_health e w)
     = {| self := self w;
          sent := (sent w
                   ++ [Get (api_device_health (_device_id (self w)))])%list |}.
Proof.
  intros Hid Hanswer Hstatus. split; [| split]; [| | now apply health_world].
  - apply String.eqb_neq in Hid.
    unfold async_device_health, bind at 1, get_self. rewrite Hid.
    fold (api_device_health (_device_id (self w))).
    unfold request_json, bind, send. rewrite Hanswer.
    apply Z.leb_gt in Hstatus. rewrite Hstatus. cbn.
    destruct health as [| b | n | s | l | fields]; cbn;
      try (split; [discriminate | intros [fields [[=] _]]]).
    destruct (lookup "state" fields) as [state |] eqn:Hstate; cbn.
    + split.
      * intros [= Honline]. exists fields. split; [reflexivity |].
        destruct state as [| b | n | s | l | fs]; try discriminate.
        simpl in Honline. apply String.eqb_eq in Honline. now subst.
      * intros [fields' [[= <-] Hfields]]. rewrite Hstate in Hfields.
        now injection Hfields as ->.
    + split; [discriminate |].
      intros [fields' [[= <-] Hfields]]. congruence.
  - intros fields -> Hstate. apply String.eqb_neq in Hid.
    unfold async_device_health, bind at 1, get_self. rewrite Hid.
    fold (api_device_health (_device_id (self w))).
    unfold request_json, bind, send. rewrite Hanswer.
    apply Z.leb_gt in Hstatus. rewrite Hstatus. cbn. now rewrite Hstate.
Qed.

Lemma health_online_iff_witness :
  fst (async_device_health (sample_env living_room 0) (fresh tv)) = inr true
  /\ fst (async_device_health (env_of asleep 0) (fresh tv)) = inr false.
Proof.
  split.
  - apply (proj1 (health_online_iff (sample_env living_room 0) (fresh tv)
                    200 online ltac:(discriminate) eq_refl eq_refl)).
    now exists [("state", JStr "ONLINE")].
  - destruct (fst (async_device_health (env_of asleep 0) (fresh tv)))
      as [x | [|]] eqn:H; [discriminate | | reflexivity].
    apply (proj1 (health_online_iff (env_of asleep 0) (fresh tv)
                    200 (JObj [("state", JStr "OFFLINE")])
                    ltac:(discriminate) eq_refl eq_refl))
      in H as [fields [[= <-] [=]]].
Defined.

(** ** Updates that stop early *)

Lemma post_health_run (e : env) (w : world)
  (Q : result bool -> world -> Prop) :
  _device_id (self w) <> "" ->
  Q (fst (async_device_health e w))
    {| self := self w;
       sent := (sent w
                ++ [Get (api_device_health (_device_id (self w)))])%list |} ->
  post async_device_health e w Q.
Proof. intros Hid H. unfold post. now rewrite (health_world e w Hid). Qed.

(** X6.  On a client with a device id whose health check says that the device
    is not online, an update returns normally with the state OFF: the
    previous state is the state before the call, nothing else of the cache
    changes, the health request is the only one sent, and the four mode
    properties answer None. *)
Theorem offline_update (use_channel_info : option bool) (e : env) (w : world) :
  _device_id (self w) <> "" ->
  fst (async_device_health e w) = inr false ->
  let r := async_device_update use_channel_info e w in
  fst r = inr tt
  /\ _state (self (snd r)) = STATE_OFF
  /\ _prev_state (self (snd r)) = _state (self w)
  /\ telemetry (self (snd r)) = telemetry (self w)
  /\ hold (self (snd r)) = hold (self w)
  /\ sent (snd r)
     = (sent w ++ [Get (api_device_health (_device_id (self w)))])%list
  /\ (sound_mode (self (snd r)), sound_mode_list (self (snd r)),
      picture_mode (self (snd r)), picture_mode_list (self (snd r)))
     = (JNull, JNull, JNull, JNull).
Proof.
  intros Hid Hhealth r. subst r.
  change (post (async_device_update use_channel_info) e w
            (fun r w' =>
               r = inr tt
               /\ _state (self w') = STATE_OFF
               /\ _prev_state (self w') = _state (self w)
               /\ telemetry (self w') = telemetry (self w)
               /\ hold (self w') = hold (self w)
               /\ sent w'
                  = (sent w
                     ++ [Get (api_device_health (_device_id (self w)))])%list
               /\ (sound_mode (self w'), sound_mode_list (self w'),
                   picture_mode (self w'), picture_mode_list (self w'))
                  = (JNull, JNull, JNull, JNull))).
  unfold async_device_update, fetch_states.
  do 3 post_step.
  rewrite (proj2 (String.eqb_neq _ _) Hid).
  destruct use_channel_info as [flag |]; repeat post_step;
    (apply post_health_run; [exact Hid |]);
    rewrite (health_outcome e w) by reflexivity; rewrite Hhealth;
    repeat post_step; repeat split.
Qed.

Lemma offline_update_witness :
  let r := async_device_update None (env_of asleep 0) tv_on in
  fst r = inr tt
  /\ _state (self (snd r)) = STATE_OFF
  /\ _prev_state (self (snd r)) = STATE_ON
  /\ telemetry (self (snd r)) = telemetry (self tv_on)
  /\ hold (self (snd r)) = hold (self tv_on)
  /\ sent (snd r) = (sent tv_on ++ [Get (api_device_health "tv1")])%list
  /\ (sound_mode (self (snd r)), sound_mode_list (self (snd r)),
      picture_mode (self (snd r)), picture_mode_list (self (snd r)))
     = (JNull, JNull, JNull, JNull).
Proof.
  exact (offline_update None (env_of asleep 0) tv_on
           ltac:(discriminate) eq_refl).
Defined.

(** X7.  The device is online, the update works with channel information and
    the gate of [_device_refresh] is open.  When the refresh trigger is
    answered with status 409, the update returns normally with the state OFF
    and without fetching the state document: the health request and the
    trigger are the two requests sent, and nothing of the cached telemetry
    changes. *)
Theorem refresh_conflict_means_off (use_channel_info : option bool) (e : env)
  (w : world) (body : result json) :
  _device_id (self w) <> "" ->
  fst (async_device_health e w) = inr true ->
  channel_info_for use_channel_info (self w) = true ->
  due e (self w) = true ->
  server e (List.length (sent w) + 1)
    (Post (api_command (_device_id (self w))) (_command COMMAND_REFRESH None))
  = Reply 409 body ->
  let r := async_device_update use_channel_info e w in
  fst r = inr tt
  /\ _state (self (snd r)) = STATE_OFF
  /\ _prev_state (self (snd r)) = _state (self w)
  /\ telemetry (self (snd r)) = telemetry (self w)
  /\ sent (snd r)
     = (sent w
        ++ [Get (api_device_health (_device_id (self w)));
            Post (api_command (_device_id (self w)))
              (_command COMMAND_REFRESH None)])%list.
Proof.
  intros Hid Hhealth Hflag Hdue Hanswer r. subst r.
  change (post (async_device_update use_channel_info) e w
            (fun r w' =>
               r = inr tt
               /\ _state (self w') = STATE_OFF
               /\ _prev_state (self w') = _state (self w)
               /\ telemetry (self w') = telemetry (self w)
               /\ sent w'
                  = (sent w
                     ++ [Get (api_device_health (_device_id (self w)));
                         Post (api_command (_device_id (self w)))
                           (_command COMMAND_REFRESH None)])%list)).
  unfold async_device_update, fetch_states.
  do 3 post_step.
  rewrite (proj2 (String.eqb_neq _ _) Hid).
  assert (Hrefresh :
            forall c l,
              _device_id c = _device_id (self w) ->
              _use_channel_info c = true ->
              _throttle c = _throttle (self w) ->
              l = (sent w ++ [Get (api_device_health (_device_id (self w)))])%list ->
              _device_refresh e {| self := c; sent := l |}
              = (inr tt,
                 {| self := upd_state STATE_OFF
                              (upd_throttle (Some (utcnow e)) c);
                    sent := (l ++ [Post (api_command (_device_id (self w)))
                                     (_command COMMAND_REFRESH None)])%list |})).
  { intros c l Hc Hinfo Hgate ->.
    unfold _device_refresh, Throttle. cbn [self sent]. rewrite Hgate.
    fold (due e (self w)). rewrite Hdue.
    unfold _device_refresh_body, bind, get_self, send. cbn [self sent].
    cbn [_device_id _use_channel_info upd_throttle]. rewrite Hc, Hinfo.
    rewrite (proj2 (String.eqb_neq _ _) Hid).
    fold (api_command (_device_id (self w))).
    cbn [self sent]. rewrite length_app. cbn [List.length].
    rewrite Hanswer. reflexivity. }
  destruct use_channel_info as [flag |]; simpl in Hflag; repeat post_step;
    (apply post_health_run; [exact Hid |]);
    rewrite (health_outcome e w) by reflexivity; rewrite Hhealth;
    repeat post_step; cbn [self sent];
    unfold post;
    (rewrite Hrefresh; [| reflexivity | exact Hflag | reflexivity | reflexivity]);
    cbn [fst snd]; repeat post_step; cbn; rewrite <- app_assoc; repeat split.
Qed.

Lemma refresh_conflict_means_off_witness :
  let r := async_device_update None (env_of standby 20000000) tv_on in
  fst r = inr tt
  /\ _state (self (snd r)) = STATE_OFF
  /\ _prev_state (self (snd r)) = STATE_ON
  /\ telemetry (self (snd r)) = telemetry (self tv_on)
  /\ sent (snd r)
     = (sent tv_on
        ++ [Get (api_device_health "tv1");
            Post (api_command "tv1") (_command COMMAND_REFRESH None)])%list.
Proof.
  exact (refresh_conflict_means_off None (env_of standby 20000000) tv_on
           (inr (JObj [])) ltac:(discriminate) eq_refl eq_refl eq_refl eq_refl).
Defined.

(** The state document an update works on was served by the states endpoint
    of the device. *)
Lemma fetch_states_from_endpoint (use_channel_info : option bool) (e : env)
  (w : world) (data : json) :
  fst (fetch_states use_channel_info e w) = inr (Some data) ->
  exists n status,
    server e n (Get (api_device_status (_device_id (self w))))
    = Reply status (inr data).
Proof.
  change (post (fetch_states use_channel_info) e w
            (fun r _ => r = inr (Some data) ->
                        exists n status,
                          server e n
                            (Get (api_device_status (_device_id (self w))))
                          = Reply status (inr data))).
  unfold fetch_states.
  apply post_bind, post_get_self. cbv beta iota zeta.
  destruct (_device_id (self w) =? ""); [apply post_ret; discriminate |].
  apply post_skip; [discriminate | intros u1 w1].
  apply post_skip; [discriminate | intros u2 w2].
  apply post_skip; [discriminate | intros is_online w3].
  destruct is_online as [x | [|]].
  - destruct (is_transport_failure x).
    + apply post_skip; [discriminate | intros u4 w4]. apply post_ret.
      discriminate.
    + apply post_raise. discriminate.
  - apply post_skip; [discriminate | intros u4 w4].
    apply post_skip; [discriminate | intros u5 w5].
    apply post_bind, post_get_self. cbv beta iota.
    destruct (STStatus_eqb (_state (self w5)) STATE_OFF);
      [apply post_ret; discriminate |].
    fold (api_device_status (_device_id (self w))).
    unfold post, bind.
    destruct (request_json _ e w5) as [[x | served] w6] eqn:Hget;
      [discriminate |].
    simpl. intros [= <-].
    pose proof (request_json_served
                  (Get (api_device_status (_device_id (self w)))) e w5 served)
      as Hserved.
    rewrite Hget in Hserved. destruct (Hserved eq_refl) as [status Hstatus].
    eauto.
  - apply post_skip; [discriminate | intros u4 w4]. apply post_ret.
    discriminate.
Qed.

Lemma fetch_keeps_cache (use_channel_info : option bool) :
  keeps (same (fun c => (telemetry c, hold c))) (fetch_states use_channel_info).
Proof. keeps_walk same_side. Qed.

(** A request that returns a document was answered with it, with a status
    below 400, and is the last of the log. *)
Lemma request_json_answered (r : request) (e : env) (w : world) (data : json) :
  fst (request_json r e w) = inr data ->
  sent (snd (request_json r e w)) = (sent w ++ [r])%list
  /\ exists status,
       server e (List.length (sent w)) r = Reply status (inr data)
       /\ (status < 400)%Z.
Proof.
  unfold request_json, bind, send. cbn [self sent].
  destruct (server e (List.length (sent w)) r) as [x | status body];
    [discriminate |].
  destruct (400 <=? status)%Z eqn:Hstatus; [discriminate |].
  destruct body as [x | j]; [discriminate |].
  cbn. intros [= ->]. split; [reflexivity |]. exists status.
  split; [reflexivity |]. apply Z.leb_gt in Hstatus. exact Hstatus.
Qed.

(** A step that only sends, in a run that has only sent since [base]. *)
Lemma post_bind_sends {A B : Type} (m : M B) (k : B -> M A) (e : env)
  (w : world) (base : list request) (Q : result A -> world -> Prop) :
  keeps (sends_only any_request) m ->
  (exists l, sent w = (base ++ l)%list) ->
  (forall x w', Q (inl x) w') ->
  (forall b w', (exists l, sent w' = (base ++ l)%list) -> post (k b) e w' Q) ->
  post (bind m k) e w Q.
Proof.
  intros Hm [l El] Hx Hk. unfold post, bind. specialize (Hm e w).
  destruct (m e w) as [[x | b] w']; cbn [snd] in Hm.
  - apply Hx.
  - apply Hk. destruct Hm as [l' [El' _]]. exists (l ++ l')%list.
    now rewrite El', El, app_assoc.
Qed.

(** The state document an update works on is the answer to the last request
    of its fetch, the GET of the states endpoint of the device. *)
Lemma fetch_states_got (use_channel_info : option bool) (e : env)
  (w : world) (data : json) :
  fst (fetch_states use_channel_info e w) = inr (Some data) ->
  exists before status,
    sent (snd (fetch_states use_channel_info e w))
    = (sent w ++ before
       ++ [Get (api_device_status (_device_id (self w)))])%list
    /\ server e (List.length (sent w ++ before))
         (Get (api_device_status (_device_id (self w))))
       = Reply status (inr data)
    /\ (status < 400)%Z.
Proof.
  change (post (fetch_states use_channel_info) e w
            (fun r w' =>
               r = inr (Some data) ->
               exists before status,
                 sent w'
                 = (sent w ++ before
                    ++ [Get (api_device_status (_device_id (self w)))])%list
                 /\ server e (List.length (sent w ++ before))
                      (Get (api_device_status (_device_id (self w))))
                    = Reply status (inr data)
                 /\ (status < 400)%Z)).
  unfold fetch_states.
  apply post_bind, post_get_self. cbv beta iota zeta.
  destruct (_device_id (self w) =? ""); [apply post_ret; discriminate |].
  fold (api_device_status (_device_id (self w))).
  apply (post_bind_sends _ _ _ _ (sent w));
    [keeps_walk sends_side | exists []; now rewrite app_nil_r | discriminate |].
  intros u1 w1 H1.
  apply (post_bind_sends _ _ _ _ (sent w));
    [keeps_walk sends_side | exact H1 | discriminate |].
  intros u2 w2 H2.
  apply (post_bind_sends _ _ _ _ (sent w));
    [keeps_walk sends_side | exact H2 | discriminate |].
  intros is_online w3 H3.
  destruct is_online as [x | [|]].
  - destruct (is_transport_failure x).
    + apply post_skip; [discriminate | intros u4 w4]. apply post_ret.
      discriminate.
    + apply post_raise. discriminate.
  - apply (post_bind_sends _ _ _ _ (sent w));
      [keeps_walk sends_side | exact H3 | discriminate |].
    intros u4 w4 H4.
    apply (post_bind_sends _ _ _ _ (sent w));
      [apply refresh_only_sends | exact H4 | discriminate |].
    intros u5 w5 [before H5].
    apply post_bind, post_get_self. cbv beta iota.
    destruct (STStatus_eqb (_state (self w5)) STATE_OFF);
      [apply post_ret; discriminate |].
    unfold post, bind.
    pose proof (request_json_answered
                  (Get (api_device_status (_device_id (self w)))) e w5)
      as Hanswered.
    destruct (request_json _ e w5) as [[x | served] w6];
      [discriminate |].
    cbn [fst snd ret] in *. intros [= <-].
    destruct (Hanswered served eq_refl) as [Hsent [status [Hserved Hstatus]]].
    exists before, status. rewrite Hsent, H5, <- app_assoc.
    split; [reflexivity |]. split; [| exact Hstatus].
    now rewrite <- H5.
  - apply post_skip; [discriminate | intros u4 w4]. apply post_ret.
    discriminate.
Qed.

Lemma status_sends_nothing (data : json) :
  keeps (sends_only no_request)
    (dev_data <- store_status data ;; adopt_reported dev_data).
Proof. keeps_walk sends_side. Qed.

(** X8.  An update changes the cached telemetry or the hold latch only when
    the last request it sent is the GET of the states endpoint of the device
    and the peer answered it with a document and a status below 400: an
    update that returns early, or that raises before it has the document,
    leaves them as they are. *)
Theorem cache_changes_need_document (use_channel_info : option bool) (e : env)
  (w : world) :
  let w' := snd (async_device_update use_channel_info e w) in
  (telemetry (self w') = telemetry (self w) /\ hold (self w') = hold (self w))
  \/ exists before status data,
       sent w'
       = (sent w ++ before
          ++ [Get (api_device_status (_device_id (self w)))])%list
       /\ server e (List.length (sent w ++ before))
            (Get (api_device_status (_device_id (self w))))
          = Reply status (inr data)
       /\ (status < 400)%Z.
Proof.
  intros w'. subst w'.
  pose proof (fetch_keeps_cache use_channel_info e w) as Hkept.
  unfold same in Hkept.
  pose proof (fetch_states_got use_channel_info e w) as Hgot.
  destruct (fetch_states use_channel_info e w) as [r w1] eqn:Hfetch.
  cbn [fst snd] in Hkept, Hgot.
  pose proof (f_equal fst Hkept) as Htelemetry.
  pose proof (f_equal snd Hkept) as Hhold. cbn [fst snd] in Htelemetry, Hhold.
  destruct r as [x | [data |]].
  - left. unfold async_device_update, bind. rewrite Hfetch. now split.
  - right. destruct (Hgot data eq_refl) as [before [status [Hsent Hserved]]].
    exists before, status, data. split; [| exact Hserved].
    unfold async_device_update, bind at 1. rewrite Hfetch.
    destruct (status_sends_nothing data e w1) as [l [Hl Hnone]].
    destruct l as [| r l]; [| discriminate].
    rewrite Hl, app_nil_r. exact Hsent.
  - left. unfold async_device_update, bind. rewrite Hfetch. now split.
Qed.

(** The sample television: the first update changes the cache, and its last
    request is the one for the state document. *)
Example first_update_got_document :
  telemetry (self tv_on) <> telemetry tv
  /\ sent tv_on
     = [Get (api_device_health "tv1");
        Post (api_command "tv1") (_command COMMAND_REFRESH None);
        Get (api_device_status "tv1")].
Proof. split; [discriminate | reflexivity]. Qed.

Lemma status_keeps_prev_state (fetched : option json) :
  keeps (same _prev_state)
    match fetched with
    | Some data => dev_data <- store_status data ;; adopt_reported dev_data
    | None => ret tt
    end.
Proof. keeps_walk same_side. Qed.

(** X9.  On a client with a device id, an update records the state it found
    in the previous state, whatever it does next and however it ends. *)
Theorem update_records_previous_state (use_channel_info : option bool)
  (e : env) (w : world) :
  _device_id (self w) <> "" ->
  _prev_state (self (snd (async_device_update use_channel_info e w)))
  = _state (self w).
Proof.
  intros Hid.
  change (post (async_device_update use_channel_info) e w
            (fun _ w' => _prev_state (self w') = _state (self w))).
  unfold async_device_update, fetch_states.
  do 3 post_step.
  rewrite (proj2 (String.eqb_neq _ _) Hid).
  assert (Hrest :
            forall c l,
              _prev_state c = _state (self w) ->
              post
                (is_online <- try async_device_health ;;
                 match is_online with
                 | inl x =>
                     if is_transport_failure x
                     then assign (upd_state STATE_UNKNOWN) ;; ret None
                     else raise x
                 | inr true =>
                     assign (upd_state STATE_ON) ;;
                     _device_refresh ;;
                     c <- get_self ;;
                     if STStatus_eqb (_state c) STATE_OFF then ret None else
                     data <- request_json
                               (Get ((API_DEVICES ++ "/" ++ _device_id (self w))
                                     ++ "/states")) ;;
                     ret (Some data)
                 | inr false => assign (upd_state STATE_OFF) ;; ret None
                 end) e {| self := c; sent := l |}
                (fun r w1 =>
                   match r with
                   | inl _ => _prev_state (self w1) = _state (self w)
                   | inr fetched =>
                       post
                         match fetched with
                         | Some data =>
                             dev_data <- store_status data ;;
                             adopt_reported dev_data
                         | None => ret tt
                         end e w1
                         (fun _ w' => _prev_state (self w') = _state (self w))
                   end)).
  { intros c l Hc.
    apply (post_keeps _ _ _ (same _prev_state)); [keeps_walk same_side |].
    intros r w1 H1. unfold same in H1. cbn [self] in H1.
    destruct r as [x | fetched]; [congruence |].
    apply (post_keeps _ _ _ _ _ (status_keeps_prev_state fetched)).
    intros r w2 H2. unfold same in H2. congruence. }
  destruct use_channel_info as [flag |];
    repeat lazymatch goal with
           | |- post (bind (try _) _) _ _ _ => fail
           | _ => post_step
           end;
    now apply Hrest.
Qed.

Lemma update_records_previous_state_witness :
  _prev_state
    (self (snd (async_device_update None (env_of asleep 0) tv_on)))
  = STATE_ON.
Proof.
  exact (update_records_previous_state None (env_of asleep 0) tv_on
           ltac:(discriminate)).
Defined.

(** ** A client without device id, a client without channel information *)

#[export] Instance silent_stepwise : Stepwise silent.
Proof.
  split; unfold silent.
  - auto.
  - intros e w1 w2 w3 H12 H23 Hid. destruct (H12 Hid) as [Hsent Hid2].
    destruct (H23 Hid2) as [Hsent3 Hid3]. split; congruence.
Qed.

Ltac silent_side :=
  intros; unfold silent, _set_source, set_application; simpl;
  repeat match goal with
         | |- context [if ?b then _ else _] => destruct b
         end;
  auto.

Lemma send_command_silent (data_cmd : option command_body) :
  keeps silent (_async_send_command data_cmd).
Proof.
  intros e w Hid. unfold _async_send_command, bind, get_self.
  rewrite Hid. simpl. auto.
Qed.

Lemma commands_silent (k : command_call) : keeps silent (run_command k).
Proof.
  destruct k; unfold run_command, async_turn_off, async_turn_on,
    async_send_command, async_select_source, async_select_vd_source,
    async_set_sound_mode, async_set_picture_mode;
    repeat first [ apply send_command_silent | keeps_rule silent_side ].
Qed.

(** X10.  On a client that has no device id nothing is ever sent: an update
    does nothing at all, the health check answers False, and no call of the
    client issues a request. *)
Theorem unconfigured_client_is_silent (e : env) (w : world) :
  _device_id (self w) = "" ->
  (forall use_channel_info,
      async_device_update use_channel_info e w = (inr tt, w))
  /\ async_device_health e w = (inr false, w)
  /\ forall k, sent (snd (run k e w)) = sent w.
Proof.
  intros Hid.
  assert (Hupdate : forall use_channel_info,
             async_device_update use_channel_info e w = (inr tt, w)).
  { intros a. unfold async_device_update, fetch_states, bind, get_self.
    now rewrite Hid. }
  assert (Hhealth : async_device_health e w = (inr false, w)).
  { unfold async_device_health, bind, get_self. now rewrite Hid. }
  split; [exact Hupdate |]. split; [exact Hhealth |].
  intros [a | | app_id | k]; simpl.
  - now rewrite Hupdate.
  - unfold bind. now rewrite Hhealth.
  - reflexivity.
  - apply (commands_silent k e w Hid).
Qed.

Lemma unconfigured_client_is_silent_witness :
  let e := sample_env living_room 0 in
  async_device_update None e (fresh unconfigured) = (inr tt, fresh unconfigured)
  /\ sent (snd (run (Command (SelectSource "HDMI1")) e (fresh unconfigured)))
     = [].
Proof.
  intros e.
  destruct (unconfigured_client_is_silent e (fresh unconfigured) eq_refl)
    as [Hupdate [_ Hcalls]].
  split; [apply Hupdate | apply Hcalls].
Defined.

#[export] Instance polls_only_stepwise : Stepwise polls_only.
Proof.
  split; unfold polls_only.
  - intros e w Hflag. split; [| exact Hflag].
    exists []. now rewrite app_nil_r.
  - intros e w1 w2 w3 H12 H23 Hflag.
    destruct (H12 Hflag) as [[l1 [E1 G1]] Hflag2].
    destruct (H23 Hflag2) as [[l2 [E2 G2]] Hflag3].
    split; [| exact Hflag3].
    exists (l1 ++ l2)%list. rewrite E2, E1, app_assoc. split; [reflexivity |].
    now rewrite forallb_app, G1, G2.
Qed.

Ltac polls_side :=
  intros; unfold polls_only; simpl; intros;
  split; [| assumption];
  first [ eexists [_]; split; reflexivity
        | exists []; rewrite app_nil_r; split; reflexivity ].

Lemma refresh_polls_only : keeps polls_only _device_refresh.
Proof.
  intros e w Hflag. unfold _device_refresh, Throttle.
  destruct (match _throttle (self w) with
            | Some last => (utcnow e - last >? MIN_TIME_BETWEEN_UPDATES)%Z
            | None => true
            end).
  - unfold _device_refresh_body, bind, get_self. cbn [self sent].
    cbn [_device_id _use_channel_info upd_throttle]. rewrite Hflag.
    destruct (_device_id (self w) =? ""); cbn; (split; [| exact Hflag]);
      exists []; now rewrite app_nil_r.
  - split; [| exact Hflag]. exists []. now rewrite app_nil_r.
Qed.

Lemma polling_polls_only (fetched : option json) :
  keeps polls_only
    match fetched with
    | Some data => dev_data <- store_status data ;; adopt_reported dev_data
    | None => ret tt
    end.
Proof. keeps_walk polls_side. Qed.

(** X11.  An update that works without channel information (the flag is off
    and the update is given none, or it is given False) sends GET requests
    only: the refresh trigger is not posted. *)
Theorem update_without_channel_info_only_gets (use_channel_info : option bool)
  (e : env) (w : world) :
  channel_info_for use_channel_info (self w) = false ->
  exists l,
    sent (snd (async_device_update use_channel_info e w)) = (sent w ++ l)%list
    /\ forallb is_get l = true.
Proof.
  intros Hflag.
  change (post (async_device_update use_channel_info) e w
            (fun _ w' =>
               exists l, sent w' = (sent w ++ l)%list
                         /\ forallb is_get l = true)).
  unfold async_device_update, fetch_states.
  do 3 post_step.
  destruct (_device_id (self w) =? "").
  { repeat post_step. exists []. now rewrite app_nil_r. }
  assert (Hrest :
            forall c,
              _use_channel_info c = false ->
              post
                (is_online <- try async_device_health ;;
                 match is_online with
                 | inl x =>
                     if is_transport_failure x
                     then assign (upd_state STATE_UNKNOWN) ;; ret None
                     else raise x
                 | inr true =>
                     assign (upd_state STATE_ON) ;;
                     _device_refresh ;;
                     c <- get_self ;;
                     if STStatus_eqb (_state c) STATE_OFF then ret None else
                     data <- request_json
                               (Get ((API_DEVICES ++ "/" ++ _device_id (self w))
                                     ++ "/states")) ;;
                     ret (Some data)
                 | inr false => assign (upd_state STATE_OFF) ;; ret None
                 end) e {| self := c; sent := sent w |}
                (fun r w1 =>
                   match r with
                   | inl _ =>
                       exists l, sent w1 = (sent w ++ l)%list
                                 /\ forallb is_get l = true
                   | inr fetched =>
                       post
                         match fetched with
                         | Some data =>
                             dev_data <- store_status data ;;
                             adopt_reported dev_data
                         | None => ret tt
                         end e w1
                         (fun _ w' =>
                            exists l, sent w' = (sent w ++ l)%list
                                      /\ forallb is_get l = true)
                   end)).
  { intros c Hc.
    apply (post_keeps _ _ _ polls_only).
    { repeat first [ apply refresh_polls_only | keeps_rule polls_side ]. }
    intros r w1 H1. destruct (H1 Hc) as [Hl1 Hflag1]. cbn [sent] in Hl1.
    destruct r as [x | fetched]; [exact Hl1 |].
    apply (post_keeps _ _ _ _ _ (polling_polls_only fetched)).
    intros r w2 H2. destruct (H2 Hflag1) as [[l2 [E2 G2]] _].
    destruct Hl1 as [l1 [E1 G1]].
    exists (l1 ++ l2)%list. rewrite E2, E1, app_assoc. split; [reflexivity |].
    now rewrite forallb_app, G1, G2. }
  destruct use_channel_info as [flag |]; simpl in Hflag;
    repeat lazymatch goal with
           | |- post (bind (try _) _) _ _ _ => fail
           | _ => post_step
           end;
    apply Hrest; simpl; assumption.
Qed.

Lemma update_without_channel_info_only_gets_witness :
  exists l,
    sent (snd (async_device_update (Some false) (sample_env living_room 0)
                 (fresh tv)))
    = (sent (fresh tv) ++ l)%list
    /\ forallb is_get l = true.
Proof.
  exact (update_without_channel_info_only_gets (Some false)
           (sample_env living_room 0) (fresh tv) eq_refl).
Defined.

(** ** What an update stores *)

(** Follows a run to its ends, through every outcome of every step. *)
Ltac post_run :=
  repeat first
    [ post_step
    | match goal with
      | |- match ?r with inl _ => _ | inr _ => _ end => destruct r
      | |- post (if ?b then _ else _) _ _ _ => destruct b
      | |- post (match ?x with _ => _ end) _ _ _ => destruct x
      end ].

(** X12.  An update whose volume step goes through (the reported volume is
    falsy, or a string that is not made of digits, or a string of digits from
    which [int] and the division by 100 make a float) stores the mute flag
    next: it is True exactly when the reported mute value is the string
    "mute", and False when there is none. *)
Theorem update_stores_mute (use_channel_info : option bool) (e : env)
  (w : world) (data dev_data device_volume device_muted : json) :
  fst (fetch_states use_channel_info e w) = inr (Some data) ->
  dict_get data "main" (JObj []) = inr dev_data ->
  field_value dev_data "volume" (JInt 0) = inr device_volume ->
  volume_goes_through e device_volume ->
  field_value dev_data "mute" (JStr "") = inr device_muted ->
  _muted (self (snd (async_device_update use_channel_info e w)))
  = eq_str device_muted "mute".
Proof.
  intros Hfetch Hmain Hvolume Hshape Hmute.
  change (post (async_device_update use_channel_info) e w
            (fun _ w' => _muted (self w') = eq_str device_muted "mute")).
  apply (post_update _ _ _ data); [exact Hfetch |].
  set (w0 := snd (fetch_states use_channel_info e w)).
  unfold store_status. do 2 apply post_bind. rewrite Hmain.
  apply post_lift. cbv beta iota. apply post_bind.
  assert (Hnext :
            forall w1,
              post
                (store_modes dev_data ;; store_sources dev_data ;; ret dev_data)
                e w1
                (fun r w2 =>
                   match r with
                   | inl _ => _muted (self w2) = eq_str device_muted "mute"
                   | inr dev =>
                       post (adopt_reported dev) e w2
                         (fun _ w' =>
                            _muted (self w') = eq_str device_muted "mute")
                   end)).
  { intros w1. unfold store_modes.
    do 7 post_step.
    unfold store_sources, adopt_reported. post_run; reflexivity. }
  assert (Hstored :
            exists q,
              store_volume dev_data e w0
              = (inr tt, {| self := upd_volume q (self w0);
                            sent := sent w0 |})).
  { destruct Hshape as [Hfalsy | [s [-> Hdigits]]].
    - exists 0%Q. apply (store_volume_zero dev_data e w0 _ Hvolume).
      now left.
    - destruct (isdigit s) eqn:Hdigit.
      + destruct (Hdigits eq_refl) as [q Hq]. exists q.
        rewrite (store_volume_digits dev_data e w0 s Hvolume Hdigit).
        now rewrite Hq.
      + exists 0%Q. apply (store_volume_zero dev_data e w0 _ Hvolume).
        right. now exists s. }
  destruct Hstored as [q Hq]. unfold post at 1. rewrite Hq. cbn [fst snd].
  apply Hnext.
Qed.

Lemma update_stores_mute_witness :
  _muted (self (snd (async_device_update None (sample_env living_room 0)
                       (fresh tv))))
  = false.
Proof.
  apply (update_stores_mute None (sample_env living_room 0) (fresh tv)
           living_room living_room_main (JStr "25") (JStr "unmuted")
           eq_refl eq_refl eq_refl).
  - right. exists "25". split; [reflexivity |]. intros _.
    now exists (25 # 100)%Q.
  - reflexivity.
Defined.

(** ** The hold latch *)

#[export] Instance latched_stepwise : Stepwise latched.
Proof. split; unfold latched; auto. Qed.

Ltac latched_side :=
  intros; unfold latched, latch_ok, hold, _set_source, set_application;
  simpl;
  repeat match goal with
         | |- context [if ?b then _ else _] => destruct b
         end;
  simpl; auto.

Lemma adopt_latched (dev_data : json) : keeps latched (adopt_reported dev_data).
Proof.
  intros e w Hok.
  change (post (adopt_reported dev_data) e w (fun _ w' => latch_ok (self w'))).
  unfold adopt_reported. post_step. post_step.
  destruct (_is_forced_val (self w) && (_forced_count (self w) <=? 0)%Z)
    eqn:Harmed.
  - post_step. apply andb_true_iff in Harmed as [Hforced Hcount].
    apply Z.leb_le in Hcount.
    unfold latch_ok, hold in *. simpl. rewrite Hforced in *.
    destruct Hok as [[=] | [[= Hzero] | [= Hone]]]; [| lia].
    rewrite Hzero. auto.
  - post_run; left; reflexivity.
Qed.

Lemma calls_latched (k : call) : keeps latched (run k).
Proof.
  destruct k as [use_channel_info | | app_id | k];
    repeat first [ apply adopt_latched | keeps_rule latched_side ].
Qed.

(** X13.  In every world a client reaches the hold latch is idle (flag off,
    count 0), armed (flag on, count 0) or has counted one poll (flag on,
    count 1): the count never goes beyond one. *)
Theorem latch_counts_one_poll (w : world) :
  reachable anything w -> latch_ok (self w).
Proof.
  induction 1 as [api_key device_id use_channel_info | w k e Hw IH He].
  - now left.
  - now apply (calls_latched k e w).
Qed.

Lemma latch_counts_one_poll_witness :
  latch_ok
    (self (snd (run (Update None) (sample_env living_room 0)
                  (snd (run (Command (SelectSource "HDMI1"))
                          (sample_env living_room 0) (fresh tv)))))).
Proof.
  apply latch_counts_one_poll.
  apply reach_call; [| exact I].
  apply reach_call; [| exact I].
  apply reach_init.
Defined.

(** X14.  On a client that uses channel information, [set_application]
    empties the channel and stores the application as channel name, and the
    next update leaves source, channel and channel name alone, whatever the
    device reports.  On a client that does not use channel information it
    does nothing. *)
Theorem application_held_one_poll (app_id : json) (c : client) :
  (_use_channel_info c = true ->
   forall use_channel_info e l,
     let w0 := {| self := set_application app_id c; sent := l |} in
     let w1 := snd (async_device_update use_channel_info e w0) in
     (_source (self w0), _channel (self w0), _channel_name (self w0))
     = (_source c, JStr "", app_id)
     /\ (_source (self w1), _channel (self w1), _channel_name (self w1))
        = (_source c, JStr "", app_id))
  /\ (_use_channel_info c = false -> set_application app_id c = c).
Proof.
  split.
  - intros Hflag use_channel_info e l w0 w1. subst w1 w0. cbn [self].
    assert (H0 : local_choice (set_application app_id c)
                 = (_source c, JStr "", app_id, (true, 0%Z))).
    { unfold set_application. now rewrite Hflag. }
    pose proof (update_holds_choice use_channel_info e
                  {| self := set_application app_id c; sent := l |}
                  (f_equal snd H0)) as [Hkept _].
    cbn [self] in Hkept.
    pose proof (f_equal fst H0) as Hchoice. cbn [fst local_choice] in Hchoice.
    rewrite Hchoice in Hkept. now split.
  - intros Hflag. unfold set_application. now rewrite Hflag.
Qed.

Lemma application_held_one_poll_witness :
  let w0 := {| self := set_application (JStr "Netflix") (self tv_on);
               sent := sent tv_on |} in
  let w1 := snd (async_device_update None (sample_env living_room 1000) w0) in
  (_source (self w1), _channel (self w1), _channel_name (self w1))
  = (JStr "HDMI2", JStr "", JStr "Netflix").
Proof.
  intros w0 w1.
  exact (proj2 (proj1 (application_held_one_poll (JStr "Netflix") (self tv_on))
                  eq_refl None (sample_env living_room 1000) (sent tv_on))).
Defined.

(** ** Commands *)

(** X15.  [async_send_command] sends nothing and changes nothing when the
    command type is not one of the five it knows, and when a step or mute
    command comes with a value it does not know.  A volume that [int] does
    not accept raises its error before anything is sent. *)
Theorem send_command_ignores (cmd_type command : string) (e : env) (w : world) :
  (cmd_type <> "setvolume" -> cmd_type <> "stepvolume" ->
   cmd_type <> "audiomute" -> cmd_type <> "selectchannel" ->
   cmd_type <> "stepchannel" ->
   async_send_command cmd_type command e w = (inr tt, w))
  /\ (cmd_type = "stepvolume" \/ cmd_type = "stepchannel" ->
      command <> "up" -> command <> "down" ->
      async_send_command cmd_type command e w = (inr tt, w))
  /\ (cmd_type = "audiomute" ->
      command <> "on" -> command <> "off" ->
      async_send_command cmd_type command e w = (inr tt, w))
  /\ (forall x,
         cmd_type = "setvolume" -> py_int e command = inl x ->
         async_send_command cmd_type command e w = (inl x, w)).
Proof.
  assert (Hnone : _async_send_command None e w = (inr tt, w)).
  { unfold _async_send_command, bind, get_self.
    now destruct (_device_id (self w) =? ""). }
  split; [| split; [| split]].
  - intros H1 H2 H3 H4 H5. unfold async_send_command.
    apply String.eqb_neq in H1, H2, H3, H4, H5.
    now rewrite H1, H2, H3, H4, H5.
  - intros Htype Hup Hdown. unfold async_send_command.
    apply String.eqb_neq in Hup, Hdown.
    destruct Htype as [-> | ->]; simpl; now rewrite Hup, Hdown.
  - intros -> Hon Hoff. unfold async_send_command.
    apply String.eqb_neq in Hon, Hoff. simpl. now rewrite Hon, Hoff.
  - intros x -> Hint. unfold async_send_command. simpl.
    unfold bind, ask. now rewrite Hint.
Qed.

Lemma send_command_ignores_witness :
  let e := sample_env living_room 1000 in
  async_send_command "fastforward" "" e tv_on = (inr tt, tv_on)
  /\ async_send_command "stepvolume" "sideways" e tv_on = (inr tt, tv_on)
  /\ async_send_command "audiomute" "toggle" e tv_on = (inr tt, tv_on)
  /\ async_send_command "setvolume" "loud" e tv_on = (inl ValueError, tv_on).
Proof.
  intros e.
  destruct (send_command_ignores "fastforward" "" e tv_on) as [H1 _].
  destruct (send_command_ignores "stepvolume" "sideways" e tv_on)
    as [_ [H2 _]].
  destruct (send_command_ignores "audiomute" "toggle" e tv_on)
    as [_ [_ [H3 _]]].
  destruct (send_command_ignores "setvolume" "loud" e tv_on)
    as [_ [_ [_ H4]]].
  split; [apply H1; discriminate |].
  split; [apply H2; [now left | discriminate | discriminate] |].
  split; [apply H3; [reflexivity | discriminate | discriminate] |].
  apply H4; reflexivity.
Defined.

Lemma find_mode_id_first (mode : string) (before after : list json)
  (entry : json) (name : json) :
  forallb (name_differs mode) before = true ->
  dict_get entry "name" JNull = inr name ->
  eq_str name mode = true ->
  find_mode_id (before ++ entry :: after) mode = dict_get entry "id" JNull.
Proof.
  intros Hbefore Hname Hmode. induction before as [| item before IH]; simpl.
  - rewrite Hname. simpl. now rewrite Hmode.
  - simpl in Hbefore. apply andb_true_iff in Hbefore as [Hitem Hrest].
    unfold name_differs in Hitem.
    destruct (dict_get item "name" JNull) as [x | n]; [discriminate |].
    simpl. apply negb_true_iff in Hitem. rewrite Hitem. now apply IH.
Qed.

Lemma send_command_keeps_modes (data_cmd : option command_body) :
  keeps (same (fun c => (_sound_mode c, _picture_mode c, _device_id c)))
    (_async_send_command data_cmd).
Proof. keeps_walk same_side. Qed.

(** X16.  The client is ON and the first entry of the sound-mode list-map
    named [mode] has the id [mode_id], which is not None.  Then
    [async_set_sound_mode mode] posts the command with that id as its first
    request when the client has a device id, stores [mode] as the sound mode
    when the call returns, and leaves the stored sound mode as it was when the
    call raises. *)
Theorem set_sound_mode_on_success (mode : string) (e : env) (w : world)
  (before after : list json) (entry name mode_id : json) :
  _state (self w) = STATE_ON ->
  _sound_mode_list_map (self w) = JArr (before ++ entry :: after) ->
  forallb (name_differs mode) before = true ->
  dict_get entry "name" JNull = inr name -> eq_str name mode = true ->
  dict_get entry "id" JNull = inr mode_id -> mode_id <> JNull ->
  let r := async_set_sound_mode mode e w in
  (fst r = inr tt -> _sound_mode (self (snd r)) = JStr mode)
  /\ (forall x, fst r = inl x ->
                _sound_mode (self (snd r)) = _sound_mode (self w))
  /\ (_device_id (self w) <> "" ->
      exists rest,
        sent (snd r)
        = (sent w
           ++ Post (api_command (_device_id (self w)))
                (_command COMMAND_SOUND_MODE (Some [mode_id]))
           :: rest)%list).
Proof.
  intros Hon Hmap Hbefore Hname Hmode Hid Hsome r. subst r.
  set (data := _command COMMAND_SOUND_MODE (Some [mode_id])).
  assert (Hrun :
            async_set_sound_mode mode e w
            = (_async_send_command (Some data) ;;
               assign (upd_sound_mode (JStr mode))) e w).
  { unfold async_set_sound_mode, bind at 1, get_self. rewrite Hon, Hmap.
    cbn [STStatus_eqb negb py_iter lift]. unfold bind at 1, ret at 1.
    rewrite (find_mode_id_first mode before after entry name
               Hbefore Hname Hmode).
    rewrite Hid. cbn [lift]. unfold bind at 1, ret at 1.
    subst data. destruct mode_id; try reflexivity. contradiction. }
  rewrite Hrun. clear Hrun.
  pose proof (send_command_keeps_modes (Some data) e w) as Hkept.
  unfold same in Hkept.
  pose proof (send_command_posts data e w) as Hposts.
  unfold bind, assign.
  destruct (_async_send_command (Some data) e w) as [[x | u] w1].
  - cbn [fst snd] in *. split; [discriminate |]. split.
    + intros _ _. now injection Hkept.
    + exact Hposts.
  - cbn [fst snd self sent] in *. split; [reflexivity |]. split.
    + discriminate.
    + exact Hposts.
Qed.

Lemma set_sound_mode_on_success_witness :
  _sound_mode (self amplified) = JStr "Amplify"
  /\ sound_mode (self amplified) = JStr "Amplify"
  /\ exists rest,
       sent amplified
       = (sent tv_on
          ++ Post (api_command "tv1")
               (_command COMMAND_SOUND_MODE (Some [JStr "2"]))
          :: rest)%list.
Proof.
  destruct (set_sound_mode_on_success "Amplify" (sample_env living_room 1000)
              tv_on
              [JObj [("id", JStr "1"); ("name", JStr "Standard")]] []
              (JObj [("id", JStr "2"); ("name", JStr "Amplify")])
              (JStr "Amplify") (JStr "2")
              eq_refl eq_refl eq_refl eq_refl eq_refl eq_refl
              ltac:(discriminate))
    as [Hstored [_ Hposted]].
  split; [exact (Hstored eq_refl) |].
  split; [reflexivity |].
  apply Hposted. discriminate.
Defined.

(** X17.  The same for the picture mode: with the client ON and [mode_id],
    not None, the id of the first entry of the picture-mode list-map named
    [mode], [async_set_picture_mode mode] posts the command with that id
    first, stores [mode] when it returns and leaves the stored picture mode
    alone when it raises. *)
Theorem set_picture_mode_on_success (mode : string) (e : env) (w : world)
  (before after : list json) (entry name mode_id : json) :
  _state (self w) = STATE_ON ->
  _picture_mode_list_map (self w) = JArr (before ++ entry :: after) ->
  forallb (name_differs mode) before = true ->
  dict_get entry "name" JNull = inr name -> eq_str name mode = true ->
  dict_get entry "id" JNull = inr mode_id -> mode_id <> JNull ->
  let r := async_set_picture_mode mode e w in
  (fst r = inr tt -> _picture_mode (self (snd r)) = JStr mode)
  /\ (forall x, fst r = inl x ->
                _picture_mode (self (snd r)) = _picture_mode (self w))
  /\ (_device_id (self w) <> "" ->
      exists rest,
        sent (snd r)
        = (sent w
           ++ Post (api_command (_device_id (self w)))
                (_command COMMAND_PICTURE_MODE (Some [mode_id]))
           :: rest)%list).
Proof.
  intros Hon Hmap Hbefore Hname Hmode Hid Hsome r. subst r.
  set (data := _command COMMAND_PICTURE_MODE (Some [mode_id])).
  assert (Hrun :
            async_set_picture_mode mode e w
            = (_async_send_command (Some data) ;;
               assign (upd_picture_mode (JStr mode))) e w).
  { unfold async_set_picture_mode, bind at 1, get_self. rewrite Hon, Hmap.
    cbn [STStatus_eqb negb py_iter lift]. unfold bind at 1, ret at 1.
    rewrite (find_mode_id_first mode before after entry name
               Hbefore Hname Hmode).
    rewrite Hid. cbn [lift]. unfold bind at 1, ret at 1.
    subst data. destruct mode_id; try reflexivity. contradiction. }
  rewrite Hrun. clear Hrun.
  pose proof (send_command_keeps_modes (Some data) e w) as Hkept.
  unfold same in Hkept.
  pose proof (send_command_posts data e w) as Hposts.
  unfold bind, assign.
  destruct (_async_send_command (Some data) e w) as [[x | u] w1].
  - cbn [fst snd] in *. split; [discriminate |]. split.
    + intros _ _. now injection Hkept.
    + exact Hposts.
  - cbn [fst snd self sent] in *. split; [reflexivity |]. split.
    + discriminate.
    + exact Hposts.
Qed.

Lemma set_picture_mode_on_success_witness :
  _picture_mode (self cinema) = JStr "Movie"
  /\ picture_mode (self cinema) = JStr "Movie".
Proof.
  destruct (set_picture_mode_on_success "Movie" (sample_env living_room 1000)
              tv_with_pictures [] []
              (JObj [("id", JStr "p1"); ("name", JStr "Movie")])
              (JStr "Movie") (JStr "p1")
              eq_refl eq_refl eq_refl eq_refl eq_refl eq_refl
              ltac:(discriminate))
    as [Hstored _].
  split; [exact (Hstored ltac:(vm_compute; reflexivity)) |].
  vm_compute. reflexivity.
Defined.

(** ** Source map, source list and source names *)

Lemma collect_sources_exact (entries : list json) :
  forallb entry_ok entries = true ->
  forall acc,
    collect_sources entries acc
    = inr (acc ++ map listed_as (entry_ids entries))%list.
Proof.
  induction entries as [| item entries IH]; intros Hok acc.
  - simpl. now rewrite app_nil_r.
  - simpl in Hok. apply andb_true_iff in Hok as [Hitem Hrest].
    unfold entry_ok in Hitem. unfold entry_ids. cbn [collect_sources flat_map].
    fold (entry_ids entries).
    destruct (dict_get item "id" JNull) as [x | [| b | n | s | l | fields]];
      try discriminate; cbn [and_then truthy].
    + now rewrite (IH Hrest).
    + destruct (s =? "") eqn:Hs; cbn [negb].
      * now rewrite (IH Hrest).
      * cbn [app map]. unfold listed_as at 1.
        destruct (upper s =? "DTV");
          rewrite (IH Hrest), <- app_assoc; reflexivity.
Qed.

Lemma source_list_exact (c : client) (entries : list json) :
  _source_list_map c = JArr entries ->
  forallb entry_ok entries = true ->
  _get_source_list_from_map c = inr (map listed_as (entry_ids entries)).
Proof.
  intros Hmap Hok. unfold _get_source_list_from_map. rewrite Hmap.
  destruct entries as [| item entries]; [reflexivity |].
  cbn [truthy negb py_iter and_then].
  now rewrite (collect_sources_exact _ Hok).
Qed.

(** X18.  On a source map whose entries are dicts with a string, or nothing,
    for id, the source list is the list of the non-empty ids in the order of
    the map, each id that reads "dtv" replaced by "digitalTv"; entries are
    neither merged nor reordered.  An empty or missing map gives the empty
    list. *)
Theorem source_list_in_map_order (c : client) :
  (forall entries,
      _source_list_map c = JArr entries ->
      forallb entry_ok entries = true ->
      _get_source_list_from_map c = inr (map listed_as (entry_ids entries)))
  /\ (truthy (_source_list_map c) = false ->
      _get_source_list_from_map c = inr []).
Proof.
  split.
  - intros entries. apply source_list_exact.
  - intros Hempty. unfold _get_source_list_from_map. now rewrite Hempty.
Qed.

Lemma source_list_in_map_order_witness :
  _get_source_list_from_map (upd_source_list_map uppercase_sources tv)
  = inr ["digitalTv"; "HDMI1"]
  /\ _get_source_list_from_map tv = inr [].
Proof.
  destruct (source_list_in_map_order (upd_source_list_map uppercase_sources tv))
    as [Hlist _].
  destruct (source_list_in_map_order tv) as [_ Hempty].
  split.
  - exact (Hlist _ eq_refl eq_refl).
  - exact (Hempty eq_refl).
Defined.

Lemma find_source_name_none (source_id : string) (entries : list json) :
  forallb (passes_over source_id) entries = true ->
  find_source_name entries source_id = inr (JStr "").
Proof.
  induction entries as [| item entries IH]; simpl; [reflexivity |].
  intros H. apply andb_true_iff in H as [Hitem Hrest].
  unfold passes_over in Hitem.
  destruct (dict_get item "id" JNull) as [x | map_id]; [discriminate |].
  simpl. apply negb_true_iff in Hitem. rewrite Hitem. now apply IH.
Qed.

Lemma source_name_of_first (c : client) (source_id : string)
  (before after : list json) (entry : json) :
  upper source_id <> upper DIGITAL_TV -> source_id <> "" ->
  _source_list_map c = JArr (before ++ entry :: after) ->
  forallb (passes_over source_id) before = true ->
  dict_get entry "id" JNull = inr (JStr source_id) ->
  get_source_name c source_id = dict_get entry "name" (JStr "").
Proof.
  intros Hupper Hne Hmap Hbefore Hid.
  unfold get_source_name. rewrite Hmap.
  apply String.eqb_neq in Hupper. rewrite Hupper.
  replace (truthy (JArr (before ++ entry :: after))) with true
    by (destruct before; reflexivity).
  simpl. now apply find_source_name_first.
Qed.

(** X19.  For an id that does not read "digitalTv", [get_source_name] returns
    the name of the first entry of the source map with exactly this id (the
    empty string if the entry has no name), and the empty string when no
    entry has it; without a source map it returns the empty string for every
    id. *)
Theorem get_source_name_lookup (c : client) (source_id : string) :
  (forall before entry after,
      upper source_id <> upper DIGITAL_TV -> source_id <> "" ->
      _source_list_map c = JArr (before ++ entry :: after) ->
      forallb (passes_over source_id) before = true ->
      dict_get entry "id" JNull = inr (JStr source_id) ->
      get_source_name c source_id = dict_get entry "name" (JStr ""))
  /\ (forall entries,
         upper source_id <> upper DIGITAL_TV ->
         _source_list_map c = JArr entries ->
         forallb (passes_over source_id) entries = true ->
         get_source_name c source_id = inr (JStr ""))
  /\ (truthy (_source_list_map c) = false ->
      get_source_name c source_id = inr (JStr "")).
Proof.
  split; [| split].
  - intros before entry after. apply source_name_of_first.
  - intros entries Hupper Hmap Hnone. unfold get_source_name. rewrite Hmap.
    apply String.eqb_neq in Hupper. rewrite Hupper.
    destruct entries as [| item entries]; [reflexivity |].
    cbn [truthy negb py_iter and_then]. now apply find_source_name_none.
  - intros Hempty. unfold get_source_name. now rewrite Hempty.
Qed.

Lemma get_source_name_lookup_witness :
  get_source_name (self tv_on) "HDMI1" = inr (JStr "PlayStation")
  /\ get_source_name (self tv_on) "HDMI4" = inr (JStr "")
  /\ get_source_name tv "HDMI1" = inr (JStr "").
Proof.
  split; [| split].
  - apply (proj1 (get_source_name_lookup (self tv_on) "HDMI1")
             [JObj [("id", JStr "dtv"); ("name", JStr "TV")]]
             (JObj [("id", JStr "HDMI1"); ("name", JStr "PlayStation")]) []);
      try reflexivity; discriminate.
  - apply (proj1 (proj2 (get_source_name_lookup (self tv_on) "HDMI4"))
             [JObj [("id", JStr "dtv"); ("name", JStr "TV")];
              JObj [("id", JStr "HDMI1"); ("name", JStr "PlayStation")]]);
      try reflexivity; discriminate.
  - apply (proj2 (proj2 (get_source_name_lookup tv "HDMI1"))). reflexivity.
Defined.

Lemma entry_ids_In (entries : list json) (s : string) :
  In s (entry_ids entries) ->
  s <> ""
  /\ exists entry, In entry entries /\ dict_get entry "id" JNull = inr (JStr s).
Proof.
  unfold entry_ids. rewrite in_flat_map. intros [entry [Hin Hs]].
  destruct (dict_get entry "id" JNull) as [x | [| b | n | s' | l | fields]]
    eqn:Hid; try contradiction.
  destruct (s' =? "") eqn:Hempty; [contradiction |].
  destruct Hs as [<- | []]. split; [now apply String.eqb_neq |].
  now exists entry.
Qed.

Lemma first_with_id (s : string) (entries : list json) :
  forallb entry_ok entries = true ->
  forall entry,
    In entry entries -> dict_get entry "id" JNull = inr (JStr s) ->
    exists before first after,
      entries = (before ++ first :: after)%list
      /\ forallb (passes_over s) before = true
      /\ dict_get first "id" JNull = inr (JStr s).
Proof.
  induction entries as [| item entries IH]; intros Hok entry Hin Hid;
    [contradiction |].
  simpl in Hok. apply andb_true_iff in Hok as [Hitem Hrest].
  destruct (dict_get item "id" JNull) as [x | item_id] eqn:Hitem_id.
  { unfold entry_ok in Hitem. now rewrite Hitem_id in Hitem. }
  destruct (eq_str item_id s) eqn:Hmatch.
  - destruct item_id as [| b | n | s' | l | fields]; try discriminate.
    apply String.eqb_eq in Hmatch. subst s'.
    exists [], item, entries. auto.
  - destruct Hin as [<- | Hin].
    + rewrite Hid in Hitem_id. injection Hitem_id as <-.
      simpl in Hmatch. now rewrite String.eqb_refl in Hmatch.
    + destruct (IH Hrest entry Hin Hid) as [before [first [after [E [Hb Hf]]]]].
      exists (item :: before), first, after. rewrite E. split; [reflexivity |].
      split; [| exact Hf]. simpl. rewrite Hb, andb_true_r.
      unfold passes_over. rewrite Hitem_id, Hmatch. now rewrite andb_false_r.
Qed.

(** X20.  Every name of the source list that does not read "digitalTv" can be
    looked up: on a source map whose entries are dicts with a string, or
    nothing, for id, [get_source_name] finds for it an entry of the map with
    this id and returns the name of that entry. *)
Theorem listed_sources_have_names (c : client) (entries : list json)
  (source_list : list string) (x : string) :
  _source_list_map c = JArr entries ->
  forallb entry_ok entries = true ->
  _get_source_list_from_map c = inr source_list ->
  In x source_list ->
  upper x <> upper DIGITAL_TV ->
  exists entry,
    In entry entries
    /\ dict_get entry "id" JNull = inr (JStr x)
    /\ get_source_name c x = dict_get entry "name" (JStr "").
Proof.
  intros Hmap Hok Hlist Hin Hupper.
  rewrite (source_list_exact c entries Hmap Hok) in Hlist.
  injection Hlist as <-. apply in_map_iff in Hin as [s [Hx Hs]].
  apply entry_ids_In in Hs as [Hne [entry [Hentry Hid]]].
  assert (x = s) as ->.
  { unfold listed_as in Hx. destruct (upper s =? "DTV"); [| now symmetry].
    subst x. now contradiction Hupper. }
  destruct (first_with_id s entries Hok entry Hentry Hid)
    as [before [first [after [E [Hbefore Hfirst]]]]].
  exists first. split; [rewrite E; apply in_elt |]. split; [exact Hfirst |].
  apply (source_name_of_first c s before after first Hupper Hne);
    [now rewrite Hmap, E | exact Hbefore | exact Hfirst].
Qed.

Lemma listed_sources_have_names_witness :
  exists entry,
    In entry [JObj [("id", JStr "dtv"); ("name", JStr "TV")];
              JObj [("id", JStr "HDMI1"); ("name", JStr "PlayStation")]]
    /\ dict_get entry "id" JNull = inr (JStr "HDMI1")
    /\ get_source_name (self tv_on) "HDMI1" = dict_get entry "name" (JStr "").
Proof.
  apply (listed_sources_have_names (self tv_on) _ ["digitalTv"; "HDMI1"]
           "HDMI1" eq_refl eq_refl eq_refl).
  - right; left. reflexivity.
  - discriminate.
Defined.

(** Like [post_run], remembering the outcome of every step. *)
Ltac post_run_eqn :=
  repeat first
    [ post_step
    | match goal with
      | |- match ?r with inl _ => _ | inr _ => _ end => destruct r eqn:?
      | |- post (if ?b then _ else _) _ _ _ => destruct b eqn:?
      | |- post (match ?x with _ => _ end) _ _ _ => destruct x eqn:?
      end ].

(** X21.  An update that runs to its end has replaced the cached mute flag,
    the sound and picture modes, their lists and list-maps and the source
    map by what the state document reports about them, each encoded list
    decoded. *)
Theorem update_stores_modes (use_channel_info : option bool) (e : env)
  (w : world) (data : json) :
  fst (fetch_states use_channel_info e w) = inr (Some data) ->
  fst (async_device_update use_channel_info e w) = inr tt ->
  exists dev_data,
    dict_get data "main" (JObj []) = inr dev_data
    /\ modes_stored (json_loads e) dev_data
         (self (snd (async_device_update use_channel_info e w))).
Proof.
  intros Hfetch.
  change (post (async_device_update use_channel_info) e w
            (fun r w' =>
               r = inr tt ->
               exists dev_data,
                 dict_get data "main" (JObj []) = inr dev_data
                 /\ modes_stored (json_loads e) dev_data (self w'))).
  apply (post_update _ _ _ data); [exact Hfetch |].
  unfold store_status. post_step. post_step.
  destruct (dict_get data "main" (JObj [])) as [x | dev_data] eqn:Hmain;
    [discriminate |].
  apply post_skip; [discriminate | intros u1 w1].
  unfold store_modes, store_sources, adopt_reported.
  post_run_eqn; try discriminate; intros _; exists dev_data;
    (split; [reflexivity |]); unfold modes_stored; cbn;
    (split; [eexists; split; [eassumption | reflexivity] |]);
    repeat split; assumption.
Qed.

Lemma update_stores_modes_witness :
  exists dev_data,
    dict_get living_room "main" (JObj []) = inr dev_data
    /\ modes_stored sample_loads dev_data (self tv_on).
Proof.
  exact (update_stores_modes None (sample_env living_room 0) (fresh tv)
           living_room eq_refl eq_refl).
Defined.

(** X22.  The device is online, the update works with channel information and
    the gate of [_device_refresh] is open.  When the refresh trigger fails
    (no answer, a status of 400 or more other than 409, or a body that is
    not JSON), the update raises that exception, unlike a failure of the
    health check: the state stays ON, the state document is not fetched and
    the cached telemetry is unchanged. *)
Theorem refresh_failure_aborts_update (use_channel_info : option bool)
  (e : env) (w : world) (x : exn) :
  _device_id (self w) <> "" ->
  fst (async_device_health e w) = inr true ->
  channel_info_for use_channel_info (self w) = true ->
  due e (self w) = true ->
  trigger_refused
    (server e (List.length (sent w) + 1)
       (Post (api_command (_device_id (self w)))
          (_command COMMAND_REFRESH None)))
  = Some x ->
  let r := async_device_update use_channel_info e w in
  fst r = inl x
  /\ _state (self (snd r)) = STATE_ON
  /\ _prev_state (self (snd r)) = _state (self w)
  /\ telemetry (self (snd r)) = telemetry (self w)
  /\ sent (snd r)
     = (sent w
        ++ [Get (api_device_health (_device_id (self w)));
            Post (api_command (_device_id (self w)))
              (_command COMMAND_REFRESH None)])%list.
Proof.
  intros Hid Hhealth Hflag Hdue Hanswer r. subst r.
  change (post (async_device_update use_channel_info) e w
            (fun r w' =>
               r = inl x
               /\ _state (self w') = STATE_ON
               /\ _prev_state (self w') = _state (self w)
               /\ telemetry (self w') = telemetry (self w)
               /\ sent w'
                  = (sent w
                     ++ [Get (api_device_health (_device_id (self w)));
                         Post (api_command (_device_id (self w)))
                           (_command COMMAND_REFRESH None)])%list)).
  unfold async_device_update, fetch_states.
  do 3 post_step.
  rewrite (proj2 (String.eqb_neq _ _) Hid).
  assert (Hrefresh :
            forall c l,
              _device_id c = _device_id (self w) ->
              _use_channel_info c = true ->
              _throttle c = _throttle (self w) ->
              l = (sent w ++ [Get (api_device_health (_device_id (self w)))])%list ->
              _device_refresh e {| self := c; sent := l |}
              = (inl x,
                 {| self := upd_throttle (Some (utcnow e)) c;
                    sent := (l ++ [Post (api_command (_device_id (self w)))
                                     (_command COMMAND_REFRESH None)])%list |})).
  { intros c l Hc Hinfo Hgate ->.
    unfold _device_refresh, Throttle. cbn [self sent]. rewrite Hgate.
    fold (due e (self w)). rewrite Hdue.
    unfold _device_refresh_body, bind, get_self, send. cbn [self sent].
    cbn [_device_id _use_channel_info upd_throttle]. rewrite Hc, Hinfo.
    rewrite (proj2 (String.eqb_neq _ _) Hid).
    fold (api_command (_device_id (self w))).
    cbn [self sent]. rewrite length_app. cbn [List.length].
    unfold trigger_refused, refused in Hanswer.
    destruct (server e _ _) as [y | status body].
    - injection Hanswer as ->. reflexivity.
    - destruct (status =? 409)%Z; [discriminate |].
      destruct (400 <=? status)%Z; [injection Hanswer as <-; reflexivity |].
      destruct body as [y | j]; [| discriminate].
      injection Hanswer as ->. reflexivity. }
  destruct use_channel_info as [flag |]; simpl in Hflag; repeat post_step;
    (apply post_health_run; [exact Hid |]);
    rewrite (health_outcome e w) by reflexivity; rewrite Hhealth;
    repeat post_step; cbn [self sent];
    unfold post;
    (rewrite Hrefresh; [| reflexivity | exact Hflag | reflexivity | reflexivity]);
    cbn [fst snd]; repeat post_step; cbn; rewrite <- app_assoc; repeat split.
Qed.

Lemma refresh_failure_aborts_update_witness :
  let r := async_device_update None (env_of broken 20000000) tv_on in
  fst r = inl ClientResponseError
  /\ _state (self (snd r)) = STATE_ON
  /\ _prev_state (self (snd r)) = STATE_ON
  /\ telemetry (self (snd r)) = telemetry (self tv_on)
  /\ sent (snd r)
     = (sent tv_on
        ++ [Get (api_device_health "tv1");
            Post (api_command "tv1") (_command COMMAND_REFRESH None)])%list.
Proof.
  exact (refresh_failure_aborts_update None (env_of broken 20000000) tv_on
           ClientResponseError ltac:(discriminate) eq_refl eq_refl eq_refl
           eq_refl).
Defined.

(** A refresh that works without channel information returns without
    sending anything and keeps everything but the gate. *)
Lemma refresh_without_channel_info (e : env) (c : client) (l : list request) :
  _use_channel_info c = false ->
  exists c',
    _device_refresh e {| self := c; sent := l |}
    = (inr tt, {| self := c'; sent := l |})
    /\ _state c' = _state c /\ _prev_state c' = _prev_state c
    /\ telemetry c' = telemetry c.
Proof.
  intros Hinfo. unfold _device_refresh, Throttle. cbn [self sent].
  destruct (match _throttle c with
            | Some last => (utcnow e - last >? MIN_TIME_BETWEEN_UPDATES)%Z
            | None => true
            end).
  - exists (upd_throttle (Some (utcnow e)) c).
    unfold _device_refresh_body, bind, get_self. cbn [self sent].
    cbn [_device_id _use_channel_info upd_throttle]. rewrite Hinfo.
    destruct (_device_id c =? ""); repeat split.
  - exists c. repeat split.
Qed.

Lemma post_refresh_quiet (e : env) (w : world)
  (Q : result unit -> world -> Prop) :
  _use_channel_info (self w) = false ->
  (forall c',
      _state c' = _state (self w) ->
      _prev_state c' = _prev_state (self w) ->
      telemetry c' = telemetry (self w) ->
      Q (inr tt) {| self := c'; sent := sent w |}) ->
  post _device_refresh e w Q.
Proof.
  intros Hinfo H. destruct w as [c l]. cbn [self sent] in *.
  destruct (refresh_without_channel_info e c l Hinfo)
    as [c' [E [Hstate [Hprev Htele]]]].
  unfold post. rewrite E. now apply H.
Qed.

(** X23.  The device is online and the update works without channel
    information.  When the request for the state document fails, the update
    raises that exception with the state already set to ON: the cached
    telemetry is the one from before the call, and the health check and the
    request for the document are the two requests sent. *)
Theorem states_failure_aborts_update (use_channel_info : option bool)
  (e : env) (w : world) (x : exn) :
  _device_id (self w) <> "" ->
  fst (async_device_health e w) = inr true ->
  channel_info_for use_channel_info (self w) = false ->
  refused
    (server e (List.length (sent w) + 1)
       (Get (api_device_status (_device_id (self w)))))
  = Some x ->
  let r := async_device_update use_channel_info e w in
  fst r = inl x
  /\ _state (self (snd r)) = STATE_ON
  /\ _prev_state (self (snd r)) = _state (self w)
  /\ telemetry (self (snd r)) = telemetry (self w)
  /\ sent (snd r)
     = (sent w
        ++ [Get (api_device_health (_device_id (self w)));
            Get (api_device_status (_device_id (self w)))])%list.
Proof.
  intros Hid Hhealth Hflag Hanswer r. subst r.
  change (post (async_device_update use_channel_info) e w
            (fun r w' =>
               r = inl x
               /\ _state (self w') = STATE_ON
               /\ _prev_state (self w') = _state (self w)
               /\ telemetry (self w') = telemetry (self w)
               /\ sent w'
                  = (sent w
                     ++ [Get (api_device_health (_device_id (self w)));
                         Get (api_device_status (_device_id (self w)))])%list)).
  unfold async_device_update, fetch_states.
  do 3 post_step.
  rewrite (proj2 (String.eqb_neq _ _) Hid).
  fold (api_device_status (_device_id (self w))).
  destruct use_channel_info as [flag |]; simpl in Hflag; repeat post_step;
    (apply post_health_run; [exact Hid |]);
    rewrite (health_outcome e w) by reflexivity; rewrite Hhealth;
    repeat post_step; cbn [self sent];
    (apply post_refresh_quiet; [exact Hflag |]);
    intros c' Hstate Hprev Htele; cbn [self sent] in *;
    repeat post_step; rewrite Hstate; cbn [STStatus_eqb _state upd_state];
    repeat post_step; unfold post;
    (rewrite (request_json_refused _ e _ x);
     [| cbn [self sent]; rewrite length_app; exact Hanswer]);
    cbn [fst snd self sent];
    rewrite Hstate, Hprev, Htele, <- app_assoc; repeat split.
Qed.

Lemma states_failure_aborts_update_witness :
  let r := async_device_update (Some false) (env_of deaf 20000000) tv_on in
  fst r = inl AsyncTimeoutError
  /\ _state (self (snd r)) = STATE_ON
  /\ _prev_state (self (snd r)) = STATE_ON
  /\ telemetry (self (snd r)) = telemetry (self tv_on)
  /\ sent (snd r)
     = (sent tv_on
        ++ [Get (api_device_health "tv1");
            Get (api_device_status "tv1")])%list.
Proof.
  exact (states_failure_aborts_update (Some false) (env_of deaf 20000000)
           tv_on AsyncTimeoutError ltac:(discriminate) eq_refl eq_refl
           eq_refl).
Defined.

(** X24.  A command whose request fails (no answer, a status of 400 or more,
    or a body that is not JSON) raises that exception at once: the command
    is the only request sent, no refresh trigger follows it, and the client,
    the gate of the refresh included, is as before the call. *)
Theorem failed_command_stops (data : command_body) (e : env) (w : world)
  (x : exn) :
  _device_id (self w) <> "" ->
  refused
    (server e (List.length (sent w))
       (Post (api_command (_device_id (self w))) data))
  = Some x ->
  _async_send_command (Some data) e w
  = (inl x,
     {| self := self w;
        sent := (sent w
                 ++ [Post (api_command (_device_id (self w))) data])%list |}).
Proof.
  intros Hid Hanswer. apply String.eqb_neq in Hid.
  unfold _async_send_command, bind at 1, get_self. rewrite Hid.
  fold (api_command (_device_id (self w))).
  unfold bind. now rewrite (request_json_refused _ e w x Hanswer).
Qed.

Lemma failed_command_stops_witness :
  async_turn_off (env_of broken 20000000) tv_on
  = (inl ClientResponseError,
     {| self := self tv_on;
        sent := (sent tv_on
                 ++ [Post (api_command "tv1")
                       (_command COMMAND_POWER_OFF None)])%list |}).
Proof.
  exact (failed_command_stops (_command COMMAND_POWER_OFF None)
           (env_of broken 20000000) tv_on ClientResponseError
           ltac:(discriminate) eq_refl).
Defined.
